(** * imagewrite / deubinize: a shallow embedding of the UBI image writer
      and of the UBI volume extractor, with the properties of their
      specification.

    Source files embedded here:
    - [imagewrite.c]            (module [Imagewrite])
    - [ubi-utils/deubinize.c]   (module [Deubinize])

    Conventions.  Bytes are integers of [Z] in [0, 256).  A C buffer is a
    [list Z]; a C [unsigned long] is a [Z] reduced modulo [2^64] where the
    source computes with it, a 32-bit quantity is reduced modulo [2^32]
    (the LP64 data model of the targets of the tool).  Functions that
    return [-1] on failure in C return [-1] here. *)

From Stdlib Require Import ZArith List Lia Bool String Ascii.
Import ListNotations.
Open Scope Z_scope.

(** ** Machine integers *)

Definition ulong (x : Z) : Z := x mod 2 ^ 64.
Definition u32 (x : Z) : Z := x mod 2 ^ 32.
Definition u16 (x : Z) : Z := x mod 2 ^ 16.

(** Conversion of an [unsigned long] bit pattern to [long]. *)
Definition to_long (x : Z) : Z :=
  let y := ulong x in if y <? 2 ^ 63 then y else y - 2 ^ 64.

(** ** Byte buffers *)

Definition Zlen {A} (l : list A) : Z := Z.of_nat (List.length l).

Definition slice_nat {A} (off n : nat) (buf : list A) : list A :=
  firstn n (skipn off buf).

(** [store_nat off src buf]: the buffer [buf] after [src] was copied to
    offset [off].  The buffer keeps its size: what would fall behind its end
    is dropped (the C code would write out of bounds there). *)
Fixpoint store_nat {A} (off : nat) (src buf : list A) : list A :=
  match buf with
  | [] => []
  | b :: buf' =>
      match off with
      | S o => b :: store_nat o src buf'
      | O =>
          match src with
          | [] => buf
          | s :: src' => s :: store_nat O src' buf'
          end
      end
  end.

Definition slice {A} (off n : Z) (buf : list A) : list A :=
  slice_nat (Z.to_nat off) (Z.to_nat n) buf.

Definition store {A} (off : Z) (src buf : list A) : list A :=
  if off <? 0 then buf else store_nat (Z.to_nat off) src buf.

(** [memset(buf + off, c, n)] *)
Definition memset (off : Z) (c : Z) (n : Z) (buf : list Z) : list Z :=
  store off (repeat c (Z.to_nat n)) buf.

(** ** Byte order (mtd_swab.h): the in-memory image of a big-endian field *)

Definition cpu_to_be32 (x : Z) : list Z :=
  [ Z.land (Z.shiftr x 24) 255; Z.land (Z.shiftr x 16) 255;
    Z.land (Z.shiftr x 8) 255; Z.land x 255 ].

Definition cpu_to_be16 (x : Z) : list Z :=
  [ Z.land (Z.shiftr x 8) 255; Z.land x 255 ].

Definition be32_to_cpu (l : list Z) : Z :=
  match l with
  | [a; b; c; d] =>
      Z.lor (Z.shiftl a 24) (Z.lor (Z.shiftl b 16) (Z.lor (Z.shiftl c 8) d))
  | _ => 0
  end.

(** A pointer that may be NULL is an [option]; [is_set p] is the test [p]. *)
Definition is_set {A} (p : option A) : bool :=
  match p with Some _ => true | None => false end.

(** ** C strings: the characters before the terminating NUL *)

Fixpoint strlen_nat (s : list Z) : nat :=
  match s with
  | [] => O
  | c :: s' => if c =? 0 then O else S (strlen_nat s')
  end.

Definition strlen (s : list Z) : Z := Z.of_nat (strlen_nat s).

(** The bytes [strcpy] writes: the characters and the NUL. *)
Definition strcpy_bytes (s : list Z) : list Z :=
  firstn (strlen_nat s) s ++ [0].

(** [strncmp(s1, s2, n) == 0]; reading past the end of a list reads the
    NUL that ends the string. *)
Fixpoint strncmp_eq (n : nat) (s1 s2 : list Z) : bool :=
  match n with
  | O => true
  | S n' =>
      let c1 := hd 0 s1 in
      let c2 := hd 0 s2 in
      if c1 =? c2
      then if c1 =? 0 then true else strncmp_eq n' (tl s1) (tl s2)
      else false
  end.

(** [strnlen(s, n)] *)
Fixpoint strnlen_nat (n : nat) (s : list Z) : nat :=
  match n, s with
  | S n', c :: s' => if c =? 0 then O else S (strnlen_nat n' s')
  | _, _ => O
  end.

Definition bytes_of_string (s : string) : list Z :=
  map (fun c => Z.of_N (N_of_ascii c)) (list_ascii_of_string s).

(** ** On-flash format (mtd/ubi-media.h) *)

Module UbiMedia.

(** Modelled from the spec: [mtd/ubi-media.h] is not among the sources.  The
    specification asks for byte-exact compatibility with the images of the
    Linux UBI subsystem, whose constants and structure layouts these are:
    an EC header and a VID header of 64 bytes and a volume table record of
    172 bytes, each ending in its CRC field. *)
Definition UBI_EC_HDR_MAGIC : Z := 0x55424923.
Definition UBI_VID_HDR_MAGIC : Z := 0x55424921.
Definition UBI_VERSION : Z := 1.
Definition UBI_CRC32_INIT : Z := 0xFFFFFFFF.
Definition UBI_VID_DYNAMIC : Z := 1.
Definition UBI_VID_STATIC : Z := 2.
Definition UBI_COMPAT_REJECT : Z := 5.
Definition UBI_MAX_VOLUMES : Z := 128.
Definition UBI_INTERNAL_VOL_START : Z := 0x7FFFFFFF - 4096.
Definition UBI_LAYOUT_VOLUME_ID : Z := UBI_INTERNAL_VOL_START.
Definition UBI_LAYOUT_VOLUME_TYPE : Z := UBI_VID_DYNAMIC.
Definition UBI_LAYOUT_VOLUME_EBS : Z := 2.
Definition UBI_LAYOUT_VOLUME_COMPAT : Z := UBI_COMPAT_REJECT.
Definition UBI_VOL_NAME_MAX : Z := 127.

Definition UBI_EC_HDR_SIZE : Z := 64.
Definition UBI_VID_HDR_SIZE : Z := 64.
Definition UBI_VTBL_RECORD_SIZE : Z := 172.
Definition UBI_EC_HDR_SIZE_CRC : Z := UBI_EC_HDR_SIZE - 4.
Definition UBI_VID_HDR_SIZE_CRC : Z := UBI_VID_HDR_SIZE - 4.
Definition UBI_VTBL_RECORD_SIZE_CRC : Z := UBI_VTBL_RECORD_SIZE - 4.

(** Field offsets of [struct ubi_ec_hdr]. *)
Definition ec_magic : Z := 0.
Definition ec_version : Z := 4.
Definition ec_vid_hdr_offset : Z := 16.
Definition ec_data_offset : Z := 20.
Definition ec_image_seq : Z := 24.
Definition ec_hdr_crc : Z := 60.

(** Field offsets of [struct ubi_vid_hdr]. *)
Definition vid_magic : Z := 0.
Definition vid_version : Z := 4.
Definition vid_vol_type : Z := 5.
Definition vid_copy_flag : Z := 6.
Definition vid_compat : Z := 7.
Definition vid_vol_id : Z := 8.
Definition vid_lnum : Z := 12.
Definition vid_hdr_crc : Z := 60.

(** Field offsets of [struct ubi_vtbl_record]. *)
Definition vtbl_reserved_pebs : Z := 0.
Definition vtbl_alignment : Z := 4.
Definition vtbl_data_pad : Z := 8.
Definition vtbl_vol_type : Z := 12.
Definition vtbl_upd_marker : Z := 13.
Definition vtbl_name_len : Z := 14.
Definition vtbl_name : Z := 16.
Definition vtbl_flags : Z := 144.
Definition vtbl_crc : Z := 168.

End UbiMedia.

(** ** Reading the fields of a structure image *)

Definition get8 (off : Z) (buf : list Z) : Z := hd 0 (slice off 1 buf).

Definition be16_to_cpu (l : list Z) : Z :=
  match l with
  | [a; b] => Z.lor (Z.shiftl a 8) b
  | _ => 0
  end.

Definition get16 (off : Z) (buf : list Z) : Z := be16_to_cpu (slice off 2 buf).

Definition get32 (off : Z) (buf : list Z) : Z := be32_to_cpu (slice off 4 buf).

(** The CRC field, the last four bytes of a structure of [size] bytes,
    holds the CRC of the bytes before it, with the seed of UBI. *)
Definition crc_ok (mtd_crc32 : Z -> list Z -> Z) (size : Z) (hdr : list Z)
  : Prop :=
  get32 (size - 4) hdr
  = u32 (mtd_crc32 UbiMedia.UBI_CRC32_INIT (slice 0 (size - 4) hdr)).

(** ** What the structures on flash say *)

Section OnFlash.

Import UbiMedia.

Variable mtd_crc32 : Z -> list Z -> Z.

(** [h] is an EC header with these offsets of the VID header and of the
    data, and a CRC that checks. *)
Definition ec_hdr_is (vid_hdr_offset data_offset : Z) (h : list Z) : Prop :=
  get32 ec_magic h = UBI_EC_HDR_MAGIC /\
  get8 ec_version h = UBI_VERSION /\
  get32 ec_vid_hdr_offset h = vid_hdr_offset /\
  get32 ec_data_offset h = data_offset /\
  crc_ok mtd_crc32 UBI_EC_HDR_SIZE h.

(** [h] is a VID header of this volume type, volume and logical
    eraseblock, and a CRC that checks. *)
Definition vid_hdr_is (vol_type vol_id lnum : Z) (h : list Z) : Prop :=
  get32 vid_magic h = UBI_VID_HDR_MAGIC /\
  get8 vid_version h = UBI_VERSION /\
  get8 vid_vol_type h = vol_type /\
  get32 vid_vol_id h = vol_id /\
  get32 vid_lnum h = lnum /\
  crc_ok mtd_crc32 UBI_VID_HDR_SIZE h.

(** [r] is the volume table record of a volume of this size and name,
    with alignment 1 and of dynamic type; the name field holds the name and
    zeros behind it. *)
Definition vtbl_record_is (reserved_pebs : Z) (name : list Z) (r : list Z)
  : Prop :=
  get32 vtbl_reserved_pebs r = reserved_pebs /\
  get32 vtbl_alignment r = 1 /\
  get8 vtbl_vol_type r = UBI_VID_DYNAMIC /\
  get16 vtbl_name_len r = strlen name /\
  slice vtbl_name (UBI_VOL_NAME_MAX + 1) r
  = firstn (strlen_nat name) name
    ++ repeat 0 (Z.to_nat (UBI_VOL_NAME_MAX + 1 - strlen name)) /\
  crc_ok mtd_crc32 UBI_VTBL_RECORD_SIZE r.

(** [r] is the record of an unused slot: zeros and their CRC. *)
Definition vtbl_record_is_empty (r : list Z) : Prop :=
  slice 0 UBI_VTBL_RECORD_SIZE_CRC r
  = repeat 0 (Z.to_nat UBI_VTBL_RECORD_SIZE_CRC) /\
  crc_ok mtd_crc32 UBI_VTBL_RECORD_SIZE r.

End OnFlash.

(** ** imagewrite.c *)

Module Imagewrite.
Import UbiMedia.

(** [struct args]: the options of the command line. [vol_name] and
    [img_file] are pointers, absent ([None]) when not given. *)
Record args := mk_args {
  length : Z;
  skip : Z;
  blocks : Z;
  start : Z;
  vol_id : Z;
  vol_lebs : Z;
  std_in : bool;
  clm : bool;
  ubi : bool;
  verbose : Z;
  vol_name : option (list Z);
  mtd_device : string;
  img_file : option string
}.

Definition set_vol_lebs (a : args) (n : Z) : args :=
  mk_args (length a) (skip a) (blocks a) (start a) (vol_id a) n
          (std_in a) (clm a) (ubi a) (verbose a) (vol_name a)
          (mtd_device a) (img_file a).

(** The fields of [struct mtd_dev_info] the program reads. *)
Record mtd_dev_info := mk_mtd {
  eb_size : Z;
  min_io_size : Z;
  size : Z
}.

(** *** The MTD device behind libmtd *)

Inductive mtd_call :=
| call_is_bad (eb : Z)
| call_erase (eb : Z)
| call_write (eb offs : Z) (data : option (list Z)) (oob : option (list Z))
| call_mark_bad (eb : Z).

(** The flash: the bytes of its main area, the blocks marked bad by the
    program, and the calls made to it so far, oldest first. *)
Record nand := mk_nand {
  cells : list Z;
  marked_bad : list Z;
  calls : list mtd_call
}.

(** What the hardware does to the requests: which blocks are bad, and
    which requests fail. *)
Record faults := mk_faults {
  bad_block : Z -> bool;
  get_bad_fails : Z -> bool;
  erase_fails : Z -> bool;
  write_fails : Z -> Z -> bool
}.

Definition log (c : mtd_call) (dev : nand) : nand :=
  mk_nand (cells dev) (marked_bad dev) (calls dev ++ [c]).

Definition set_cells (cs : list Z) (dev : nand) : nand :=
  mk_nand cs (marked_bad dev) (calls dev).

(** Modelled from the spec: libmtd is not among the sources; these are the
    operations of the flash abstraction: [is_bad], [erase], [write_page]
    with optional main-area data and optional OOB bytes (absent data: the
    main area of the page is not programmed) and [mark_bad].  A request that
    fails leaves the main area as it was. *)
Definition mtd_is_bad (hw : faults) (dev : nand) (eb : Z) : Z * nand :=
  let dev := log (call_is_bad eb) dev in
  if get_bad_fails hw eb then (-1, dev)
  else if bad_block hw eb || existsb (Z.eqb eb) (marked_bad dev) then (1, dev)
  else (0, dev).

Definition mtd_erase (hw : faults) (mtd : mtd_dev_info) (dev : nand) (eb : Z)
  : Z * nand :=
  let dev := log (call_erase eb) dev in
  if erase_fails hw eb then (-1, dev)
  else (0, set_cells (memset (eb * eb_size mtd) 255 (eb_size mtd) (cells dev))
                     dev).

Definition mtd_write (hw : faults) (mtd : mtd_dev_info) (dev : nand)
    (eb offs : Z) (data : option (list Z)) (oob : option (list Z))
  : Z * nand :=
  let dev := log (call_write eb offs data oob) dev in
  if write_fails hw eb offs then (-1, dev)
  else match data with
       | None => (0, dev)
       | Some d => (0, set_cells (store (eb * eb_size mtd + offs) d (cells dev))
                                 dev)
       end.

Definition mtd_mark_bad (dev : nand) (eb : Z) : Z * nand :=
  let dev := log (call_mark_bad eb) dev in
  (0, mk_nand (cells dev) (eb :: marked_bad dev) (calls dev)).

(** *** The input descriptor *)

(** [ifd]: [-1] when there is no input, else the bytes not yet read. *)
Inductive ifd_t :=
| no_fd
| fd_open (rest : list Z).

(** [read(ifd, dest, count)]: the number of bytes read, these bytes, and the
    descriptor afterwards.  A read of an open descriptor delivers what is
    left, up to [count] bytes; a read of descriptor [-1] fails. *)
Definition read (ifd : ifd_t) (count : Z) : Z * list Z * ifd_t :=
  match ifd with
  | no_fd => (-1, [], no_fd)
  | fd_open rest =>
      let got := firstn (Z.to_nat count) rest in
      (Zlen got, got, fd_open (skipn (Z.to_nat count) rest))
  end.

(** The variables that live across the calls of [eb_gen_data]: its statics
    [blk_no] and [image_seq], the input descriptor and [*data_left]. *)
Record wstate := mk_wstate {
  blk_no : Z;
  image_seq : Z;
  ifd : ifd_t;
  data_left : Z
}.

Inductive exit_status :=
| EXIT_SUCCESS
| EXIT_FAILURE (stderr : list string)
| SIGSEGV.

Section Writer.

(** [mtd_crc32(seed, buf, len)] of crc32.h, on the [len] bytes given. *)
Variable mtd_crc32 : Z -> list Z -> Z.

Variable a : args.
Variable mtd : mtd_dev_info.
Variable hw : faults.

Definition eb_erase (eb_addr : Z) (dev : nand) : Z * nand :=
  let eb := eb_addr / eb_size mtd in
  let '(ret, dev) := mtd_is_bad hw dev eb in
  if ret >? 0 then (ret, dev)
  else if ret <? 0 then (ret, dev)
  else mtd_erase hw mtd dev eb.

(** The loop of [data_read]: [dest] collects the bytes written to the
    destination so far. *)
Fixpoint data_read_loop (fuel : nat) (fd : ifd_t) (len left_to_read : Z)
    (dest : list Z) : Z * list Z * ifd_t :=
  match fuel with
  | O => (len, dest, fd)
  | S fuel' =>
      if left_to_read =? 0 then (len, dest, fd)
      else
        let '(n, got, fd') := read fd left_to_read in
        if n <? 0 then (-1, dest, fd')
        else if n =? 0 then
          if std_in a && (length a =? 0)
          then (len - left_to_read, dest, fd')
          else (-1, dest, fd')
        else data_read_loop fuel' fd' len (left_to_read - n) (dest ++ got)
  end.

(** Every turn of the loop that goes on has read a byte at least, so
    [len] turns and the last test end it. *)
Definition data_read (fd : ifd_t) (len : Z) : Z * list Z * ifd_t :=
  data_read_loop (S (Z.to_nat len)) fd len len [].

(** The images of the structures the program fills in place: cleared,
    fields set, CRC over all but the last four bytes, CRC stored. *)
Definition ubi_ec_hdr_bytes (data_ofs seq : Z) : list Z :=
  let h := repeat 0 (Z.to_nat UBI_EC_HDR_SIZE) in
  let h := store ec_magic (cpu_to_be32 UBI_EC_HDR_MAGIC) h in
  let h := store ec_version [UBI_VERSION] h in
  let h := store ec_vid_hdr_offset (cpu_to_be32 (min_io_size mtd)) h in
  let h := store ec_data_offset (cpu_to_be32 data_ofs) h in
  let h := store ec_image_seq (cpu_to_be32 seq) h in
  let crc := u32 (mtd_crc32 UBI_CRC32_INIT (slice 0 UBI_EC_HDR_SIZE_CRC h)) in
  store ec_hdr_crc (cpu_to_be32 crc) h.

Definition ubi_vid_hdr_bytes (vol_type compat vid lnum : Z) : list Z :=
  let h := repeat 0 (Z.to_nat UBI_VID_HDR_SIZE) in
  let h := store vid_magic (cpu_to_be32 UBI_VID_HDR_MAGIC) h in
  let h := store vid_version [UBI_VERSION] h in
  let h := store vid_vol_type [vol_type] h in
  let h := store vid_compat [compat] h in
  let h := store vid_vol_id (cpu_to_be32 vid) h in
  let h := store vid_lnum (cpu_to_be32 lnum) h in
  let crc := u32 (mtd_crc32 UBI_CRC32_INIT (slice 0 UBI_VID_HDR_SIZE_CRC h)) in
  store vid_hdr_crc (cpu_to_be32 crc) h.

(** [main] has taken [strlen(args.vol_name)] before the first block is
    generated, so the name is present here; an absent one reads as empty. *)
Definition the_vol_name : list Z :=
  match vol_name a with Some s => s | None => [] end.

Definition ubi_vtbl_record_bytes (i : Z) : list Z :=
  let r := repeat 0 (Z.to_nat UBI_VTBL_RECORD_SIZE) in
  let r :=
    if i =? vol_id a then
      let r := store vtbl_reserved_pebs (cpu_to_be32 (vol_lebs a)) r in
      let r := store vtbl_alignment (cpu_to_be32 1) r in
      let r := store vtbl_vol_type [UBI_VID_DYNAMIC] r in
      let r := store vtbl_name_len (cpu_to_be16 (strlen the_vol_name)) r in
      store vtbl_name (strcpy_bytes the_vol_name) r
    else r in
  let crc :=
    u32 (mtd_crc32 UBI_CRC32_INIT (slice 0 UBI_VTBL_RECORD_SIZE_CRC r)) in
  store vtbl_crc (cpu_to_be32 crc) r.

(** [for (i=0; i<128; ++i) { ...; ++vtbl_rec; }]: [n] records are still to
    write, the next one is record [i] at offset [ofs]. *)
Fixpoint fill_vtbl (n : nat) (i ofs : Z) (block_buf : list Z)
  : Z * list Z :=
  match n with
  | O => (ofs, block_buf)
  | S n' =>
      fill_vtbl n' (i + 1) (ofs + UBI_VTBL_RECORD_SIZE)
                (store ofs (ubi_vtbl_record_bytes i) block_buf)
  end.

(** [eb_gen_data]: the value returned, the block buffer and the variables
    afterwards. [rnd] is the value [gen_image_seq] comes up with. *)
Definition eb_gen_data (rnd : Z) (st : wstate) : Z * list Z * wstate :=
  let block_buf := repeat 255 (Z.to_nat (eb_size mtd)) in
  if ubi a then
    let data_ofs := ulong (min_io_size mtd * 2) in
    let seq := if image_seq st =? 0 then u32 rnd else image_seq st in
    let block_buf := store 0 (ubi_ec_hdr_bytes data_ofs seq) block_buf in
    let block_buf :=
      if blk_no st <? UBI_LAYOUT_VOLUME_EBS then
        store (min_io_size mtd)
              (ubi_vid_hdr_bytes UBI_LAYOUT_VOLUME_TYPE UBI_LAYOUT_VOLUME_COMPAT
                                 UBI_LAYOUT_VOLUME_ID (blk_no st))
              block_buf
      else if blk_no st <? ulong (vol_lebs a + UBI_LAYOUT_VOLUME_EBS) then
        store (min_io_size mtd)
              (ubi_vid_hdr_bytes UBI_VID_DYNAMIC 0 (vol_id a)
                                 (ulong (blk_no st - UBI_LAYOUT_VOLUME_EBS)))
              block_buf
      else block_buf in
    if blk_no st <? UBI_LAYOUT_VOLUME_EBS then
      let '(end_ofs, block_buf) := fill_vtbl 128 0 data_ofs block_buf in
      (end_ofs, block_buf,
       mk_wstate (ulong (blk_no st + 1)) seq (ifd st) (data_left st))
    else if blk_no st <? ulong (vol_lebs a + UBI_LAYOUT_VOLUME_EBS) then
      let i := ulong (eb_size mtd - data_ofs) in
      let data_len := if data_left st >? i then i else data_left st in
      let '(data_len, got, fd') := data_read (ifd st) data_len in
      let block_buf := store data_ofs got block_buf in
      if data_len <? 0 then
        (-1, block_buf, mk_wstate (blk_no st) seq fd' (data_left st))
      else
        (data_len + data_ofs, block_buf,
         mk_wstate (ulong (blk_no st + 1)) seq fd'
                   (ulong (data_left st - data_len)))
    else
      (UBI_EC_HDR_SIZE, block_buf,
       mk_wstate (ulong (blk_no st + 1)) seq (ifd st) (data_left st))
  else
    let data_len :=
      if data_left st >? eb_size mtd then eb_size mtd else data_left st in
    let '(data_len, got, fd') := data_read (ifd st) data_len in
    let block_buf := store 0 got block_buf in
    if data_len <? 0 then
      (-1, block_buf, mk_wstate (blk_no st) (image_seq st) fd' (data_left st))
    else
      (data_len, block_buf,
       mk_wstate (ulong (blk_no st + 1)) (image_seq st) fd'
                 (ulong (data_left st - data_len))).

Definition clean_marker : list Z :=
  [0x19; 0x85; 0x20; 0x03; 0x00; 0x00; 0x00; 0x08].

(** The [while] loop of [eb_write]. *)
Fixpoint eb_write_loop (fuel : nat) (eb_addr data_len : Z) (data : list Z)
    (page_addr : Z) (write_clm : bool) (dev : nand) : Z * nand :=
  match fuel with
  | O => (0, dev)
  | S fuel' =>
      if (page_addr <? data_len) || write_clm then
        let page := slice page_addr (min_io_size mtd) data in
        let write_len :=
          if existsb (fun b => negb (b =? 0xFF)) page
          then min_io_size mtd else 0 in
        let '(ret, dev) :=
          mtd_write hw mtd dev (eb_addr / eb_size mtd) page_addr
                    (if write_len =? 0 then None else Some page)
                    (if write_clm then Some clean_marker else None) in
        if negb (ret =? 0) then
          let '(_, dev) := eb_erase eb_addr dev in
          let dev :=
            if data_len mod eb_size mtd =? 0
            then snd (mtd_mark_bad dev (eb_addr / eb_size mtd))
            else dev in
          (ret, dev)
        else
          eb_write_loop fuel' eb_addr data_len data
                        (ulong (page_addr + min_io_size mtd)) false dev
      else (0, dev)
  end.

(** The pages below [data_len] and the test that ends the loop. *)
Definition eb_write (eb_addr data_len : Z) (data : list Z) (dev : nand)
  : Z * nand :=
  if (data_len =? 0) && negb (clm a) then (0, dev)
  else
    eb_write_loop (Z.to_nat (data_len / min_io_size mtd) + 2)
                  eb_addr data_len data 0 (clm a) dev.

(** [for (eb_addr = start; eb_addr < end; eb_addr += mtd.eb_size)
       eb_erase(&mtd, fd, eb_addr);] *)
Fixpoint erase_pass (fuel : nat) (eb_addr end_ : Z) (dev : nand) : nand :=
  match fuel with
  | O => dev
  | S fuel' =>
      if eb_addr <? end_ then
        erase_pass fuel' (ulong (eb_addr + eb_size mtd)) end_
                   (snd (eb_erase eb_addr dev))
      else dev
  end.

(** The inner [while (eb_addr < end)] of the write pass: [eb_addr] when the
    loop is left, and the device. *)
Fixpoint write_block (fuel : nat) (eb_addr end_ data_len : Z)
    (block_buf : list Z) (dev : nand) : Z * nand :=
  match fuel with
  | O => (eb_addr, dev)
  | S fuel' =>
      if eb_addr <? end_ then
        let '(ret, dev) := eb_write eb_addr data_len block_buf dev in
        if ret =? 0 then (eb_addr, dev)
        else write_block fuel' (ulong (eb_addr + eb_size mtd)) end_ data_len
                         block_buf dev
      else (eb_addr, dev)
  end.

(** The outer [for] of the write pass. *)
Fixpoint write_pass (fuel : nat) (rnd : Z) (eb_addr end_ : Z) (st : wstate)
    (dev : nand) : wstate * nand :=
  match fuel with
  | O => (st, dev)
  | S fuel' =>
      if eb_addr <? end_ then
        let '(data_len, block_buf, st) := eb_gen_data rnd st in
        if data_len <? 0 then (st, dev)
        else
          let '(eb_addr, dev) :=
            write_block fuel eb_addr end_ data_len block_buf dev in
          write_pass fuel' rnd (ulong (eb_addr + eb_size mtd)) end_ st dev
      else (st, dev)
  end.

End Writer.

(** *** main *)

(** What the run meets outside the program: the device ([None]: it cannot
    be opened or described), the contents of INPUTFILE ([None]: it cannot
    be opened), the bytes on standard input, the value the random generator
    gives for the image sequence number, and the behaviour of the flash. *)
Record env := mk_env {
  dev_info : option mtd_dev_info;
  img_data : option (list Z);
  stdin_data : list Z;
  rand_seq : Z;
  hw : faults
}.

(** The variables of [main] when the erase pass starts. [r_args] is
    [args], with [vol_lebs] resolved in UBI mode. *)
Record run := mk_run {
  r_args : args;
  r_mtd : mtd_dev_info;
  r_start : Z;
  r_end : Z;
  r_image_size : Z;
  r_ifd : ifd_t
}.

Definition partially_written : string :=
  "data only partially written due to error".

(** [errmsg(msg); goto closeall;] with [failed] still set. *)
Definition closeall_failed (msg : string) : exit_status :=
  EXIT_FAILURE [msg; partially_written].

Definition errmsg_die (msg : string) : exit_status := EXIT_FAILURE [msg].

(** Lines 542-548: the number of LEBs of the volume. *)
Definition resolve_vol_lebs (tot_lebs arg : Z) : Z :=
  let vol_lebs := to_long arg in
  if vol_lebs =? 0 then to_long (tot_lebs - 20)
  else if vol_lebs <? 0 then to_long (tot_lebs + arg)
  else to_long arg.

Definition tot_lebs_of (mtd : mtd_dev_info) (start_ end_ : Z) : Z :=
  to_long (ulong (end_ - start_) / eb_size mtd - UBI_LAYOUT_VOLUME_EBS).

(** Lines 489-532: the input and the size of the image. *)
Definition open_input (a : args) (w : env) : exit_status + (ifd_t * Z) :=
  if std_in a then
    if negb (skip a =? 0)
    then inl (closeall_failed "--skip not supported with --stdin")
    else inr (fd_open (stdin_data w), length a)
  else
    match img_file a with
    | Some _ =>
        match img_data w with
        | None => inl (closeall_failed "failed to open image file")
        | Some content =>
            let st_size := Zlen content in
            if ulong (skip a + length a) >? st_size
            then inl (closeall_failed "image file is too small")
            else inr (fd_open (skipn (Z.to_nat (skip a)) content),
                      if length a =? 0 then ulong (st_size - skip a)
                      else length a)
        end
    | None =>
        if negb (length a =? 0) || negb (skip a =? 0)
        then inl (errmsg_die "can't have --skip or --length without input file")
        else inr (no_fd, 0)
    end.

(** Lines 534-572: the geometry checks; [args.vol_lebs] afterwards. *)
Definition check_geometry (a : args) (mtd : mtd_dev_info)
    (start_ end_ image_size : Z) : exit_status + args :=
  if ubi a then
    let leb_size := ulong (eb_size mtd - min_io_size mtd * 2) in
    let tot_lebs := tot_lebs_of mtd start_ end_ in
    let vol_lebs := resolve_vol_lebs tot_lebs (vol_lebs a) in
    if (vol_lebs <? 0) || (vol_lebs >? tot_lebs)
    then inl (closeall_failed "volume LEBs doesn't fit into allocated blocks")
    else if image_size >? ulong (vol_lebs * leb_size)
    then inl (closeall_failed "image file does not fit into allocated LEBs")
    else
      match vol_name a with
      | None => inl SIGSEGV
      | Some name =>
          if strlen name >? UBI_VOL_NAME_MAX
          then inl (closeall_failed "volume name too long")
          else inr (set_vol_lebs a (ulong vol_lebs))
      end
  else
    if image_size >? ulong (end_ - start_)
    then inl (closeall_failed "image file does not fit into allocated blocks")
    else inr a.

(** Lines 472-473: the window in bytes. *)
Definition window_start (a : args) (mtd : mtd_dev_info) : Z :=
  ulong (start a * eb_size mtd).

Definition window_end (a : args) (mtd : mtd_dev_info) : Z :=
  if blocks a =? 0 then ulong (size mtd)
  else ulong (window_start a mtd + ulong (blocks a * eb_size mtd)).

(** [main] up to the erase pass. *)
Definition prepare (a : args) (w : env) : exit_status + run :=
  if is_set (img_file a) && std_in a
  then inl (errmsg_die "can't have both --stdin and an input file")
  else if ubi a && (is_set (img_file a) || std_in a)
               && negb (is_set (vol_name a))
  then inl (errmsg_die "--ubi and input data require --vol-name")
  else
    match dev_info w with
    | None => inl (errmsg_die "failed to get mtd device info")
    | Some mtd =>
        let start_ := window_start a mtd in
        let end_ := window_end a mtd in
        if start_ >? ulong (size mtd - eb_size mtd)
        then inl (errmsg_die "start block out of range")
        else if end_ >? ulong (size mtd)
        then inl (errmsg_die "block count out of range")
        else
          match open_input a w with
          | inl e => inl e
          | inr (fd, image_size) =>
              match check_geometry a mtd start_ end_ image_size with
              | inl e => inl e
              | inr a' => inr (mk_run a' mtd start_ end_ image_size fd)
              end
          end
    end.

(** The loops over the window make a turn per eraseblock and a last test. *)
Definition window_fuel (r : run) : nat :=
  Z.to_nat (ulong (r_end r - r_start r) / eb_size (r_mtd r)) + 2.

Definition initial_wstate (r : run) : wstate :=
  mk_wstate 0 0 (r_ifd r)
            (if r_image_size r =? 0 then ulong (-1) else r_image_size r).

Section Main.

Variable mtd_crc32 : Z -> list Z -> Z.

(** Lines 589-610: the write pass of [main]; the variables at its end. *)
Definition write_all (r : run) (w : env) (dev : nand) : wstate * nand :=
  write_pass mtd_crc32 (r_args r) (r_mtd r) (hw w) (window_fuel r)
             (rand_seq w) (r_start r) (r_end r) (initial_wstate r) dev.

Definition main (a : args) (w : env) (dev : nand) : exit_status * nand :=
  match prepare a w with
  | inl e => (e, dev)
  | inr r =>
      let dev :=
        erase_pass (r_mtd r) (hw w) (window_fuel r) (r_start r) (r_end r)
                   dev in
      if (r_image_size r =? 0) && negb (std_in (r_args r))
                               && negb (ubi (r_args r))
      then (EXIT_SUCCESS, dev)
      else
        let '(st, dev) := write_all r w dev in
        if (data_left st =? 0) || (r_image_size r =? 0)
        then (EXIT_SUCCESS, dev)
        else (EXIT_FAILURE [partially_written], dev)
  end.

End Main.

End Imagewrite.

(** ** What the specification says of a generated block *)

Section BlockSpec.

Import UbiMedia.

Variable mtd_crc32 : Z -> list Z -> Z.
Variable a : Imagewrite.args.
Variable mtd : Imagewrite.mtd_dev_info.

Let vid_ofs : Z := Imagewrite.min_io_size mtd.
Let data_ofs : Z := 2 * Imagewrite.min_io_size mtd.

(** [blk_no < 2]: a VID header of the layout volume with [lnum = blk_no],
    and at [data_offset] the 128 records of the volume table: the one of
    slot [vol_id] describes the volume, the others are empty; [data_len]
    is the end of the table. *)
Definition layout_block (blk_no data_len : Z) (buf : list Z) : Prop :=
  vid_hdr_is mtd_crc32 UBI_LAYOUT_VOLUME_TYPE UBI_LAYOUT_VOLUME_ID blk_no
             (slice vid_ofs UBI_VID_HDR_SIZE buf) /\
  get8 vid_compat (slice vid_ofs UBI_VID_HDR_SIZE buf)
  = UBI_LAYOUT_VOLUME_COMPAT /\
  (forall i, 0 <= i < 128 ->
     let r := slice (data_ofs + i * UBI_VTBL_RECORD_SIZE)
                    UBI_VTBL_RECORD_SIZE buf in
     if i =? Imagewrite.vol_id a
     then vtbl_record_is mtd_crc32 (Imagewrite.vol_lebs a)
                         (Imagewrite.the_vol_name a) r
     else vtbl_record_is_empty mtd_crc32 r) /\
  data_len = data_ofs + 128 * UBI_VTBL_RECORD_SIZE.

(** [2 <= blk_no < 2 + vol_lebs]: a dynamic VID header of the volume with
    [lnum = blk_no - 2], and at [data_offset] the bytes read, a LEB at
    most; [data_len] is their end. *)
Definition data_block (blk_no : Z) (bytes_read : list Z) (data_len : Z)
    (buf : list Z) : Prop :=
  vid_hdr_is mtd_crc32 UBI_VID_DYNAMIC (Imagewrite.vol_id a) (blk_no - 2)
             (slice vid_ofs UBI_VID_HDR_SIZE buf) /\
  Zlen bytes_read <= Imagewrite.eb_size mtd - data_ofs /\
  slice data_ofs (Zlen bytes_read) buf = bytes_read /\
  data_len = data_ofs + Zlen bytes_read.

(** [blk_no >= 2 + vol_lebs]: nothing but the EC header. *)
Definition trailing_block (data_len : Z) (buf : list Z) : Prop :=
  data_len = UBI_EC_HDR_SIZE /\
  slice UBI_EC_HDR_SIZE (Imagewrite.eb_size mtd - UBI_EC_HDR_SIZE) buf
  = repeat 0xFF (Z.to_nat (Imagewrite.eb_size mtd - UBI_EC_HDR_SIZE)).

End BlockSpec.

(** ** ubi-utils/deubinize.c *)

Module Deubinize.
Import UbiMedia.

Record img_info := mk_img_info {
  size : Z;
  vid_hdr_offset : Z;
  data_offset : Z;
  vol_id : Z;
  lnum : Z
}.

Record args := mk_args {
  f_in : string;
  f_out : string;
  peb_size : Z;
  vol_index : Z;
  vol_name : option (list Z);
  skip_bad : bool;
  verbose : bool
}.

(** What a function that returns [errmsg(...)], that is [-1], reports. *)
Inductive result (A : Type) :=
| Ok (x : A)
| Error (msg : string).
Arguments Ok {A} x.
Arguments Error {A} msg.

Definition EXIT_SUCCESS : Z := 0.
Definition EXIT_FAILURE : Z := 1.

(** [lseek(fd, off, SEEK_SET); write(fd, buf, n)] on the output file: a
    write behind the end of the file leaves a hole that reads as zeros. *)
Definition pwrite (off : Z) (buf out : list Z) : list Z :=
  store off buf
        (out ++ repeat 0 (Z.to_nat (off + Zlen buf - Zlen out))).

Section Extractor.

Variable mtd_crc32 : Z -> list Z -> Z.

Variable a : args.

(** The image file is [file]; the position of its descriptor is passed
    along. [read_headers] starts at [pos] and gives the position it leaves
    the descriptor at, and [*imi]. *)
Definition read_headers (file : list Z) (pos : Z) (imi : img_info)
  : result (Z * img_info) :=
  let ec_hdr := slice pos UBI_EC_HDR_SIZE file in
  if negb (Zlen ec_hdr =? UBI_EC_HDR_SIZE)
  then Error "failed to read EC header" else
  let pos := pos + UBI_EC_HDR_SIZE in
  let magic := be32_to_cpu (slice ec_magic 4 ec_hdr) in
  if negb (magic =? UBI_EC_HDR_MAGIC)
  then Error "bad magic of EC header" else
  let crc := u32 (mtd_crc32 UBI_CRC32_INIT (slice 0 UBI_EC_HDR_SIZE_CRC ec_hdr)) in
  if negb (be32_to_cpu (slice ec_hdr_crc 4 ec_hdr) =? crc)
  then Error "bad CRC of EC header" else
  let vid_ofs := be32_to_cpu (slice ec_vid_hdr_offset 4 ec_hdr) in
  let data_ofs := be32_to_cpu (slice ec_data_offset 4 ec_hdr) in
  if data_ofs >=? u32 (peb_size a)
  then Error "data_offset >= peb_size" else
  let pos := pos + to_long (vid_ofs - UBI_EC_HDR_SIZE) in
  if pos <? 0 then Error "cannot seek input file" else
  let vid_hdr := slice pos UBI_VID_HDR_SIZE file in
  if negb (Zlen vid_hdr =? UBI_VID_HDR_SIZE)
  then Error "failed to read vid header" else
  let pos := pos + UBI_VID_HDR_SIZE in
  let magic := be32_to_cpu (slice vid_magic 4 vid_hdr) in
  if magic =? 0xffffffff then
    Ok (pos, mk_img_info (size imi) vid_ofs data_ofs magic magic)
  else if negb (magic =? UBI_VID_HDR_MAGIC)
  then Error "bad magic of vid header" else
  let crc :=
    u32 (mtd_crc32 UBI_CRC32_INIT (slice 0 UBI_VID_HDR_SIZE_CRC vid_hdr)) in
  if negb (be32_to_cpu (slice vid_hdr_crc 4 vid_hdr) =? crc)
  then Error "bad CRC of vid header" else
  let pos := pos + to_long (data_ofs - (vid_ofs + UBI_VID_HDR_SIZE)) in
  if pos <? 0 then Error "cannot seek input file" else
  Ok (pos, mk_img_info (size imi) vid_ofs data_ofs
                       (be32_to_cpu (slice vid_vol_id 4 vid_hdr))
                       (be32_to_cpu (slice vid_lnum 4 vid_hdr))).

(** The [for (;;)] of [read_ubi_info]: the walk to the first eraseblock of
    the layout volume. It makes a turn per eraseblock of the file at most;
    a failure of [read_headers] ends it, whatever [skip_bad] says. *)
Fixpoint find_layout (fuel : nat) (file : list Z) (seek : Z) (imi : img_info)
  : result (Z * img_info) :=
  match fuel with
  | O => Error "volume table EB not found"
  | S fuel' =>
      match read_headers file seek imi with
      | Error msg => Error msg
      | Ok (pos, imi) =>
          if vol_id imi =? UBI_LAYOUT_VOLUME_ID then Ok (pos, imi)
          else
            let seek := seek + peb_size a in
            if seek >=? size imi then Error "volume table EB not found"
            else find_layout fuel' file seek imi
      end
  end.

(** [while (vol_ix < UBI_MAX_VOLUMES)]: [n] records are left to look at. *)
Fixpoint find_name (n : nat) (name file : list Z) (pos vol_ix : Z)
  : result Z :=
  match n with
  | O => Error "volume not found"
  | S n' =>
      let vtbl_rec := slice pos UBI_VTBL_RECORD_SIZE file in
      if negb (Zlen vtbl_rec =? UBI_VTBL_RECORD_SIZE)
      then Error "failed to read vtbl record" else
      let crc :=
        u32 (mtd_crc32 UBI_CRC32_INIT
                       (slice 0 UBI_VTBL_RECORD_SIZE_CRC vtbl_rec)) in
      if negb (be32_to_cpu (slice vtbl_crc 4 vtbl_rec) =? crc)
      then Error "bad CRC of volume table record" else
      if strncmp_eq (Z.to_nat UBI_VOL_NAME_MAX) name
                    (slice vtbl_name (UBI_VOL_NAME_MAX + 1) vtbl_rec)
      then Ok vol_ix
      else find_name n' name file (pos + UBI_VTBL_RECORD_SIZE) (vol_ix + 1)
  end.

(** [read_ubi_info]: [args] (its [vol_index] or its [vol_name] is set
    here) and [*imi] afterwards. *)
Definition read_ubi_info (file : list Z) (imi : img_info)
  : result (args * img_info) :=
  match find_layout (Z.to_nat (size imi / peb_size a) + 1) file 0 imi with
  | Error msg => Error msg
  | Ok (pos, imi) =>
      match vol_name a with
      | Some name =>
          match find_name (Z.to_nat UBI_MAX_VOLUMES) name file pos 0 with
          | Error msg => Error msg
          | Ok vol_ix =>
              Ok (mk_args (f_in a) (f_out a) (peb_size a) vol_ix (vol_name a)
                          (skip_bad a) (verbose a), imi)
          end
      | None =>
          let pos := pos + vol_index a * UBI_VTBL_RECORD_SIZE in
          if pos <? 0 then Error "cannot seek input file" else
          let vtbl_rec := slice pos UBI_VTBL_RECORD_SIZE file in
          if negb (Zlen vtbl_rec =? UBI_VTBL_RECORD_SIZE)
          then Error "failed to read vtbl record" else
          let crc :=
            u32 (mtd_crc32 UBI_CRC32_INIT
                           (slice 0 UBI_VTBL_RECORD_SIZE_CRC vtbl_rec)) in
          if negb (be32_to_cpu (slice vtbl_crc 4 vtbl_rec) =? crc)
          then Error "bad CRC of volume table record" else
          let name := slice vtbl_name (UBI_VOL_NAME_MAX + 1) vtbl_rec in
          let n := strnlen_nat (Z.to_nat UBI_VOL_NAME_MAX) name in
          if Nat.eqb n 0 then Error "volume does not exist" else
          Ok (mk_args (f_in a) (f_out a) (peb_size a) (vol_index a)
                      (Some (firstn n name)) (skip_bad a) (verbose a), imi)
      end
  end.

(** The [for] of [extract_volume_data]: the value returned and the output
    file. *)
Fixpoint extract_loop (fuel : nat) (file : list Z) (imi : img_info)
    (data_size r_seek : Z) (out : list Z) : Z * list Z :=
  match fuel with
  | O => (0, out)
  | S fuel' =>
      if r_seek <? size imi then
        match read_headers file r_seek (mk_img_info 0 0 0 0 0) with
        | Error _ =>
            if skip_bad a
            then extract_loop fuel' file imi data_size (r_seek + peb_size a)
                              out
            else (-1, out)
        | Ok (pos, local_imi) =>
            if negb (vol_id local_imi =? u32 (vol_index a))
            then extract_loop fuel' file imi data_size (r_seek + peb_size a)
                              out
            else
              let buf := slice pos data_size file in
              if negb (Zlen buf =? data_size) then (-1, out)
              else
                let w_seek := u32 (lnum local_imi * data_size) in
                extract_loop fuel' file imi data_size (r_seek + peb_size a)
                             (pwrite w_seek buf out)
        end
      else (0, out)
  end.

Definition extract_volume_data (file : list Z) (imi : img_info)
    (out : list Z) : Z * list Z :=
  let data_size := u32 (peb_size a - data_offset imi) in
  extract_loop (Z.to_nat (size imi / peb_size a) + 1) file imi data_size 0
               out.

End Extractor.

(** [main] after [parse_opt]: the exit status and the output file, [None]
    when it was not created. [image] is the input file, [None] when it is
    not there. *)
Definition main (mtd_crc32 : Z -> list Z -> Z) (a : args)
    (image : option (list Z)) : Z * option (list Z) :=
  match image with
  | None => (EXIT_FAILURE, None)
  | Some file =>
      let st_size := Zlen file in
      if (st_size =? 0) || negb (st_size mod peb_size a =? 0)
      then (EXIT_FAILURE, None)
      else
        match read_ubi_info mtd_crc32 a file (mk_img_info st_size 0 0 0 0) with
        | Error _ => (EXIT_FAILURE, None)
        | Ok (a, imi) =>
            let '(err, out) := extract_volume_data mtd_crc32 a file imi [] in
            (if err =? 0 then EXIT_SUCCESS else EXIT_FAILURE, Some out)
        end
  end.

End Deubinize.

(** ** A CRC-32 to run the definitions with *)

(** Modelled from the spec: [crc32.h] is not among the sources; the
    specification takes a CRC-32 routine with a seed for given. This is the
    reflected CRC-32 of polynomial [0xEDB88320] without a final inversion,
    a byte at a time. The theorems hold for every routine. *)
Fixpoint crc32_bits (n : nat) (c : Z) : Z :=
  match n with
  | O => c
  | S n' =>
      crc32_bits n' (if Z.odd c then Z.lxor (Z.shiftr c 1) 0xEDB88320
                     else Z.shiftr c 1)
  end.

Definition crc32 (seed : Z) (buf : list Z) : Z :=
  fold_left (fun c b => crc32_bits 8 (Z.lxor c b)) buf seed.

(** ** The generated blocks in closed form *)

Section ClosedBlocks.

Variable crc : Z -> list Z -> Z.
Variable a : Imagewrite.args.
Variable mtd : Imagewrite.mtd_dev_info.

(** The sequence number of the image during and after a call. *)
Definition seq_of (rnd : Z) (st : Imagewrite.wstate) : Z :=
  if Imagewrite.image_seq st =? 0 then u32 rnd else Imagewrite.image_seq st.

(** The block when nothing but the EC header is written. *)
Definition ec_only (rnd : Z) (st : Imagewrite.wstate) : list Z :=
  store 0
        (Imagewrite.ubi_ec_hdr_bytes crc mtd (2 * Imagewrite.min_io_size mtd)
                                     (seq_of rnd st))
        (repeat 255 (Z.to_nat (Imagewrite.eb_size mtd))).

Definition with_vid (vid_hdr : list Z) (rnd : Z) (st : Imagewrite.wstate)
  : list Z :=
  store (Imagewrite.min_io_size mtd) vid_hdr (ec_only rnd st).

Definition layout_vid (blk : Z) : list Z :=
  Imagewrite.ubi_vid_hdr_bytes crc UbiMedia.UBI_LAYOUT_VOLUME_TYPE
    UbiMedia.UBI_LAYOUT_VOLUME_COMPAT UbiMedia.UBI_LAYOUT_VOLUME_ID blk.

Definition volume_vid (blk : Z) : list Z :=
  Imagewrite.ubi_vid_hdr_bytes crc UbiMedia.UBI_VID_DYNAMIC 0
    (Imagewrite.vol_id a) (ulong (blk - 2)).

End ClosedBlocks.

(** ** What the specification says of the page writes of [eb_write] *)

Section PageSpec.

Variable a : Imagewrite.args.
Variable mtd : Imagewrite.mtd_dev_info.

Definition page_of (data : list Z) (page_addr : Z) : list Z :=
  slice page_addr (Imagewrite.min_io_size mtd) data.

(** Every byte of the page equals [0xFF]. *)
Definition is_erased_page (page : list Z) : bool :=
  forallb (fun b => b =? 0xFF) page.

(** The write of the page at [page_addr]: its main area is programmed
    unless every byte is [0xFF]; the first page takes the clean marker in
    its OOB area when clean markers are asked for. *)
Definition page_write_call (eb : Z) (data : list Z) (page_addr : Z)
  : Imagewrite.mtd_call :=
  Imagewrite.call_write eb page_addr
    (if is_erased_page (page_of data page_addr) then None
     else Some (page_of data page_addr))
    (if Imagewrite.clm a && (page_addr =? 0)
     then Some Imagewrite.clean_marker else None).

(** The pages below [data_len]: [0, min_io_size, 2 * min_io_size, ...];
    the first page in any case when clean markers are asked for. *)
Definition page_count (data_len : Z) : Z :=
  Z.max ((data_len + Imagewrite.min_io_size mtd - 1)
         / Imagewrite.min_io_size mtd)
        (if Imagewrite.clm a then 1 else 0).

Definition page_addrs_from (j : Z) (k : nat) : list Z :=
  map (fun i => (j + Z.of_nat i) * Imagewrite.min_io_size mtd) (seq 0 k).

Definition page_addrs (data_len : Z) : list Z :=
  page_addrs_from 0 (Z.to_nat (page_count data_len)).

(** The main area after the pages that are not erased were programmed. *)
Definition program_pages (eb : Z) (data : list Z) (pages : list Z)
    (cells : list Z) : list Z :=
  fold_left
    (fun cs p =>
       if is_erased_page (page_of data p) then cs
       else store (eb * Imagewrite.eb_size mtd + p) (page_of data p) cs)
    pages cells.

End PageSpec.

(** ** Runs to evaluate *)

(** A flash of five eraseblocks of 22144 bytes with pages of 64 bytes: the
    smallest eraseblock that holds the two headers and the volume table. *)
Definition small_mtd : Imagewrite.mtd_dev_info :=
  Imagewrite.mk_mtd 22144 64 (5 * 22144).

Definition no_faults : Imagewrite.faults :=
  Imagewrite.mk_faults (fun _ => false) (fun _ => false) (fun _ => false)
                       (fun _ _ => false).

(** [imagewrite -u -n vol_id -N name -S 2 /dev/mtd1 root.ubifs] *)
Definition ubi_args (vol_id : Z) (name : string) : Imagewrite.args :=
  Imagewrite.mk_args 0 0 0 0 vol_id 2 false false true 1
                     (Some (bytes_of_string name)) "/dev/mtd1"
                     (Some "root.ubifs"%string).

Definition file_env (payload : list Z) : Imagewrite.env :=
  Imagewrite.mk_env (Some small_mtd) (Some payload) [] 12345 no_faults.

Definition used_flash : Imagewrite.nand :=
  Imagewrite.mk_nand (repeat 0 (Z.to_nat (5 * 22144))) [] [].

(** [deubinize -o out.img -p 22144 -n name ubi.img] *)
Definition extract_args (name : string) (skip_bad : bool) : Deubinize.args :=
  Deubinize.mk_args "ubi.img" "out.img" 22144 0 (Some (bytes_of_string name))
                    skip_bad false.

(** A flash of two eraseblocks of 4 bytes with pages of 2 bytes, where
    every write to the pages of the blocks in [bad_ebs] fails. *)
Definition tiny_mtd : Imagewrite.mtd_dev_info := Imagewrite.mk_mtd 4 2 8.

Definition failing_writes (bad_ebs : list Z) : Imagewrite.faults :=
  Imagewrite.mk_faults (fun _ => false) (fun _ => false) (fun _ => false)
                       (fun eb _ => existsb (Z.eqb eb) bad_ebs).

(** [imagewrite -b blocks /dev/mtd1 flash.img] *)
Definition raw_args (blocks : Z) : Imagewrite.args :=
  Imagewrite.mk_args 0 0 blocks 0 0 0 false false false 1 None "/dev/mtd1"
                     (Some "flash.img"%string).

Definition tiny_env (payload : list Z) (bad_ebs : list Z) : Imagewrite.env :=
  Imagewrite.mk_env (Some tiny_mtd) (Some payload) [] 1
                    (failing_writes bad_ebs).

Definition tiny_flash : Imagewrite.nand :=
  Imagewrite.mk_nand (repeat 0 8) [] [].

Definition is_write_to (from_eb : Z) (c : Imagewrite.mtd_call) : bool :=
  match c with
  | Imagewrite.call_write eb _ _ _ => from_eb <=? eb
  | _ => false
  end.

(** ** The passes of [main] in closed form *)

(** The eraseblocks [s, s + 1, ..., s + n - 1]. *)
Definition ebs_from (s : Z) (n : nat) : list Z :=
  map (fun i => s + Z.of_nat i) (seq 0 n).

(** The main area after the erase of the blocks of [ebs] that are not
    bad. *)
Definition erase_good (hw : Imagewrite.faults) (mtd : Imagewrite.mtd_dev_info)
    (ebs : list Z) (cells : list Z) : list Z :=
  fold_left
    (fun cs eb =>
       if Imagewrite.bad_block hw eb then cs
       else memset (eb * Imagewrite.eb_size mtd) 255 (Imagewrite.eb_size mtd)
                   cs)
    ebs cells.

(** The requests of the erase pass for these blocks. *)
Definition erase_calls (hw : Imagewrite.faults) (ebs : list Z)
  : list Imagewrite.mtd_call :=
  flat_map
    (fun eb =>
       if Imagewrite.bad_block hw eb then [Imagewrite.call_is_bad eb]
       else [Imagewrite.call_is_bad eb; Imagewrite.call_erase eb])
    ebs.

(** A flash without bad blocks on which no request fails. *)
Definition fault_free (hw : Imagewrite.faults) : Prop :=
  forall eb,
    Imagewrite.bad_block hw eb = false /\
    Imagewrite.get_bad_fails hw eb = false /\
    Imagewrite.erase_fails hw eb = false /\
    forall p, Imagewrite.write_fails hw eb p = false.

(** The blocks that [n] calls of [eb_gen_data] give, up to the first call
    that fails, and the variables after the last call. *)
Fixpoint gen_blocks (crc : Z -> list Z -> Z) (a : Imagewrite.args)
    (mtd : Imagewrite.mtd_dev_info) (rnd : Z) (n : nat)
    (st : Imagewrite.wstate) : list (list Z) * Imagewrite.wstate :=
  match n with
  | O => ([], st)
  | S n' =>
      let '(data_len, buf, st') := Imagewrite.eb_gen_data crc a mtd rnd st in
      if data_len <? 0 then ([], st')
      else
        let '(bufs, st'') := gen_blocks crc a mtd rnd n' st' in
        (buf :: bufs, st'')
  end.

(** ** The blocks of a UBI run in closed form *)

(** The bytes of the payload that are read before block [i] is generated:
    the blocks from the third on take a LEB each, while there is payload. *)
Definition ubi_used (leb plen i : Z) : Z :=
  Z.min plen (Z.max 0 (i - 2) * leb).

(** The variables of the generator before block [i], for an input
    descriptor that holds [src] at the start and [data_left = total]. *)
Definition ubi_state (rnd total : Z) (src : list Z) (leb plen i : Z)
  : Imagewrite.wstate :=
  Imagewrite.mk_wstate i (if i =? 0 then 0 else u32 rnd)
    (Imagewrite.fd_open (skipn (Z.to_nat (ubi_used leb plen i)) src))
    (total - ubi_used leb plen i).

Definition leb_size_of (mtd : Imagewrite.mtd_dev_info) : Z :=
  Imagewrite.eb_size mtd - 2 * Imagewrite.min_io_size mtd.

(** Block [i] of the run. *)
Definition ubi_block (crc : Z -> list Z -> Z) (a : Imagewrite.args)
    (mtd : Imagewrite.mtd_dev_info) (rnd total : Z) (src : list Z)
    (plen i : Z) : list Z :=
  snd (fst (Imagewrite.eb_gen_data crc a mtd rnd
              (ubi_state rnd total src (leb_size_of mtd) plen i))).

(** The input is either bounded by [data_left] and long enough, or it is
    standard input without a length, read to its end. *)
Definition source_ok (a : Imagewrite.args) (total : Z) (src : list Z)
    (leb plen : Z) : Prop :=
  (total = plen /\ plen <= Zlen src) \/
  ((Imagewrite.std_in a && (Imagewrite.length a =? 0)) = true /\
   plen = Zlen src /\ plen + leb <= total).

(** LEB [k] of the payload, filled up with [0xFF]. *)
Definition leb_chunk (leb : Z) (payload : list Z) (k : Z) : list Z :=
  let chunk := firstn (Z.to_nat leb) (skipn (Z.to_nat (k * leb)) payload) in
  chunk ++ repeat 255 (Z.to_nat (leb - Zlen chunk)).

(** The payload cut into LEBs, each filled up with [0xFF]. *)
Fixpoint lebs_of (leb : Z) (n : nat) (payload : list Z) : list Z :=
  match n with
  | O => []
  | S n' =>
      let chunk := firstn (Z.to_nat leb) payload in
      chunk ++ repeat 255 (Z.to_nat (leb - Zlen chunk))
      ++ lebs_of leb n' (skipn (Z.to_nat leb) payload)
  end.

(** The image of a UBI run over [n] eraseblocks. *)
Definition ubi_image (crc : Z -> list Z -> Z) (a : Imagewrite.args)
    (mtd : Imagewrite.mtd_dev_info) (rnd total : Z) (src : list Z)
    (plen : Z) (n : nat) : list Z :=
  List.concat (map (ubi_block crc a mtd rnd total src plen) (ebs_from 0 n)).

(** The LEBs of the volume that the extractor has written when it comes to
    eraseblock [i]. *)
Definition lebs_before (v i : Z) : nat := Z.to_nat (Z.min v (Z.max 0 (i - 2))).

(** ** A raw run in closed form *)

(** The variables of the generator before block [i] of a raw image. *)
Definition raw_state (total : Z) (src : list Z) (ebs plen i : Z)
  : Imagewrite.wstate :=
  Imagewrite.mk_wstate i 0
    (Imagewrite.fd_open (skipn (Z.to_nat (Z.min plen (i * ebs))) src))
    (total - Z.min plen (i * ebs)).

(** ** [eb_write] when a page write fails *)

(** The device after the write of page [p] failed, the pages [pages]
    before it having been written: the block is erased again, and marked
    bad when [data_len] is a multiple of the size of an eraseblock. *)
Definition write_failed (a : Imagewrite.args) (mtd : Imagewrite.mtd_dev_info)
    (hw : Imagewrite.faults) (eb_addr data_len : Z) (data : list Z)
    (pages : list Z) (p : Z) (dev : Imagewrite.nand) : Imagewrite.nand :=
  let eb := eb_addr / Imagewrite.eb_size mtd in
  let dev1 :=
    Imagewrite.mk_nand
      (program_pages mtd eb data pages (Imagewrite.cells dev))
      (Imagewrite.marked_bad dev)
      (Imagewrite.calls dev
       ++ map (page_write_call a mtd eb data) (pages ++ [p])) in
  let dev2 := snd (Imagewrite.eb_erase mtd hw eb_addr dev1) in
  if data_len mod Imagewrite.eb_size mtd =? 0
  then snd (Imagewrite.mtd_mark_bad dev2 eb)
  else dev2.

(** ** The payload of a run *)

(** The bytes a run has to write, for an input descriptor that holds [src]
    and an image of [image_size] bytes: the first [image_size] bytes, or
    all of them when the size is not known. *)
Definition payload_of (src : list Z) (image_size : Z) : list Z :=
  if image_size =? 0 then src else firstn (Z.to_nat image_size) src.

(** [data_left] when the write pass starts. *)
Definition data_left_of (image_size : Z) : Z :=
  if image_size =? 0 then ulong (-1) else image_size.

(** ** More runs to evaluate *)

(** The small flash, erased. *)
Definition erased_tiny_flash : Imagewrite.nand :=
  Imagewrite.mk_nand (repeat 255 8) [] [].

(** [imagewrite /dev/mtd1]: no input, the window is erased. *)
Definition erase_args : Imagewrite.args :=
  Imagewrite.mk_args 0 0 0 0 0 0 false false false 1 None "/dev/mtd1" None.

(** [deubinize -o out.img -p 22144 -i 0 ubi.img] *)
Definition extract_by_index : Deubinize.args :=
  Deubinize.mk_args "ubi.img" "out.img" 22144 0 None false false.

(** The first block of the image of [rootfs]. *)
Definition first_block : list Z :=
  snd (fst (Imagewrite.eb_gen_data crc32 (ubi_args 0 "rootfs") small_mtd 12345
              (Imagewrite.mk_wstate 0 0 (Imagewrite.fd_open [1; 2; 3]) 3))).

(** * Properties *)

(** ** Machine integers *)

Lemma ulong_small (x : Z) : 0 <= x < 2 ^ 64 -> ulong x = x.
Proof. intros H. unfold ulong. now apply Z.mod_small. Qed.

Lemma u32_small (x : Z) : 0 <= x < 2 ^ 32 -> u32 x = x.
Proof. intros H. unfold u32. now apply Z.mod_small. Qed.

Lemma u32_range (x : Z) : 0 <= u32 x < 2 ^ 32.
Proof. unfold u32. apply Z.mod_pos_bound. lia. Qed.

Lemma ulong_range (x : Z) : 0 <= ulong x < 2 ^ 64.
Proof. unfold ulong. apply Z.mod_pos_bound. lia. Qed.

Lemma to_long_small (x : Z) : 0 <= x < 2 ^ 63 -> to_long x = x.
Proof.
  intros H. unfold to_long. rewrite ulong_small by lia.
  destruct (Z.ltb_spec x (2 ^ 63)); lia.
Qed.

Lemma to_long_signed (x : Z) : - 2 ^ 63 <= x < 2 ^ 63 -> to_long x = x.
Proof.
  intros H. unfold to_long, ulong.
  destruct (Z.lt_ge_cases x 0) as [N | N].
  - assert (E : x mod 2 ^ 64 = x + 2 ^ 64).
    { symmetry. apply Z.mod_unique with (q := -1); lia. }
    rewrite E. destruct (Z.ltb_spec (x + 2 ^ 64) (2 ^ 63)); lia.
  - rewrite Z.mod_small by lia.
    destruct (Z.ltb_spec x (2 ^ 63)); lia.
Qed.

Lemma to_long_neg_pattern (k : Z) :
  0 < k <= 2 ^ 63 -> to_long (2 ^ 64 - k) = - k.
Proof.
  intros H. unfold to_long. rewrite ulong_small by lia.
  destruct (Z.ltb_spec (2 ^ 64 - k) (2 ^ 63)); lia.
Qed.

(** ** Byte order *)

Lemma byte_of_shift (x n : Z) :
  0 <= n -> Z.land (Z.shiftr x n) 255 = (x / 2 ^ n) mod 2 ^ 8.
Proof.
  intros Hn. change 255 with (Z.ones 8).
  rewrite Z.land_ones by lia. now rewrite Z.shiftr_div_pow2 by lia.
Qed.

Lemma lor_high_low (hi lo n : Z) :
  0 <= n -> 0 <= lo < 2 ^ n -> Z.lor (hi * 2 ^ n) lo = hi * 2 ^ n + lo.
Proof.
  intros Hn Hlo.
  assert (E : Z.land (hi * 2 ^ n) lo = 0).
  { apply Z.bits_inj'. intros k Hk. rewrite Z.land_spec, Z.bits_0.
    destruct (Z.lt_ge_cases k n).
    - rewrite Z.mul_pow2_bits_low by lia. reflexivity.
    - replace lo with (lo mod 2 ^ n) by (apply Z.mod_small; lia).
      rewrite Z.mod_pow2_bits_high by lia. apply andb_false_r. }
  pose proof (Z.add_lor_land (hi * 2 ^ n) lo) as A. lia.
Qed.

Lemma be32_to_cpu_bytes (a b c d : Z) :
  0 <= a < 256 -> 0 <= b < 256 -> 0 <= c < 256 -> 0 <= d < 256 ->
  be32_to_cpu [a; b; c; d] = ((a * 256 + b) * 256 + c) * 256 + d.
Proof.
  intros Ha Hb Hc Hd. unfold be32_to_cpu.
  rewrite !Z.shiftl_mul_pow2 by lia.
  rewrite (lor_high_low c d 8) by lia.
  rewrite (lor_high_low b _ 16) by lia.
  rewrite (lor_high_low a _ 24) by lia.
  lia.
Qed.

(** Decoding a big-endian field gives the 32 low bits of what was stored. *)
Lemma be32_roundtrip (x : Z) : be32_to_cpu (cpu_to_be32 x) = u32 x.
Proof.
  unfold cpu_to_be32.
  rewrite !byte_of_shift by lia.
  replace (Z.land x 255) with ((x / 2 ^ 0) mod 2 ^ 8)
    by (rewrite <- byte_of_shift by lia; now rewrite Z.shiftr_0_r).
  rewrite be32_to_cpu_bytes by (apply Z.mod_pos_bound; lia).
  unfold u32. change (2 ^ 0) with 1. rewrite Z.div_1_r.
  change (2 ^ 8) with 256. change (2 ^ 16) with (256 * 256).
  change (2 ^ 24) with (256 * 256 * 256).
  change (2 ^ 32) with (256 * (256 * (256 * 256))).
  rewrite <- !Z.div_div by lia.
  set (q1 := x / 256). set (q2 := q1 / 256). set (q3 := q2 / 256).
  rewrite (Z.rem_mul_r x 256) by lia. fold q1.
  rewrite (Z.rem_mul_r q1 256) by lia. fold q2.
  rewrite (Z.rem_mul_r q2 256) by lia. fold q3.
  lia.
Qed.

Lemma be32_roundtrip_small (x : Z) :
  0 <= x < 2 ^ 32 -> be32_to_cpu (cpu_to_be32 x) = x.
Proof. intros H. rewrite be32_roundtrip. now apply u32_small. Qed.

Lemma Zlen_cpu_to_be32 (x : Z) : Zlen (cpu_to_be32 x) = 4.
Proof. reflexivity. Qed.

Lemma Zlen_cpu_to_be16 (x : Z) : Zlen (cpu_to_be16 x) = 2.
Proof. reflexivity. Qed.

(** ** Byte buffers *)

Section BufferNat.

Context {A : Type}.
Implicit Types (b s : list A) (o n i : nat).

Lemma length_store_nat b : forall o s,
  List.length (store_nat o s b) = List.length b.
Proof.
  induction b as [|x b IH]; intros [|o] [|y s]; simpl; auto.
Qed.

Lemma nth_store_nat (d : A) b : forall o s i,
  nth i (store_nat o s b) d =
  if ((o <=? i) && (i <? o + List.length s) && (i <? List.length b))%nat
  then nth (i - o) s d else nth i b d.
Proof.
  induction b as [|x b IH]; intros o s i.
  - simpl. rewrite andb_false_r. reflexivity.
  - destruct o as [|o].
    + destruct s as [|y s].
      * simpl. reflexivity.
      * destruct i as [|i]; [reflexivity|].
        cbn [store_nat nth]. rewrite IH. cbn [List.length].
        change (S i - 0)%nat with (S i). rewrite Nat.sub_0_r.
        cbn [nth]. reflexivity.
    + destruct i as [|i]; [reflexivity|].
      cbn [store_nat nth]. rewrite IH. cbn [List.length].
      reflexivity.
Qed.

Lemma length_slice_nat o n b :
  List.length (slice_nat o n b) = Nat.min n (List.length b - o).
Proof. unfold slice_nat. now rewrite length_firstn, length_skipn. Qed.

Lemma nth_slice_nat (d : A) o n b i :
  nth i (slice_nat o n b) d = if (i <? n)%nat then nth (o + i) b d else d.
Proof. unfold slice_nat. now rewrite nth_firstn, nth_skipn. Qed.

End BufferNat.

(** Equations between buffers are settled position by position. *)
Ltac nat_cases :=
  repeat match goal with
  | |- context [(?x <=? ?y)%nat] => destruct (Nat.leb_spec x y)
  | |- context [(?x <? ?y)%nat] => destruct (Nat.ltb_spec x y)
  end; cbn [andb orb negb].

Ltac buf_ext d :=
  apply (nth_ext _ _ d d);
  [ repeat rewrite ?length_store_nat, ?length_slice_nat, ?repeat_length,
             ?length_app; try lia
  | let i := fresh "i" in let Hi := fresh "Hi" in
    intros i Hi;
    repeat rewrite ?length_store_nat, ?length_slice_nat, ?repeat_length,
             ?length_app in Hi;
    repeat rewrite ?nth_store_nat, ?nth_slice_nat, ?length_store_nat,
             ?length_slice_nat, ?repeat_length;
    nat_cases; try lia; try reflexivity; try (f_equal; lia) ].

Section BufferNatAlgebra.

Context {A : Type}.
Implicit Types (b s : list A) (o n i : nat).

Lemma slice_nat_store_nat_same b o s :
  (o + List.length s <= List.length b)%nat ->
  slice_nat o (List.length s) (store_nat o s b) = s.
Proof.
  intros H. destruct s as [|d s].
  - reflexivity.
  - buf_ext d.
Qed.

Lemma slice_nat_store_nat_disj b o s o' n :
  (o' + n <= o \/ o + List.length s <= o')%nat ->
  slice_nat o' n (store_nat o s b) = slice_nat o' n b.
Proof.
  intros H. destruct b as [|d b].
  - destruct o, s; reflexivity.
  - buf_ext d.
Qed.

Lemma slice_nat_store_nat_inside b o s o' n :
  (o + List.length s <= List.length b)%nat ->
  (o' + n <= List.length s)%nat ->
  slice_nat (o + o') n (store_nat o s b) = slice_nat o' n s.
Proof.
  intros H1 H2. destruct s as [|d s].
  - simpl in H2. assert (n = 0)%nat by lia. subst. reflexivity.
  - buf_ext d.
Qed.

Lemma slice_nat_slice_nat b o n o' n' :
  (o' + n' <= n)%nat ->
  slice_nat o' n' (slice_nat o n b) = slice_nat (o + o') n' b.
Proof.
  intros H. destruct b as [|d b].
  - unfold slice_nat. now rewrite !skipn_nil, !firstn_nil, skipn_nil, firstn_nil.
  - buf_ext d.
Qed.

Lemma slice_nat_all b : slice_nat 0 (List.length b) b = b.
Proof. unfold slice_nat. simpl. apply firstn_all. Qed.

Lemma store_nat_nil b o : store_nat o [] b = b.
Proof.
  revert o. induction b as [|x b IH]; intros [|o]; simpl; auto.
  now rewrite IH.
Qed.

Lemma store_nat_app b : forall o s1 s2,
  store_nat o (s1 ++ s2) b =
  store_nat (o + List.length s1) s2 (store_nat o s1 b).
Proof.
  induction b as [|x b IH]; intros o s1 s2.
  - reflexivity.
  - destruct o as [|o].
    + destruct s1 as [|y s1].
      * simpl. destruct s2; reflexivity.
      * cbn [app store_nat List.length Nat.add]. f_equal.
        rewrite IH. reflexivity.
    + cbn [store_nat Nat.add]. f_equal. apply IH.
Qed.

Lemma store_nat_slice_nat b o n :
  store_nat o (slice_nat o n b) b = b.
Proof.
  destruct b as [|d b]; [reflexivity|]. buf_ext d.
Qed.

Lemma store_nat_store_nat_same b o s s' :
  List.length s = List.length s' ->
  store_nat o s' (store_nat o s b) = store_nat o s' b.
Proof.
  intros H. destruct b as [|d b]; [reflexivity|]. buf_ext d.
Qed.

Lemma firstn_plus (l : list A) : forall n1 n2,
  firstn (n1 + n2) l = firstn n1 l ++ firstn n2 (skipn n1 l).
Proof.
  induction l as [|x l IH]; intros [|n1] n2; simpl;
    rewrite ?firstn_nil; auto.
  now rewrite IH.
Qed.

Lemma slice_nat_app_split b o n1 n2 :
  slice_nat o (n1 + n2) b = slice_nat o n1 b ++ slice_nat (o + n1) n2 b.
Proof.
  unfold slice_nat. rewrite (Nat.add_comm o n1), <- skipn_skipn.
  apply firstn_plus.
Qed.

End BufferNatAlgebra.

Section BufferZ.

Context {A : Type}.
Implicit Types (b s : list A) (o n : Z).

Lemma Zlen_nonneg b : 0 <= Zlen b.
Proof. unfold Zlen. lia. Qed.

Lemma Zlen_nil : Zlen (@nil A) = 0.
Proof. reflexivity. Qed.

Lemma Zlen_cons (x : A) b : Zlen (x :: b) = 1 + Zlen b.
Proof. unfold Zlen. cbn [List.length]. lia. Qed.

Lemma Zlen_app b1 b2 : Zlen (b1 ++ b2) = Zlen b1 + Zlen b2.
Proof. unfold Zlen. rewrite length_app. lia. Qed.

Lemma Zlen_repeat (x : A) n : 0 <= n -> Zlen (repeat x (Z.to_nat n)) = n.
Proof. intros H. unfold Zlen. rewrite repeat_length. lia. Qed.

Lemma Zlen_store o s b : Zlen (store o s b) = Zlen b.
Proof.
  unfold store, Zlen. destruct (o <? 0); [reflexivity|].
  now rewrite length_store_nat.
Qed.

Lemma Zlen_slice o n b :
  0 <= o -> 0 <= n -> o + n <= Zlen b -> Zlen (slice o n b) = n.
Proof.
  unfold slice, Zlen. intros Ho Hn H. rewrite length_slice_nat. lia.
Qed.

Lemma Zlen_slice_le o n b : 0 <= n -> Zlen (slice o n b) <= n.
Proof.
  unfold slice, Zlen. intros Hn. rewrite length_slice_nat. lia.
Qed.

Lemma Zlen_firstn n b :
  0 <= n <= Zlen b -> Zlen (firstn (Z.to_nat n) b) = n.
Proof. unfold Zlen. intros H. rewrite length_firstn. lia. Qed.

Lemma Zlen_skipn n b :
  0 <= n <= Zlen b -> Zlen (skipn (Z.to_nat n) b) = Zlen b - n.
Proof. unfold Zlen. intros H. rewrite length_skipn. lia. Qed.

Lemma slice_store_same o s b :
  0 <= o -> o + Zlen s <= Zlen b -> slice o (Zlen s) (store o s b) = s.
Proof.
  unfold slice, store, Zlen. intros Ho H.
  destruct (Z.ltb_spec o 0); [lia|].
  rewrite Nat2Z.id. apply slice_nat_store_nat_same. lia.
Qed.

Lemma slice_store_disj o s b o' n :
  0 <= o' -> 0 <= n -> o' + n <= o \/ o + Zlen s <= o' ->
  slice o' n (store o s b) = slice o' n b.
Proof.
  unfold slice, store, Zlen. intros Ho' Hn H.
  destruct (Z.ltb_spec o 0); [reflexivity|].
  apply slice_nat_store_nat_disj. lia.
Qed.

Lemma slice_store_inside o s b o' n :
  0 <= o -> 0 <= o' -> 0 <= n -> o + Zlen s <= Zlen b -> o' + n <= Zlen s ->
  slice (o + o') n (store o s b) = slice o' n s.
Proof.
  unfold slice, store, Zlen. intros Ho Ho' Hn H1 H2.
  destruct (Z.ltb_spec o 0); [lia|].
  rewrite Z2Nat.inj_add by lia.
  apply slice_nat_store_nat_inside; lia.
Qed.

Lemma slice_slice o n b o' n' :
  0 <= o -> 0 <= o' -> 0 <= n' -> o' + n' <= n ->
  slice o' n' (slice o n b) = slice (o + o') n' b.
Proof.
  unfold slice. intros Ho Ho' Hn' H.
  rewrite Z2Nat.inj_add by lia.
  apply slice_nat_slice_nat. lia.
Qed.

Lemma slice_all b : slice 0 (Zlen b) b = b.
Proof. unfold slice, Zlen. rewrite Nat2Z.id. apply slice_nat_all. Qed.

Lemma slice_whole b n : Zlen b = n -> slice 0 n b = b.
Proof. intros <-. apply slice_all. Qed.

Lemma slice_firstn n b : slice 0 n b = firstn (Z.to_nat n) b.
Proof. reflexivity. Qed.

Lemma store_nil o b : store o [] b = b.
Proof. unfold store. destruct (o <? 0); [reflexivity|apply store_nat_nil]. Qed.

Lemma store_app o s1 s2 b :
  0 <= o -> store o (s1 ++ s2) b = store (o + Zlen s1) s2 (store o s1 b).
Proof.
  unfold store, Zlen. intros Ho.
  destruct (Z.ltb_spec o 0); [lia|].
  destruct (Z.ltb_spec (o + Z.of_nat (List.length s1)) 0); [lia|].
  rewrite Z2Nat.inj_add, Nat2Z.id by lia. apply store_nat_app.
Qed.

Lemma store_slice o n b : store o (slice o n b) b = b.
Proof.
  unfold store, slice. destruct (o <? 0); [reflexivity|].
  apply store_nat_slice_nat.
Qed.

Lemma store_store_same o s s' b :
  Zlen s = Zlen s' -> store o s' (store o s b) = store o s' b.
Proof.
  unfold store, Zlen. intros H. destruct (o <? 0); [reflexivity|].
  apply store_nat_store_nat_same. lia.
Qed.

Lemma slice_app_split o n1 n2 b :
  0 <= o -> 0 <= n1 -> 0 <= n2 ->
  slice o (n1 + n2) b = slice o n1 b ++ slice (o + n1) n2 b.
Proof.
  unfold slice. intros Ho H1 H2.
  rewrite !Z2Nat.inj_add by lia. apply slice_nat_app_split.
Qed.

Lemma slice_repeat (x : A) o n m :
  0 <= o -> 0 <= n -> o + n <= m ->
  slice o n (repeat x (Z.to_nat m)) = repeat x (Z.to_nat n).
Proof.
  unfold slice. intros Ho Hn H.
  apply (nth_ext _ _ x x).
  - rewrite length_slice_nat, !repeat_length. lia.
  - intros i Hi. rewrite nth_slice_nat, !nth_repeat.
    now destruct (i <? Z.to_nat n)%nat.
Qed.

Lemma slice_app_left o n b1 b2 :
  0 <= o -> 0 <= n -> o + n <= Zlen b1 ->
  slice o n (b1 ++ b2) = slice o n b1.
Proof.
  unfold slice, slice_nat, Zlen. intros Ho Hn H.
  rewrite skipn_app, firstn_app, length_skipn.
  replace (Z.to_nat n - (List.length b1 - Z.to_nat o))%nat with O by lia.
  rewrite firstn_O. apply app_nil_r.
Qed.

Lemma slice_app_right o n b1 b2 :
  Zlen b1 <= o -> 0 <= n ->
  slice o n (b1 ++ b2) = slice (o - Zlen b1) n b2.
Proof.
  unfold slice, slice_nat, Zlen. intros Ho Hn.
  rewrite skipn_app. rewrite skipn_all2 by lia. cbn [app].
  do 2 f_equal. lia.
Qed.

Lemma slice_zero_len o b : slice o 0 b = [].
Proof. reflexivity. Qed.

End BufferZ.

Lemma Zlen_memset o c n b : Zlen (memset o c n b) = Zlen b.
Proof. apply Zlen_store. Qed.

(** Rewriting of the lengths; side conditions go to [lia]. *)
Ltac len_simpl :=
  repeat first
    [ rewrite Zlen_store
    | rewrite Zlen_memset
    | rewrite Zlen_cpu_to_be32
    | rewrite Zlen_cpu_to_be16
    | rewrite Zlen_app
    | rewrite Zlen_cons
    | rewrite Zlen_nil
    | rewrite Zlen_repeat by lia ].

Lemma slice_store_same' {A} (o n : Z) (s b : list A) :
  Zlen s = n -> 0 <= o -> o + n <= Zlen b -> slice o n (store o s b) = s.
Proof. intros <-. apply slice_store_same. Qed.

Lemma be16_roundtrip_small (x : Z) :
  0 <= x < 2 ^ 16 -> be16_to_cpu (cpu_to_be16 x) = x.
Proof.
  intros H. unfold cpu_to_be16, be16_to_cpu.
  rewrite byte_of_shift by lia.
  replace (Z.land x 255) with ((x / 2 ^ 0) mod 2 ^ 8)
    by (rewrite <- byte_of_shift by lia; now rewrite Z.shiftr_0_r).
  rewrite Z.shiftl_mul_pow2 by lia.
  rewrite lor_high_low by (try apply Z.mod_pos_bound; lia).
  change (2 ^ 0) with 1. rewrite Z.div_1_r.
  rewrite (Z.mod_small (x / 2 ^ 8)).
  - pose proof (Z.div_mod x (2 ^ 8)). lia.
  - split; [apply Z.div_pos; lia|].
    apply Z.div_lt_upper_bound; lia.
Qed.

Ltac unfold_media :=
  unfold UbiMedia.UBI_EC_HDR_SIZE_CRC, UbiMedia.UBI_VID_HDR_SIZE_CRC,
    UbiMedia.UBI_VTBL_RECORD_SIZE_CRC, UbiMedia.UBI_EC_HDR_SIZE,
    UbiMedia.UBI_VID_HDR_SIZE, UbiMedia.UBI_VTBL_RECORD_SIZE,
    UbiMedia.ec_magic, UbiMedia.ec_version, UbiMedia.ec_vid_hdr_offset,
    UbiMedia.ec_data_offset, UbiMedia.ec_image_seq, UbiMedia.ec_hdr_crc,
    UbiMedia.vid_magic, UbiMedia.vid_version, UbiMedia.vid_vol_type,
    UbiMedia.vid_copy_flag, UbiMedia.vid_compat, UbiMedia.vid_vol_id,
    UbiMedia.vid_lnum, UbiMedia.vid_hdr_crc, UbiMedia.vtbl_reserved_pebs,
    UbiMedia.vtbl_alignment, UbiMedia.vtbl_data_pad, UbiMedia.vtbl_vol_type,
    UbiMedia.vtbl_upd_marker, UbiMedia.vtbl_name_len, UbiMedia.vtbl_name,
    UbiMedia.vtbl_flags, UbiMedia.vtbl_crc, UbiMedia.UBI_VOL_NAME_MAX,
    UbiMedia.UBI_MAX_VOLUMES, UbiMedia.UBI_LAYOUT_VOLUME_EBS in *.

Ltac solve_len := solve [ reflexivity | len_simpl; lia ].

(** Reading a field back from a chain of stores: skip the stores that lie
    elsewhere, then take the one that wrote the field. *)
Ltac skip_store :=
  match goal with
  | |- context [slice ?o' ?n (store ?o ?s ?b)] =>
      rewrite (slice_store_disj o s b o' n) by solve_len
  end.

Ltac take_store :=
  match goal with
  | |- context [slice ?o ?n (store ?o ?s ?b)] =>
      rewrite (slice_store_same' o n s b) by solve_len
  end.

Ltac read_field := repeat skip_store; take_store.

Section Headers.

Variable crc : Z -> list Z -> Z.
Variable a : Imagewrite.args.
Variable mtd : Imagewrite.mtd_dev_info.

Lemma Zlen_ec_hdr (d s : Z) : Zlen (Imagewrite.ubi_ec_hdr_bytes crc mtd d s) = 64.
Proof. unfold Imagewrite.ubi_ec_hdr_bytes. unfold_media. solve_len. Qed.

Lemma Zlen_vid_hdr (t c v l : Z) :
  Zlen (Imagewrite.ubi_vid_hdr_bytes crc t c v l) = 64.
Proof. unfold Imagewrite.ubi_vid_hdr_bytes. unfold_media. solve_len. Qed.

Lemma Zlen_vtbl_record (i : Z) :
  Zlen (Imagewrite.ubi_vtbl_record_bytes crc a i) = 172.
Proof.
  unfold Imagewrite.ubi_vtbl_record_bytes. unfold_media.
  destruct (i =? Imagewrite.vol_id a); solve_len.
Qed.

Lemma ec_hdr_crc_ok (d s : Z) :
  crc_ok crc 64 (Imagewrite.ubi_ec_hdr_bytes crc mtd d s).
Proof.
  unfold crc_ok, get32, Imagewrite.ubi_ec_hdr_bytes. unfold_media.
  change (64 - 4) with 60.
  take_store. skip_store.
  rewrite be32_roundtrip. unfold u32. now rewrite Z.mod_mod by lia.
Qed.

Lemma vid_hdr_crc_ok (t c v l : Z) :
  crc_ok crc 64 (Imagewrite.ubi_vid_hdr_bytes crc t c v l).
Proof.
  unfold crc_ok, get32, Imagewrite.ubi_vid_hdr_bytes. unfold_media.
  change (64 - 4) with 60.
  take_store. skip_store.
  rewrite be32_roundtrip. unfold u32. now rewrite Z.mod_mod by lia.
Qed.

Lemma vtbl_record_crc_ok (i : Z) :
  crc_ok crc 172 (Imagewrite.ubi_vtbl_record_bytes crc a i).
Proof.
  unfold crc_ok, get32, Imagewrite.ubi_vtbl_record_bytes. unfold_media.
  change (172 - 4) with 168.
  destruct (i =? Imagewrite.vol_id a).
  - take_store. skip_store.
    rewrite be32_roundtrip. unfold u32. now rewrite Z.mod_mod by lia.
  - take_store. skip_store.
    rewrite be32_roundtrip. unfold u32. now rewrite Z.mod_mod by lia.
Qed.

(** The fields of the EC header. *)
Lemma ec_hdr_fields (d s : Z) :
  let h := Imagewrite.ubi_ec_hdr_bytes crc mtd d s in
  get32 UbiMedia.ec_magic h = UbiMedia.UBI_EC_HDR_MAGIC /\
  get8 UbiMedia.ec_version h = UbiMedia.UBI_VERSION /\
  get32 UbiMedia.ec_vid_hdr_offset h = u32 (Imagewrite.min_io_size mtd) /\
  get32 UbiMedia.ec_data_offset h = u32 d /\
  get32 UbiMedia.ec_image_seq h = u32 s.
Proof.
  unfold get32, get8, Imagewrite.ubi_ec_hdr_bytes. unfold_media. cbv zeta.
  repeat split; read_field; rewrite ?be32_roundtrip; reflexivity.
Qed.

(** The fields of the VID header. *)
Lemma vid_hdr_fields (t c v l : Z) :
  let h := Imagewrite.ubi_vid_hdr_bytes crc t c v l in
  get32 UbiMedia.vid_magic h = UbiMedia.UBI_VID_HDR_MAGIC /\
  get8 UbiMedia.vid_version h = UbiMedia.UBI_VERSION /\
  get8 UbiMedia.vid_vol_type h = t /\
  get8 UbiMedia.vid_compat h = c /\
  get32 UbiMedia.vid_vol_id h = u32 v /\
  get32 UbiMedia.vid_lnum h = u32 l.
Proof.
  unfold get32, get8, Imagewrite.ubi_vid_hdr_bytes. unfold_media. cbv zeta.
  repeat split; read_field; rewrite ?be32_roundtrip; reflexivity.
Qed.

End Headers.

(** ** [data_read] *)

Section DataRead.

Variable a : Imagewrite.args.

(** The reads that succeed: the input holds the bytes asked for, or it is
    standard input without a fixed length and ends early. *)
Lemma data_read_ok (rest : list Z) (n : Z) :
  0 <= n ->
  n <= Zlen rest \/
  (Imagewrite.std_in a && (Imagewrite.length a =? 0)) = true ->
  Imagewrite.data_read a (Imagewrite.fd_open rest) n
  = (Z.min n (Zlen rest), firstn (Z.to_nat n) rest,
     Imagewrite.fd_open (skipn (Z.to_nat n) rest)).
Proof.
  intros Hn Hcase. unfold Imagewrite.data_read.
  cbn [Imagewrite.data_read_loop].
  destruct (Z.eqb_spec n 0) as [-> | Hn0].
  { cbn [Z.to_nat firstn skipn]. rewrite Z.min_l by apply Zlen_nonneg.
    reflexivity. }
  cbn [Imagewrite.read].
  set (got := firstn (Z.to_nat n) rest).
  assert (Hgot : Zlen got = Z.min n (Zlen rest)).
  { unfold got, Zlen. rewrite length_firstn. lia. }
  destruct (Z.ltb_spec (Zlen got) 0) as [L | _];
    [pose proof (Zlen_nonneg got); lia|].
  destruct (Z.eqb_spec (Zlen got) 0) as [E0 | N0].
  - (* nothing was left *)
    assert (Zlen rest = 0) by lia.
    destruct Hcase as [Hc | Hc]; [lia|]. rewrite Hc.
    rewrite Z.min_r by lia.
    assert (G : got = []) by (destruct got; [reflexivity | rewrite Zlen_cons in E0; pose proof (Zlen_nonneg got); lia]).
    rewrite G. f_equal. f_equal. lia.
  - destruct (Z.to_nat n) as [|k] eqn:Ek; [lia|].
    cbn [Imagewrite.data_read_loop].
    destruct (Z.eqb_spec (n - Zlen got) 0) as [Full | Short].
    + cbn [app]. do 2 f_equal. lia.
    + cbn [Imagewrite.read].
      assert (Hsk : skipn (S k) rest = []).
      { apply skipn_all2. unfold Zlen in *. lia. }
      rewrite Hsk. rewrite firstn_nil, skipn_nil.
      change (Zlen (@nil Z)) with 0. cbn [Z.ltb Z.eqb Z.compare app].
      destruct Hcase as [Hc | Hc]; [lia|]. rewrite Hc.
      do 2 f_equal. lia.
Qed.

(** The reads that fail: there are bytes to read and no input, or an
    input that ends early. *)
Lemma data_read_fails (fd : Imagewrite.ifd_t) (n : Z) :
  0 < n ->
  match fd with
  | Imagewrite.no_fd => True
  | Imagewrite.fd_open rest =>
      Zlen rest < n /\
      (Imagewrite.std_in a && (Imagewrite.length a =? 0)) = false
  end ->
  fst (fst (Imagewrite.data_read a fd n)) = -1.
Proof.
  intros Hn Hfd. unfold Imagewrite.data_read.
  cbn [Imagewrite.data_read_loop].
  destruct (Z.eqb_spec n 0) as [-> | _]; [lia|].
  destruct fd as [|rest]; [reflexivity|].
  destruct Hfd as [Hshort Hmode].
  cbn [Imagewrite.read].
  set (got := firstn (Z.to_nat n) rest).
  assert (Hgot : Zlen got = Zlen rest).
  { unfold got, Zlen in *. rewrite length_firstn. lia. }
  destruct (Z.ltb_spec (Zlen got) 0) as [L | _];
    [pose proof (Zlen_nonneg got); lia|].
  destruct (Z.eqb_spec (Zlen got) 0) as [E0 | N0].
  - rewrite Hmode. reflexivity.
  - destruct (Z.to_nat n) as [|k] eqn:Ek; [lia|].
    cbn [Imagewrite.data_read_loop].
    destruct (Z.eqb_spec (n - Zlen got) 0) as [Full | Short]; [lia|].
    cbn [Imagewrite.read].
    assert (Hsk : skipn (S k) rest = []).
    { apply skipn_all2. unfold Zlen in *. lia. }
    rewrite Hsk. rewrite firstn_nil.
    change (Zlen (@nil Z)) with 0. cbn [Z.ltb Z.eqb Z.compare].
    rewrite Hmode. reflexivity.
Qed.

(** Nothing is read when nothing is asked for, whatever the descriptor. *)
Lemma data_read_zero (fd : Imagewrite.ifd_t) :
  Imagewrite.data_read a fd 0 = (0, [], fd).
Proof. reflexivity. Qed.

End DataRead.

(** ** The volume table *)

Lemma Zlen_strcpy_bytes (s : list Z) : Zlen (strcpy_bytes s) = strlen s + 1.
Proof.
  unfold strcpy_bytes, strlen. rewrite Zlen_app. unfold Zlen.
  rewrite length_firstn.
  assert (strlen_nat s <= List.length s)%nat.
  { induction s as [|c s IH]; simpl; [lia|]. destruct (c =? 0); simpl; lia. }
  cbn [List.length]. lia.
Qed.

Lemma strlen_nonneg (s : list Z) : 0 <= strlen s.
Proof. unfold strlen. lia. Qed.

Section VolumeTable.

Variable crc : Z -> list Z -> Z.
Variable a : Imagewrite.args.

(** The record of the slot of the volume. *)
Lemma vtbl_record_volume :
  strlen (Imagewrite.the_vol_name a) <= UbiMedia.UBI_VOL_NAME_MAX ->
  vtbl_record_is crc (u32 (Imagewrite.vol_lebs a)) (Imagewrite.the_vol_name a)
    (Imagewrite.ubi_vtbl_record_bytes crc a (Imagewrite.vol_id a)).
Proof.
  remember (Imagewrite.the_vol_name a) as name eqn:En. intros Hlen.
  pose proof (strlen_nonneg name) as Hpos.
  unfold vtbl_record_is. split; [|split; [|split; [|split; [|split]]]];
    try apply vtbl_record_crc_ok.
  all: unfold get32, get16, get8, Imagewrite.ubi_vtbl_record_bytes.
  all: rewrite Z.eqb_refl, <- En.
  all: pose proof (Zlen_strcpy_bytes name) as Hcpy.
  all: unfold_media.
  - read_field. apply be32_roundtrip.
  - read_field. reflexivity.
  - read_field. reflexivity.
  - read_field. apply be16_roundtrip_small. lia.
  - skip_store.
    replace (127 + 1) with ((strlen name + 1) + (127 - strlen name)) by lia.
    rewrite slice_app_split by lia.
    rewrite <- Hcpy at 1. rewrite slice_store_same by solve_len.
    repeat skip_store.
    rewrite slice_repeat by lia.
    unfold strcpy_bytes. rewrite <- app_assoc. f_equal.
    replace (strlen name + 1 + (127 - strlen name) - strlen name)
      with (1 + (127 - strlen name)) by lia.
    rewrite Z2Nat.inj_add by lia. reflexivity.
Qed.

(** The record of every other slot. *)
Lemma vtbl_record_other (i : Z) :
  i <> Imagewrite.vol_id a ->
  vtbl_record_is_empty crc (Imagewrite.ubi_vtbl_record_bytes crc a i).
Proof.
  intros Hi. split; [|apply vtbl_record_crc_ok].
  unfold Imagewrite.ubi_vtbl_record_bytes.
  destruct (Z.eqb_spec i (Imagewrite.vol_id a)); [contradiction|].
  unfold_media. change (172 - 4) with 168.
  skip_store. now rewrite slice_repeat by lia.
Qed.

(** The loop writes record [i + j] at [ofs + j * 172] and leaves the rest
    of the buffer alone. *)
Lemma fill_vtbl_spec (n : nat) : forall (i ofs : Z) (buf : list Z),
  0 <= ofs -> ofs + Z.of_nat n * 172 <= Zlen buf ->
  let '(e, b) := Imagewrite.fill_vtbl crc a n i ofs buf in
  e = ofs + Z.of_nat n * 172 /\
  Zlen b = Zlen buf /\
  (forall j, 0 <= j < Z.of_nat n ->
     slice (ofs + j * 172) 172 b
     = Imagewrite.ubi_vtbl_record_bytes crc a (i + j)) /\
  (forall o m, 0 <= o -> 0 <= m ->
     o + m <= ofs \/ ofs + Z.of_nat n * 172 <= o ->
     slice o m b = slice o m buf).
Proof.
  induction n as [|n IH]; intros i ofs buf Hofs Hfit.
  - cbn [Imagewrite.fill_vtbl]. repeat split; intros; lia.
  - cbn [Imagewrite.fill_vtbl]. unfold_media.
    set (buf1 := store ofs (Imagewrite.ubi_vtbl_record_bytes crc a i) buf).
    assert (L1 : Zlen buf1 = Zlen buf) by apply Zlen_store.
    specialize (IH (i + 1) (ofs + 172) buf1).
    destruct (Imagewrite.fill_vtbl crc a n (i + 1) (ofs + 172) buf1)
      as [e b].
    destruct IH as (He & Hb & Hrec & Hout); [lia | lia |].
    split; [lia|]. split; [lia|]. split.
    + intros j Hj. destruct (Z.eq_dec j 0) as [-> | Hj0].
      * rewrite Hout by lia. unfold buf1.
        replace (ofs + 0 * 172) with ofs by lia. rewrite Z.add_0_r.
        apply slice_store_same'; [apply Zlen_vtbl_record | lia | lia].
      * replace (ofs + j * 172) with (ofs + 172 + (j - 1) * 172) by lia.
        rewrite Hrec by lia. f_equal. lia.
    + intros o m Ho Hm Hdisj. rewrite Hout by lia. unfold buf1.
      apply slice_store_disj; try lia.
      rewrite Zlen_vtbl_record. lia.
Qed.

End VolumeTable.

(** ** [eb_gen_data] in UBI mode *)

Section UbiBlocks.

Variable crc : Z -> list Z -> Z.
Variable a : Imagewrite.args.
Variable mtd : Imagewrite.mtd_dev_info.

Let mio : Z := Imagewrite.min_io_size mtd.
Let ebs : Z := Imagewrite.eb_size mtd.

Hypothesis Hubi : Imagewrite.ubi a = true.
Hypothesis Hmio : 0 <= mio * 2 < 2 ^ 64.

Lemma eb_gen_data_layout (rnd : Z) (st : Imagewrite.wstate) :
  Imagewrite.blk_no st < 2 ->
  Imagewrite.eb_gen_data crc a mtd rnd st
  = (let '(e, b) :=
       Imagewrite.fill_vtbl crc a 128 0 (2 * mio)
         (with_vid crc mtd (layout_vid crc (Imagewrite.blk_no st)) rnd st) in
     (e, b,
      Imagewrite.mk_wstate (ulong (Imagewrite.blk_no st + 1)) (seq_of rnd st)
        (Imagewrite.ifd st) (Imagewrite.data_left st))).
Proof.
  intros Hblk. unfold Imagewrite.eb_gen_data. rewrite Hubi.
  fold mio ebs. rewrite (ulong_small (mio * 2)) by exact Hmio.
  replace (mio * 2) with (2 * mio) by lia.
  unfold UbiMedia.UBI_LAYOUT_VOLUME_EBS.
  destruct (Z.ltb_spec (Imagewrite.blk_no st) 2); [|lia].
  reflexivity.
Qed.

Lemma eb_gen_data_volume (rnd : Z) (st : Imagewrite.wstate) :
  2 <= Imagewrite.blk_no st < ulong (Imagewrite.vol_lebs a + 2) ->
  Imagewrite.eb_gen_data crc a mtd rnd st
  = (let i := ulong (ebs - 2 * mio) in
     let n := if Imagewrite.data_left st >? i then i
              else Imagewrite.data_left st in
     let '(r, got, fd') := Imagewrite.data_read a (Imagewrite.ifd st) n in
     let buf :=
       store (2 * mio) got
             (with_vid crc mtd (volume_vid crc a (Imagewrite.blk_no st)) rnd st) in
     if r <? 0 then
       (-1, buf,
        Imagewrite.mk_wstate (Imagewrite.blk_no st) (seq_of rnd st) fd'
          (Imagewrite.data_left st))
     else
       (r + 2 * mio, buf,
        Imagewrite.mk_wstate (ulong (Imagewrite.blk_no st + 1))
          (seq_of rnd st) fd' (ulong (Imagewrite.data_left st - r)))).
Proof.
  intros Hblk. unfold Imagewrite.eb_gen_data. rewrite Hubi.
  fold mio ebs. rewrite (ulong_small (mio * 2)) by exact Hmio.
  replace (mio * 2) with (2 * mio) by lia.
  unfold UbiMedia.UBI_LAYOUT_VOLUME_EBS.
  destruct (Z.ltb_spec (Imagewrite.blk_no st) 2); [lia|].
  destruct (Z.ltb_spec (Imagewrite.blk_no st)
                       (ulong (Imagewrite.vol_lebs a + 2))); [|lia].
  reflexivity.
Qed.

Lemma eb_gen_data_trailing (rnd : Z) (st : Imagewrite.wstate) :
  2 <= Imagewrite.blk_no st ->
  ulong (Imagewrite.vol_lebs a + 2) <= Imagewrite.blk_no st ->
  Imagewrite.eb_gen_data crc a mtd rnd st
  = (UbiMedia.UBI_EC_HDR_SIZE, ec_only crc mtd rnd st,
     Imagewrite.mk_wstate (ulong (Imagewrite.blk_no st + 1)) (seq_of rnd st)
       (Imagewrite.ifd st) (Imagewrite.data_left st)).
Proof.
  intros Hblk Hvol. unfold Imagewrite.eb_gen_data. rewrite Hubi.
  fold mio ebs. rewrite (ulong_small (mio * 2)) by exact Hmio.
  replace (mio * 2) with (2 * mio) by lia.
  unfold UbiMedia.UBI_LAYOUT_VOLUME_EBS.
  destruct (Z.ltb_spec (Imagewrite.blk_no st) 2); [lia|].
  destruct (Z.ltb_spec (Imagewrite.blk_no st)
                       (ulong (Imagewrite.vol_lebs a + 2))); [lia|].
  reflexivity.
Qed.

End UbiBlocks.

Section BlockFacts.

Variable crc : Z -> list Z -> Z.
Variable a : Imagewrite.args.
Variable mtd : Imagewrite.mtd_dev_info.

Let mio : Z := Imagewrite.min_io_size mtd.
Let ebs : Z := Imagewrite.eb_size mtd.

Hypothesis Hmio : 64 <= mio.
Hypothesis Hfit : 2 * mio + 128 * 172 <= ebs.

Lemma Zlen_ec_only rnd st : Zlen (ec_only crc mtd rnd st) = ebs.
Proof. unfold ec_only. fold ebs. len_simpl. reflexivity. Qed.

Lemma Zlen_with_vid v rnd st : Zlen (with_vid crc mtd v rnd st) = ebs.
Proof. unfold with_vid. rewrite Zlen_store. apply Zlen_ec_only. Qed.

Lemma ec_of_ec_only rnd st :
  slice 0 64 (ec_only crc mtd rnd st)
  = Imagewrite.ubi_ec_hdr_bytes crc mtd (2 * mio) (seq_of rnd st).
Proof.
  unfold ec_only. fold mio ebs.
  apply slice_store_same'; [apply Zlen_ec_hdr | lia |].
  len_simpl. lia.
Qed.

Lemma ec_of_with_vid v rnd st :
  slice 0 64 (with_vid crc mtd v rnd st)
  = Imagewrite.ubi_ec_hdr_bytes crc mtd (2 * mio) (seq_of rnd st).
Proof.
  unfold with_vid. fold mio. rewrite slice_store_disj by lia.
  apply ec_of_ec_only.
Qed.

Lemma vid_of_with_vid v rnd st :
  Zlen v = 64 -> slice mio 64 (with_vid crc mtd v rnd st) = v.
Proof.
  intros Hv. unfold with_vid. fold mio.
  apply slice_store_same'; [exact Hv | lia |].
  rewrite Zlen_ec_only. lia.
Qed.

(** Behind the EC header a block without VID header is erased flash. *)
Lemma rest_of_ec_only rnd st :
  slice 64 (ebs - 64) (ec_only crc mtd rnd st)
  = repeat 255 (Z.to_nat (ebs - 64)).
Proof.
  unfold ec_only. fold mio ebs.
  rewrite slice_store_disj by (rewrite ?Zlen_ec_hdr; lia).
  apply slice_repeat; lia.
Qed.

Lemma Zlen_layout_vid blk : Zlen (layout_vid crc blk) = 64.
Proof. unfold layout_vid. apply Zlen_vid_hdr. Qed.

Lemma Zlen_volume_vid blk : Zlen (volume_vid crc a blk) = 64.
Proof. unfold volume_vid. apply Zlen_vid_hdr. Qed.

Lemma vid_of_layout_block blk rnd st :
  slice mio 64 (with_vid crc mtd (layout_vid crc blk) rnd st)
  = layout_vid crc blk.
Proof. apply vid_of_with_vid. apply Zlen_layout_vid. Qed.

Lemma vid_of_volume_block blk rnd st :
  slice mio 64 (with_vid crc mtd (volume_vid crc a blk) rnd st)
  = volume_vid crc a blk.
Proof. apply vid_of_with_vid. apply Zlen_volume_vid. Qed.

End BlockFacts.

Section WriterCrc.

Variable crc : Z -> list Z -> Z.
Variable a : Imagewrite.args.
Variable mtd : Imagewrite.mtd_dev_info.

(** C3. Every header and every volume table record that [eb_gen_data]
    puts into a block in UBI mode carries, in its last field, the CRC-32
    with seed [UBI_CRC32_INIT] of its bytes before that field: the EC
    header of every block, the VID header of the blocks that have one
    ([blk_no < vol_lebs + 2]), and the 128 records of the blocks of the
    layout volume ([blk_no < 2]). *)
Theorem writer_crc_fields_check (rnd : Z) (st : Imagewrite.wstate) :
  Imagewrite.ubi a = true ->
  64 <= Imagewrite.min_io_size mtd ->
  2 * Imagewrite.min_io_size mtd + 128 * 172 <= Imagewrite.eb_size mtd ->
  Imagewrite.eb_size mtd < 2 ^ 63 ->
  let '(_, buf, _) := Imagewrite.eb_gen_data crc a mtd rnd st in
  crc_ok crc UbiMedia.UBI_EC_HDR_SIZE (slice 0 UbiMedia.UBI_EC_HDR_SIZE buf) /\
  (Imagewrite.blk_no st < ulong (Imagewrite.vol_lebs a + 2) \/
   Imagewrite.blk_no st < 2 ->
   crc_ok crc UbiMedia.UBI_VID_HDR_SIZE
          (slice (Imagewrite.min_io_size mtd) UbiMedia.UBI_VID_HDR_SIZE buf)) /\
  (Imagewrite.blk_no st < 2 ->
   forall i, 0 <= i < 128 ->
     crc_ok crc UbiMedia.UBI_VTBL_RECORD_SIZE
       (slice (2 * Imagewrite.min_io_size mtd
               + i * UbiMedia.UBI_VTBL_RECORD_SIZE)
              UbiMedia.UBI_VTBL_RECORD_SIZE buf)).
Proof.
  intros Hubi Hmio Hfit Hebs.
  assert (Hm2 : 0 <= Imagewrite.min_io_size mtd * 2 < 2 ^ 64) by lia.
  unfold_media.
  destruct (Z.lt_ge_cases (Imagewrite.blk_no st) 2) as [Hlay | Hnolay].
  - (* a block of the layout volume *)
    rewrite (eb_gen_data_layout crc a mtd Hubi Hm2) by exact Hlay.
    pose proof (fill_vtbl_spec crc a 128 0 (2 * Imagewrite.min_io_size mtd)
                  (with_vid crc mtd
                     (layout_vid crc (Imagewrite.blk_no st)) rnd st)) as F.
    rewrite Zlen_with_vid in F by lia.
    destruct (Imagewrite.fill_vtbl crc a 128 0 _ _) as [e b].
    destruct F as (_ & _ & Hrec & Hout); [lia | lia |].
    split; [|split].
    + rewrite Hout by lia. rewrite ec_of_with_vid by lia.
      apply ec_hdr_crc_ok.
    + intros _. rewrite Hout by lia.
      rewrite vid_of_layout_block by lia.
      unfold layout_vid. apply vid_hdr_crc_ok.
    + intros _ i Hi. rewrite Hrec by lia. apply vtbl_record_crc_ok.
  - destruct (Z.lt_ge_cases (Imagewrite.blk_no st)
                            (ulong (Imagewrite.vol_lebs a + 2)))
      as [Hvol | Htrail].
    + (* a block of the volume *)
      rewrite (eb_gen_data_volume crc a mtd Hubi Hm2) by lia.
      cbv zeta.
      destruct (Imagewrite.data_read a (Imagewrite.ifd st) _)
        as [[r got] fd'].
      assert (B : let buf :=
                    store (2 * Imagewrite.min_io_size mtd) got
                      (with_vid crc mtd
                         (volume_vid crc a (Imagewrite.blk_no st)) rnd st) in
                  crc_ok crc 64 (slice 0 64 buf) /\
                  crc_ok crc 64 (slice (Imagewrite.min_io_size mtd) 64 buf)).
      { cbv zeta. rewrite !slice_store_disj by lia.
        rewrite ec_of_with_vid by lia.
        rewrite vid_of_volume_block by lia.
        split; [apply ec_hdr_crc_ok | unfold volume_vid; apply vid_hdr_crc_ok]. }
      cbv zeta in B.
      destruct (r <? 0); (split; [apply B | split; [intros _; apply B |]]);
        intros; lia.
    + (* a block behind the volume *)
      rewrite (eb_gen_data_trailing crc a mtd Hubi Hm2) by lia.
      split; [|split].
      * rewrite ec_of_ec_only by lia. apply ec_hdr_crc_ok.
      * intros [H | H]; lia.
      * intros; lia.
Qed.

End WriterCrc.

Section WriterBlocks.

Variable crc : Z -> list Z -> Z.
Variable a : Imagewrite.args.
Variable mtd : Imagewrite.mtd_dev_info.

Lemma ec_hdr_is_generated (d s : Z) :
  0 <= Imagewrite.min_io_size mtd < 2 ^ 32 -> 0 <= d < 2 ^ 32 ->
  ec_hdr_is crc (Imagewrite.min_io_size mtd) d
            (Imagewrite.ubi_ec_hdr_bytes crc mtd d s).
Proof.
  intros Hm Hd. destruct (ec_hdr_fields crc mtd d s) as (M & V & O & D & _).
  unfold ec_hdr_is. rewrite M, V, O, D, !u32_small by lia.
  repeat split. apply ec_hdr_crc_ok.
Qed.

Lemma vid_hdr_is_generated (t c v l : Z) :
  0 <= v < 2 ^ 32 -> 0 <= l < 2 ^ 32 ->
  vid_hdr_is crc t v l (Imagewrite.ubi_vid_hdr_bytes crc t c v l) /\
  get8 UbiMedia.vid_compat (Imagewrite.ubi_vid_hdr_bytes crc t c v l) = c.
Proof.
  intros Hv Hl.
  destruct (vid_hdr_fields crc t c v l) as (M & V & T & C & I & L).
  unfold vid_hdr_is. rewrite M, V, T, I, L, !u32_small by lia.
  split; [|exact C]. repeat (split; [reflexivity|]). apply vid_hdr_crc_ok.
Qed.

(** C2. In UBI mode the block that [eb_gen_data] generates is decided by
    the counter [blk_no]. Every block starts with the EC header. For
    [blk_no < 2] it has the VID header of the layout volume with
    [lnum = blk_no] and, at [data_offset], the 128 records of the volume
    table, where the record of slot [vol_id] gives [vol_lebs], alignment 1,
    the dynamic type and the name, every other record is zero, and every
    record has its CRC; [data_len] is [data_offset + 128 * 172]. For
    [2 <= blk_no < 2 + vol_lebs] it has a dynamic VID header of volume
    [vol_id] with [lnum = blk_no - 2] and at [data_offset] the bytes read
    from the input, a LEB at most; [data_len] is [data_offset] plus their
    number. For [blk_no >= 2 + vol_lebs] it has the EC header and nothing
    else, and [data_len] is the size of the EC header. *)
Theorem eb_gen_data_by_blk_no (rnd : Z) (st : Imagewrite.wstate) :
  Imagewrite.ubi a = true ->
  64 <= Imagewrite.min_io_size mtd ->
  2 * Imagewrite.min_io_size mtd + 128 * 172 <= Imagewrite.eb_size mtd ->
  Imagewrite.eb_size mtd < 2 ^ 32 ->
  strlen (Imagewrite.the_vol_name a) <= UbiMedia.UBI_VOL_NAME_MAX ->
  0 <= Imagewrite.vol_id a < 2 ^ 32 ->
  0 <= Imagewrite.vol_lebs a < 2 ^ 32 ->
  0 <= Imagewrite.blk_no st < 2 ^ 32 ->
  0 <= Imagewrite.data_left st ->
  let '(data_len, buf, _) := Imagewrite.eb_gen_data crc a mtd rnd st in
  ec_hdr_is crc (Imagewrite.min_io_size mtd) (2 * Imagewrite.min_io_size mtd)
            (slice 0 UbiMedia.UBI_EC_HDR_SIZE buf) /\
  (Imagewrite.blk_no st < 2 ->
   layout_block crc a mtd (Imagewrite.blk_no st) data_len buf) /\
  (2 <= Imagewrite.blk_no st < 2 + Imagewrite.vol_lebs a ->
   forall rest, Imagewrite.ifd st = Imagewrite.fd_open rest ->
     let n := Z.min (Imagewrite.data_left st)
                    (Imagewrite.eb_size mtd - 2 * Imagewrite.min_io_size mtd)
     in
     n <= Zlen rest \/
     (Imagewrite.std_in a && (Imagewrite.length a =? 0)) = true ->
     data_block crc a mtd (Imagewrite.blk_no st) (firstn (Z.to_nat n) rest)
                data_len buf) /\
  (2 + Imagewrite.vol_lebs a <= Imagewrite.blk_no st ->
   trailing_block mtd data_len buf).
Proof.
  intros Hubi Hmio Hfit Hebs Hname Hvid Hvol Hblk Hleft.
  assert (Hm2 : 0 <= Imagewrite.min_io_size mtd * 2 < 2 ^ 64) by lia.
  assert (Hv2 : ulong (Imagewrite.vol_lebs a + 2) = Imagewrite.vol_lebs a + 2)
    by (apply ulong_small; lia).
  unfold layout_block, data_block, trailing_block. unfold_media.
  destruct (Z.lt_ge_cases (Imagewrite.blk_no st) 2) as [Hlay | Hnolay].
  - (* a block of the layout volume *)
    rewrite (eb_gen_data_layout crc a mtd Hubi Hm2) by exact Hlay.
    pose proof (fill_vtbl_spec crc a 128 0 (2 * Imagewrite.min_io_size mtd)
                  (with_vid crc mtd
                     (layout_vid crc (Imagewrite.blk_no st)) rnd st)) as F.
    rewrite Zlen_with_vid in F by lia.
    destruct (Imagewrite.fill_vtbl crc a 128 0 _ _) as [e b].
    destruct F as (He & _ & Hrec & Hout); [lia | lia |].
    split; [|split; [|split]]; try (intros; lia).
    + rewrite Hout by lia. rewrite ec_of_with_vid by lia.
      apply ec_hdr_is_generated; lia.
    + intros _. rewrite Hout by lia.
      rewrite vid_of_layout_block by lia.
      unfold layout_vid.
      destruct (vid_hdr_is_generated UbiMedia.UBI_LAYOUT_VOLUME_TYPE
                  UbiMedia.UBI_LAYOUT_VOLUME_COMPAT
                  UbiMedia.UBI_LAYOUT_VOLUME_ID (Imagewrite.blk_no st))
        as [V C]; [vm_compute; split; congruence | lia |].
      split; [exact V|]. split; [exact C|]. split; [|lia].
      intros i Hi. cbv zeta. rewrite Hrec by lia. rewrite Z.add_0_l.
      destruct (Z.eqb_spec i (Imagewrite.vol_id a)) as [-> | Hne].
      * rewrite <- (u32_small (Imagewrite.vol_lebs a)) at 1 by lia.
        apply vtbl_record_volume. exact Hname.
      * apply vtbl_record_other. exact Hne.
  - destruct (Z.lt_ge_cases (Imagewrite.blk_no st)
                            (2 + Imagewrite.vol_lebs a)) as [Hv | Htrail].
    + (* a block of the volume *)
      rewrite (eb_gen_data_volume crc a mtd Hubi Hm2) by lia.
      cbv zeta.
      rewrite (ulong_small (Imagewrite.eb_size mtd
                            - 2 * Imagewrite.min_io_size mtd)) by lia.
      set (n := if Imagewrite.data_left st
                   >? Imagewrite.eb_size mtd - 2 * Imagewrite.min_io_size mtd
                then Imagewrite.eb_size mtd - 2 * Imagewrite.min_io_size mtd
                else Imagewrite.data_left st).
      assert (En : n = Z.min (Imagewrite.data_left st)
                         (Imagewrite.eb_size mtd
                          - 2 * Imagewrite.min_io_size mtd)).
      { unfold n. destruct (Z.gtb_spec (Imagewrite.data_left st)
          (Imagewrite.eb_size mtd - 2 * Imagewrite.min_io_size mtd)); lia. }
      destruct (Imagewrite.data_read a (Imagewrite.ifd st) n)
        as [[r got] fd'] eqn:Eread.
      assert (Hec : forall g,
                ec_hdr_is crc (Imagewrite.min_io_size mtd)
                  (2 * Imagewrite.min_io_size mtd)
                  (slice 0 64
                     (store (2 * Imagewrite.min_io_size mtd) g
                        (with_vid crc mtd
                           (volume_vid crc a (Imagewrite.blk_no st)) rnd st)))).
      { intros g. rewrite slice_store_disj by lia.
        rewrite ec_of_with_vid by lia. apply ec_hdr_is_generated; lia. }
      assert (Hdata : forall rest,
                Imagewrite.ifd st = Imagewrite.fd_open rest ->
                n <= Zlen rest \/
                (Imagewrite.std_in a && (Imagewrite.length a =? 0)) = true ->
                r = Zlen (firstn (Z.to_nat n) rest) /\
                got = firstn (Z.to_nat n) rest /\ 0 <= r <= n).
      { intros rest Hfd Hcase. rewrite Hfd in Eread.
        rewrite data_read_ok in Eread by (try exact Hcase; lia).
        injection Eread as <- <- <-.
        unfold Zlen. rewrite length_firstn.
        pose proof (Zlen_nonneg rest). unfold Zlen in *. repeat split; lia. }
      destruct (Z.ltb_spec r 0) as [Hneg | Hpos].
      * split; [apply Hec|]. split; [intros; lia|]. split; [|intros; lia].
        intros _ rest Hfd Hcase. cbv zeta in Hcase. rewrite <- En in Hcase.
        destruct (Hdata rest Hfd Hcase) as (_ & _ & Hr). lia.
      * split; [apply Hec|]. split; [intros; lia|]. split; [|intros; lia].
        intros _ rest Hfd Hcase. cbv zeta in Hcase. rewrite <- En in *.
        destruct (Hdata rest Hfd Hcase) as (Hr & Hgot & Hrn).
        rewrite <- Hgot in Hr |- *. rewrite <- Hr.
        assert (Hlen : Zlen got = r) by (symmetry; exact Hr).
        split; [|split; [lia|split; [|lia]]].
        -- rewrite slice_store_disj by lia.
           rewrite vid_of_volume_block by lia.
           unfold volume_vid.
           rewrite (ulong_small (Imagewrite.blk_no st - 2)) by lia.
           apply vid_hdr_is_generated; lia.
        -- apply slice_store_same'; [exact Hlen | lia |].
           rewrite Zlen_with_vid by lia. lia.
    + (* a block behind the volume *)
      rewrite (eb_gen_data_trailing crc a mtd Hubi Hm2) by lia.
      split; [|split; [|split]]; try (intros; lia).
      * rewrite ec_of_ec_only by lia. apply ec_hdr_is_generated; lia.
      * intros _. split; [reflexivity|]. apply rest_of_ec_only; lia.
Qed.

End WriterBlocks.

(** ** [eb_write] *)

Lemma existsb_not_ff (page : list Z) :
  existsb (fun b => negb (b =? 255)) page = negb (is_erased_page page).
Proof.
  unfold is_erased_page. induction page as [|b page IH]; [reflexivity|].
  cbn [existsb forallb]. rewrite IH. now destruct (b =? 255).
Qed.

Lemma nand_eta (dev : Imagewrite.nand) :
  Imagewrite.mk_nand (Imagewrite.cells dev) (Imagewrite.marked_bad dev)
                     (Imagewrite.calls dev) = dev.
Proof. now destruct dev. Qed.

Lemma page_addrs_from_S (mtd : Imagewrite.mtd_dev_info) (j : Z) (k : nat) :
  page_addrs_from mtd j (S k)
  = j * Imagewrite.min_io_size mtd :: page_addrs_from mtd (j + 1) k.
Proof.
  unfold page_addrs_from. cbn [seq map]. f_equal; [f_equal; lia|].
  rewrite <- seq_shift, map_map. apply map_ext. intros i. f_equal. lia.
Qed.

Lemma program_pages_cons (mtd : Imagewrite.mtd_dev_info) (eb : Z)
    (data : list Z) (p : Z) (ps cs : list Z) :
  program_pages mtd eb data (p :: ps) cs
  = program_pages mtd eb data ps
      (if is_erased_page (page_of mtd data p) then cs
       else store (eb * Imagewrite.eb_size mtd + p) (page_of mtd data p) cs).
Proof. reflexivity. Qed.

Lemma page_count_bounds (mio data_len : Z) :
  0 < mio -> 0 <= data_len ->
  let q := (data_len + mio - 1) / mio in
  (q - 1) * mio < data_len <= q * mio /\ 0 <= q.
Proof.
  intros Hmio Hlen. cbv zeta.
  pose proof (Z.div_mod (data_len + mio - 1) mio ltac:(lia)) as D.
  pose proof (Z.mod_pos_bound (data_len + mio - 1) mio Hmio) as M.
  assert (0 <= (data_len + mio - 1) / mio) by (apply Z.div_pos; lia).
  nia.
Qed.

Section EbWrite.

Variable a : Imagewrite.args.
Variable mtd : Imagewrite.mtd_dev_info.
Variable hw : Imagewrite.faults.

Let mio : Z := Imagewrite.min_io_size mtd.
Let ebs : Z := Imagewrite.eb_size mtd.

Variable eb_addr data_len : Z.
Variable data : list Z.

Let eb : Z := eb_addr / ebs.

Hypothesis Hmio : 0 < mio.
Hypothesis Hlen : 0 <= data_len.
Hypothesis Hwrap : data_len + mio < 2 ^ 64.
Hypothesis Hgood : forall p, Imagewrite.write_fails hw eb p = false.

(** The loop from page [j] on, when [k] pages are left. *)
Lemma eb_write_loop_pages (k : nat) : forall (j : Z) (fuel : nat) dev,
  0 <= j ->
  j + Z.of_nat k = page_count a mtd data_len ->
  (k < fuel)%nat ->
  Imagewrite.eb_write_loop mtd hw fuel eb_addr data_len data (j * mio)
    (Imagewrite.clm a && (j =? 0)) dev
  = (0, Imagewrite.mk_nand
          (program_pages mtd eb data (page_addrs_from mtd j k)
                         (Imagewrite.cells dev))
          (Imagewrite.marked_bad dev)
          (Imagewrite.calls dev
           ++ map (page_write_call a mtd eb data) (page_addrs_from mtd j k))).
Proof.
  pose proof (page_count_bounds mio data_len Hmio Hlen) as (B & Q).
  cbv zeta in B.
  induction k as [|k IH]; intros j fuel dev Hj Hjk Hfuel.
  - (* behind the last page *)
    destruct fuel as [|fuel]; [lia|]. cbn [Imagewrite.eb_write_loop].
    pose proof Hjk as Hpc. unfold page_count in Hpc. fold mio in Hpc.
    assert (C : (j * mio <? data_len) || (Imagewrite.clm a && (j =? 0))
                = false).
    { apply orb_false_iff. split.
      - apply Z.ltb_ge. destruct (Imagewrite.clm a); nia.
      - destruct (Imagewrite.clm a); [|reflexivity].
        apply Z.eqb_neq. lia. }
    rewrite C. cbn [page_addrs_from seq map program_pages fold_left].
    rewrite app_nil_r, nand_eta. reflexivity.
  - destruct fuel as [|fuel]; [lia|]. cbn [Imagewrite.eb_write_loop].
    pose proof Hjk as Hpc. unfold page_count in Hpc. fold mio in Hpc.
    assert (C : (j * mio <? data_len) || (Imagewrite.clm a && (j =? 0))
                = true).
    { destruct (Z.ltb_spec (j * mio) data_len) as [|G]; [reflexivity|].
      assert (j = 0) by (destruct (Imagewrite.clm a); nia). subst j.
      destruct (Imagewrite.clm a); [reflexivity|]. nia. }
    rewrite C. fold mio.
    rewrite existsb_not_ff.
    unfold Imagewrite.mtd_write. cbn [Imagewrite.write_fails].
    fold ebs. fold eb.
    assert (G : Imagewrite.write_fails hw eb (j * mio) = false)
      by apply Hgood.
    cbn [Imagewrite.log Imagewrite.cells Imagewrite.marked_bad
         Imagewrite.calls].
    rewrite G.
    rewrite page_addrs_from_S. fold mio.
    assert (Enext : ulong (j * mio + mio) = (j + 1) * mio).
    { rewrite ulong_small by nia. ring. }
    assert (Eclm : false = Imagewrite.clm a && (j + 1 =? 0)).
    { destruct (Z.eqb_spec (j + 1) 0); [lia|]. now rewrite andb_false_r. }
    assert (Ecall :
      Imagewrite.call_write eb (j * mio)
        (if (if negb (is_erased_page (slice (j * mio) mio data))
             then mio else 0) =? 0
         then None else Some (slice (j * mio) mio data))
        (if Imagewrite.clm a && (j =? 0)
         then Some Imagewrite.clean_marker else None)
      = page_write_call a mtd eb data (j * mio)).
    { unfold page_write_call, page_of. fold mio.
      assert (Ej : (j * mio =? 0) = (j =? 0)).
      { destruct (Z.eqb_spec j 0) as [-> | N]; [reflexivity|].
        apply Z.eqb_neq. nia. }
      rewrite Ej.
      destruct (is_erased_page (slice (j * mio) mio data)); cbn [negb].
      - reflexivity.
      - destruct (Z.eqb_spec mio 0); [lia|]. reflexivity. }
    assert (Epage : page_of mtd data (j * mio) = slice (j * mio) mio data)
      by reflexivity.
    destruct (is_erased_page (slice (j * mio) mio data)) eqn:Eff;
      cbn [negb] in *.
    + cbn [Z.eqb negb]. rewrite Enext, Eclm.
      rewrite IH by lia.
      rewrite program_pages_cons, Epage, Eff.
      unfold Imagewrite.log.
      cbn [Imagewrite.cells Imagewrite.marked_bad Imagewrite.calls map].
      rewrite <- Ecall, <- app_assoc. reflexivity.
    + destruct (Z.eqb_spec mio 0) as [|_]; [lia|].
      cbn [negb]. rewrite Enext, Eclm.
      rewrite IH by lia.
      rewrite program_pages_cons, Epage, Eff.
      unfold Imagewrite.log, Imagewrite.set_cells.
      cbn [Imagewrite.cells Imagewrite.marked_bad Imagewrite.calls map].
      rewrite <- Ecall, <- app_assoc. reflexivity.
Qed.

End EbWrite.

(** C5. When no page write fails, [eb_write] writes the pages at the
    offsets [0, min_io_size, 2 * min_io_size, ...] below [data_len], in
    this order and nothing else: the main area of a page is programmed if
    and only if one of its bytes differs from [0xFF] (else the data is
    absent from the request); with clean markers enabled the first page, and
    only the first, takes the 8 bytes of the clean marker in its OOB area,
    whatever its main area holds, also when [data_len] is 0; with
    [data_len = 0] and clean markers disabled nothing at all is written. *)
Theorem eb_write_page_loop (a : Imagewrite.args)
    (mtd : Imagewrite.mtd_dev_info) (hw : Imagewrite.faults)
    (eb_addr data_len : Z) (data : list Z) (dev : Imagewrite.nand) :
  0 < Imagewrite.min_io_size mtd ->
  0 <= data_len ->
  data_len + Imagewrite.min_io_size mtd < 2 ^ 64 ->
  (forall p,
     Imagewrite.write_fails hw (eb_addr / Imagewrite.eb_size mtd) p = false) ->
  let '(ret, dev') := Imagewrite.eb_write a mtd hw eb_addr data_len data dev in
  ret = 0 /\
  Imagewrite.calls dev'
  = Imagewrite.calls dev
    ++ map (page_write_call a mtd (eb_addr / Imagewrite.eb_size mtd) data)
           (page_addrs a mtd data_len) /\
  Imagewrite.cells dev'
  = program_pages mtd (eb_addr / Imagewrite.eb_size mtd) data
                  (page_addrs a mtd data_len) (Imagewrite.cells dev) /\
  (data_len = 0 -> Imagewrite.clm a = false -> dev' = dev).
Proof.
  intros Hmio Hlen Hwrap Hgood. unfold Imagewrite.eb_write.
  pose proof (page_count_bounds _ data_len Hmio Hlen) as (B & Q).
  cbv zeta in B.
  destruct ((data_len =? 0) && negb (Imagewrite.clm a)) eqn:E.
  - apply andb_true_iff in E. destruct E as [E0 Eclm].
    apply Z.eqb_eq in E0. apply negb_true_iff in Eclm.
    assert (P : page_addrs a mtd data_len = []).
    { unfold page_addrs, page_count. rewrite Eclm, E0.
      rewrite Z.add_0_l, Z.div_small by lia. reflexivity. }
    rewrite P. cbn [map program_pages fold_left]. rewrite app_nil_r.
    repeat split; reflexivity.
  - pose proof (eb_write_loop_pages a mtd hw eb_addr data_len data Hmio Hlen
                  Hwrap Hgood (Z.to_nat (page_count a mtd data_len)) 0
                  (Z.to_nat (data_len / Imagewrite.min_io_size mtd) + 2)
                  dev) as L.
    rewrite Z.mul_0_l, Z.eqb_refl, andb_true_r in L.
    assert (Hq : 0 <= page_count a mtd data_len
                 <= data_len / Imagewrite.min_io_size mtd + 1).
    { unfold page_count. split; [lia|].
      assert (0 <= data_len / Imagewrite.min_io_size mtd)
        by (apply Z.div_pos; lia).
      pose proof (Z.div_mod data_len (Imagewrite.min_io_size mtd)
                    ltac:(lia)).
      pose proof (Z.mod_pos_bound data_len (Imagewrite.min_io_size mtd)
                    Hmio).
      assert ((data_len + Imagewrite.min_io_size mtd - 1)
              / Imagewrite.min_io_size mtd
              < data_len / Imagewrite.min_io_size mtd + 2)
        by (apply Z.div_lt_upper_bound; [lia | nia]).
      destruct (Imagewrite.clm a); lia. }
    rewrite L by lia.
    cbn [Imagewrite.calls Imagewrite.cells]. fold (page_addrs a mtd data_len).
    repeat split.
    intros E0 Eclm. rewrite E0, Eclm in E. discriminate.
Qed.

(** ** [main] of the writer *)

Section WriterMain.

Variable crc : Z -> list Z -> Z.

(** Whatever ends the run before the erase pass leaves the flash alone. *)
Lemma main_prepare_fails (a : Imagewrite.args) (w : Imagewrite.env)
    (dev : Imagewrite.nand) (e : Imagewrite.exit_status) :
  Imagewrite.prepare a w = inl e -> Imagewrite.main crc a w dev = (e, dev).
Proof. intros H. unfold Imagewrite.main. now rewrite H. Qed.

(** No run ends well before the erase pass. *)
Lemma open_input_never_succeeds (a : Imagewrite.args) (w : Imagewrite.env) :
  Imagewrite.open_input a w <> inl Imagewrite.EXIT_SUCCESS.
Proof.
  unfold Imagewrite.open_input, Imagewrite.closeall_failed,
    Imagewrite.errmsg_die.
  destruct (Imagewrite.std_in a).
  - destruct (negb (Imagewrite.skip a =? 0)); discriminate.
  - destruct (Imagewrite.img_file a).
    + destruct (Imagewrite.img_data w); [|discriminate].
      destruct (ulong (Imagewrite.skip a + Imagewrite.length a) >? Zlen l);
        discriminate.
    + destruct (negb (Imagewrite.length a =? 0)
                || negb (Imagewrite.skip a =? 0)); discriminate.
Qed.

Lemma check_geometry_never_succeeds (a : Imagewrite.args)
    (mtd : Imagewrite.mtd_dev_info) (s e n : Z) :
  Imagewrite.check_geometry a mtd s e n <> inl Imagewrite.EXIT_SUCCESS.
Proof.
  unfold Imagewrite.check_geometry, Imagewrite.closeall_failed.
  destruct (Imagewrite.ubi a).
  - destruct (_ || _); [discriminate|].
    destruct (_ >? _); [discriminate|].
    destruct (Imagewrite.vol_name a); [|discriminate].
    destruct (_ >? _); discriminate.
  - destruct (_ >? _); discriminate.
Qed.

Lemma prepare_never_succeeds (a : Imagewrite.args) (w : Imagewrite.env) :
  Imagewrite.prepare a w <> inl Imagewrite.EXIT_SUCCESS.
Proof.
  unfold Imagewrite.prepare, Imagewrite.errmsg_die.
  destruct (_ && _); [discriminate|].
  destruct (_ && _); [discriminate|].
  destruct (Imagewrite.dev_info w) as [mtd|]; [|discriminate].
  destruct (_ >? _); [discriminate|].
  destruct (_ >? _); [discriminate|].
  pose proof (open_input_never_succeeds a w) as O.
  destruct (Imagewrite.open_input a w) as [e | [fd n]].
  - intros H. apply O. inversion H. reflexivity.
  - pose proof (check_geometry_never_succeeds a mtd
                  (Imagewrite.window_start a mtd)
                  (Imagewrite.window_end a mtd) n) as G.
    destruct (Imagewrite.check_geometry a mtd _ _ n) as [e | a'].
    + intros H. apply G. inversion H. reflexivity.
    + discriminate.
Qed.

Lemma tot_lebs_of_value (mtd : Imagewrite.mtd_dev_info) (s e : Z) :
  2 <= Imagewrite.eb_size mtd ->
  Imagewrite.tot_lebs_of mtd s e
  = ulong (e - s) / Imagewrite.eb_size mtd - 2 /\
  -2 <= Imagewrite.tot_lebs_of mtd s e < 2 ^ 63 - 2.
Proof.
  intros Hebs. unfold Imagewrite.tot_lebs_of.
  unfold UbiMedia.UBI_LAYOUT_VOLUME_EBS.
  pose proof (ulong_range (e - s)) as R.
  assert (Q : 0 <= ulong (e - s) / Imagewrite.eb_size mtd < 2 ^ 63).
  { split; [apply Z.div_pos; lia|].
    apply Z.div_lt_upper_bound; lia. }
  rewrite to_long_signed by lia. lia.
Qed.

(** C6. In UBI mode, with [tot_lebs] the eraseblocks of the window less
    the two of the layout volume, the number of LEBs of the volume is
    [tot_lebs - 20] when the argument is 0, [tot_lebs - k] when it is the
    negative value [-k], and the argument when it is positive. When that
    number is negative or greater than [tot_lebs], the run fails without a
    single request to the flash; and a run that passes the checks of
    [main] has the number within these bounds and goes on with it as
    [args.vol_lebs], all other arguments and the window as they were. *)
Theorem ubi_vol_lebs_resolved (a : Imagewrite.args) (w : Imagewrite.env)
    (dev : Imagewrite.nand) (mtd : Imagewrite.mtd_dev_info) :
  Imagewrite.ubi a = true ->
  Imagewrite.dev_info w = Some mtd ->
  2 <= Imagewrite.eb_size mtd ->
  0 <= Imagewrite.vol_lebs a < 2 ^ 64 ->
  let start_ := Imagewrite.window_start a mtd in
  let end_ := Imagewrite.window_end a mtd in
  let tot_lebs := Imagewrite.tot_lebs_of mtd start_ end_ in
  let vol_lebs := Imagewrite.resolve_vol_lebs tot_lebs (Imagewrite.vol_lebs a) in
  (start_ <= end_ ->
   tot_lebs = (end_ - start_) / Imagewrite.eb_size mtd
              - UbiMedia.UBI_LAYOUT_VOLUME_EBS) /\
  (Imagewrite.vol_lebs a = 0 -> vol_lebs = tot_lebs - 20) /\
  (forall k, 0 < k <= 2 ^ 63 -> Imagewrite.vol_lebs a = 2 ^ 64 - k ->
             - 2 ^ 63 <= tot_lebs - k -> vol_lebs = tot_lebs - k) /\
  (0 < Imagewrite.vol_lebs a < 2 ^ 63 -> vol_lebs = Imagewrite.vol_lebs a) /\
  (vol_lebs < 0 \/ tot_lebs < vol_lebs ->
   exists msgs,
     Imagewrite.main crc a w dev = (Imagewrite.EXIT_FAILURE msgs, dev) /\
     Imagewrite.calls (snd (Imagewrite.main crc a w dev))
     = Imagewrite.calls dev) /\
  (forall r, Imagewrite.prepare a w = inr r ->
     0 <= vol_lebs <= tot_lebs /\
     Imagewrite.vol_lebs (Imagewrite.r_args r) = vol_lebs /\
     Imagewrite.r_args r = Imagewrite.set_vol_lebs a vol_lebs /\
     Imagewrite.r_mtd r = mtd /\
     Imagewrite.r_start r = start_ /\ Imagewrite.r_end r = end_).
Proof.
  intros Hubi Hdev Hebs Harg. cbv zeta.
  set (start_ := Imagewrite.window_start a mtd).
  set (end_ := Imagewrite.window_end a mtd).
  destruct (tot_lebs_of_value mtd start_ end_ Hebs) as [Etot Rtot].
  set (tot := Imagewrite.tot_lebs_of mtd start_ end_) in *.
  split; [|split; [|split; [|split; [|split]]]].
  - intros Hse. rewrite Etot. unfold UbiMedia.UBI_LAYOUT_VOLUME_EBS.
    rewrite ulong_small; [reflexivity|].
    unfold start_, end_, Imagewrite.window_start, Imagewrite.window_end in *.
    destruct (Imagewrite.blocks a =? 0);
      match goal with
      | |- 0 <= ulong ?x - ulong ?y < _ =>
          pose proof (ulong_range x); pose proof (ulong_range y); lia
      end.
  - intros E0. unfold Imagewrite.resolve_vol_lebs. rewrite E0.
    change (to_long 0) with 0. cbn [Z.eqb]. apply to_long_signed. lia.
  - intros k Hk Ek Hno. unfold Imagewrite.resolve_vol_lebs. rewrite Ek.
    rewrite to_long_neg_pattern by lia.
    destruct (Z.eqb_spec (- k) 0); [lia|].
    destruct (Z.ltb_spec (- k) 0); [|lia].
    unfold to_long.
    assert (E : ulong (tot + (2 ^ 64 - k))
                = if tot - k <? 0 then tot - k + 2 ^ 64 else tot - k).
    { unfold ulong. destruct (Z.ltb_spec (tot - k) 0).
      - symmetry. apply Z.mod_unique with (q := 0); lia.
      - symmetry. apply Z.mod_unique with (q := 1); lia. }
    rewrite E. destruct (Z.ltb_spec (tot - k) 0).
    + destruct (Z.ltb_spec (tot - k + 2 ^ 64) (2 ^ 63)); lia.
    + destruct (Z.ltb_spec (tot - k) (2 ^ 63)); lia.
  - intros Hpos. unfold Imagewrite.resolve_vol_lebs.
    rewrite to_long_small by lia.
    destruct (Z.eqb_spec (Imagewrite.vol_lebs a) 0); [lia|].
    destruct (Z.ltb_spec (Imagewrite.vol_lebs a) 0); [lia|]. reflexivity.
  - intros Hout.
    assert (P : exists msgs,
               Imagewrite.prepare a w = inl (Imagewrite.EXIT_FAILURE msgs)).
    { unfold Imagewrite.prepare. rewrite Hdev. fold start_ end_.
      unfold Imagewrite.errmsg_die.
      repeat match goal with
             | |- context [if ?c then _ else _] =>
                 destruct c; [eexists; reflexivity|]
             end.
      destruct (Imagewrite.open_input a w) as [e | [fd image_size]] eqn:Eo.
      - unfold Imagewrite.open_input, Imagewrite.closeall_failed,
          Imagewrite.errmsg_die in Eo.
        repeat match type of Eo with
               | context [if ?c then _ else _] => destruct c
               | context [match ?x with _ => _ end] => destruct x
               end; inversion Eo; eexists; reflexivity.
      - unfold Imagewrite.check_geometry. rewrite Hubi. fold tot.
        assert (C : (Imagewrite.resolve_vol_lebs tot (Imagewrite.vol_lebs a)
                     <? 0)
                    || (Imagewrite.resolve_vol_lebs tot (Imagewrite.vol_lebs a)
                        >? tot) = true).
        { apply orb_true_iff. destruct Hout as [H | H].
          - left. apply Z.ltb_lt. exact H.
          - right. apply Z.gtb_lt. exact H. }
        rewrite C. eexists. reflexivity. }
    destruct P as [msgs P]. exists msgs.
    rewrite (main_prepare_fails a w dev _ P). split; reflexivity.
  - intros r Hr. unfold Imagewrite.prepare in Hr. rewrite Hdev in Hr.
    fold start_ end_ in Hr.
    destruct (is_set (Imagewrite.img_file a) && Imagewrite.std_in a);
      [discriminate|].
    destruct (Imagewrite.ubi a
              && (is_set (Imagewrite.img_file a) || Imagewrite.std_in a)
              && negb (is_set (Imagewrite.vol_name a))); [discriminate|].
    destruct (start_ >? _); [discriminate|].
    destruct (end_ >? _); [discriminate|].
    destruct (Imagewrite.open_input a w) as [e | [fd image_size]];
      [discriminate|].
    unfold Imagewrite.check_geometry in Hr. rewrite Hubi in Hr.
    fold tot in Hr.
    set (v := Imagewrite.resolve_vol_lebs tot (Imagewrite.vol_lebs a)) in *.
    destruct ((v <? 0) || (v >? tot)) eqn:C; [discriminate|].
    apply orb_false_iff in C. destruct C as [C1 C2].
    apply Z.ltb_ge in C1.
    assert (C3 : v <= tot).
    { destruct (Z.gtb_spec v tot); [discriminate | assumption]. }
    destruct (image_size >? _); [discriminate|].
    destruct (Imagewrite.vol_name a) as [name|]; [|discriminate].
    destruct (strlen name >? _); [discriminate|].
    rewrite ulong_small in Hr by lia.
    inversion Hr. cbn. repeat split; try reflexivity; assumption.
Qed.

End WriterMain.

Section WriterExit.

Variable crc : Z -> list Z -> Z.

(** C7. The run of the writer ends well exactly when, at the end of the
    write pass, [data_left] is 0 or [image_size] is 0; else it ends with
    the message "data only partially written due to error" and a failure
    status. A run that ends before the erase pass fails; a run that only
    erases, which has [image_size = 0], ends well without a write pass. *)
Theorem writer_exit_is_binary (a : Imagewrite.args) (w : Imagewrite.env)
    (dev : Imagewrite.nand) :
  match Imagewrite.prepare a w with
  | inl e =>
      Imagewrite.main crc a w dev = (e, dev) /\ e <> Imagewrite.EXIT_SUCCESS
  | inr r =>
      let erased :=
        Imagewrite.erase_pass (Imagewrite.r_mtd r) (Imagewrite.hw w)
          (Imagewrite.window_fuel r) (Imagewrite.r_start r)
          (Imagewrite.r_end r) dev in
      if (Imagewrite.r_image_size r =? 0)
         && negb (Imagewrite.std_in (Imagewrite.r_args r))
         && negb (Imagewrite.ubi (Imagewrite.r_args r))
      then
        Imagewrite.r_image_size r = 0 /\
        Imagewrite.main crc a w dev = (Imagewrite.EXIT_SUCCESS, erased)
      else
        let '(st, written) := Imagewrite.write_all crc r w erased in
        (Imagewrite.data_left st = 0 \/ Imagewrite.r_image_size r = 0 ->
         Imagewrite.main crc a w dev = (Imagewrite.EXIT_SUCCESS, written)) /\
        (Imagewrite.data_left st <> 0 -> Imagewrite.r_image_size r <> 0 ->
         Imagewrite.main crc a w dev
         = (Imagewrite.EXIT_FAILURE ["data only partially written due to error"%string],
            written))
  end.
Proof.
  unfold Imagewrite.main.
  destruct (Imagewrite.prepare a w) as [e | r] eqn:P.
  - split; [reflexivity|]. intros ->. exact (prepare_never_succeeds a w P).
  - cbv zeta.
    destruct ((Imagewrite.r_image_size r =? 0)
              && negb (Imagewrite.std_in (Imagewrite.r_args r))
              && negb (Imagewrite.ubi (Imagewrite.r_args r))) eqn:E.
    + split; [|reflexivity].
      apply andb_true_iff in E. destruct E as [E _].
      apply andb_true_iff in E. destruct E as [E _].
      now apply Z.eqb_eq.
    + destruct (Imagewrite.write_all crc r w _) as [st written].
      split.
      * intros [H | H]; rewrite H; cbn [Z.eqb orb];
          rewrite ?orb_true_r; reflexivity.
      * intros H1 H2.
        destruct (Z.eqb_spec (Imagewrite.data_left st) 0); [contradiction|].
        destruct (Z.eqb_spec (Imagewrite.r_image_size r) 0); [contradiction|].
        reflexivity.
Qed.

(** C10. A run in UBI mode without input file, without standard input and
    without [--vol-name] passes the check of the usage, which asks for the
    name only when there is input, and the checks of the geometry; then
    [strlen] is taken of the name that is not there. Nothing has been
    asked of the flash by then. *)
Theorem ubi_without_input_needs_vol_name (a : Imagewrite.args)
    (w : Imagewrite.env) (dev : Imagewrite.nand)
    (mtd : Imagewrite.mtd_dev_info) :
  Imagewrite.ubi a = true ->
  Imagewrite.img_file a = None ->
  Imagewrite.std_in a = false ->
  Imagewrite.vol_name a = None ->
  Imagewrite.length a = 0 ->
  Imagewrite.skip a = 0 ->
  Imagewrite.dev_info w = Some mtd ->
  let start_ := Imagewrite.window_start a mtd in
  let end_ := Imagewrite.window_end a mtd in
  let tot_lebs := Imagewrite.tot_lebs_of mtd start_ end_ in
  let vol_lebs := Imagewrite.resolve_vol_lebs tot_lebs (Imagewrite.vol_lebs a) in
  start_ <= ulong (Imagewrite.size mtd - Imagewrite.eb_size mtd) ->
  end_ <= ulong (Imagewrite.size mtd) ->
  0 <= vol_lebs <= tot_lebs ->
  Imagewrite.main crc a w dev = (Imagewrite.SIGSEGV, dev).
Proof.
  intros Hubi Hfile Hstdin Hname Hlen Hskip Hdev.
  cbv zeta. intros Hstart Hend Hvol.
  apply main_prepare_fails.
  unfold Imagewrite.prepare. rewrite Hfile, Hstdin, Hname, Hubi, Hdev.
  cbn [is_set andb orb negb].
  destruct (Z.gtb_spec (Imagewrite.window_start a mtd)
              (ulong (Imagewrite.size mtd - Imagewrite.eb_size mtd)));
    [lia|].
  destruct (Z.gtb_spec (Imagewrite.window_end a mtd)
              (ulong (Imagewrite.size mtd))); [lia|].
  unfold Imagewrite.open_input. rewrite Hfile, Hstdin, Hlen, Hskip.
  cbn [Z.eqb negb orb].
  unfold Imagewrite.check_geometry. rewrite Hubi, Hname.
  match goal with
  | |- context [(?x <? 0) || (?x >? ?t)] =>
      destruct (Z.ltb_spec x 0); [lia|];
      destruct (Z.gtb_spec x t); [lia|]
  end.
  cbn [orb].
  match goal with
  | |- context [0 >? ulong ?x] =>
      pose proof (ulong_range x); destruct (Z.gtb_spec 0 (ulong x)); [lia|]
  end.
  reflexivity.
Qed.

End WriterExit.

(** ** The extractor and broken headers *)

Section BrokenHeaders.

Variable crc : Z -> list Z -> Z.
Variable a : Deubinize.args.


(** The eraseblocks before the layout volume are passed over one by one. *)
Lemma find_layout_next (fuel : nat) (file : list Z) (seek pos : Z)
    (imi imi' : Deubinize.img_info) :
  Deubinize.read_headers crc a file seek imi = Deubinize.Ok (pos, imi') ->
  Deubinize.vol_id imi' <> UbiMedia.UBI_LAYOUT_VOLUME_ID ->
  seek + Deubinize.peb_size a < Deubinize.size imi' ->
  Deubinize.find_layout crc a (S fuel) file seek imi
  = Deubinize.find_layout crc a fuel file (seek + Deubinize.peb_size a) imi'.
Proof.
  intros H Hid Hsz. cbn [Deubinize.find_layout]. rewrite H.
  destruct (Z.eqb_spec (Deubinize.vol_id imi') UbiMedia.UBI_LAYOUT_VOLUME_ID);
    [contradiction|].
  destruct (Z.geb_spec (seek + Deubinize.peb_size a) (Deubinize.size imi'));
    [lia|reflexivity].
Qed.


End BrokenHeaders.


(** ** Runs *)

(** C1 at [-n 128]: the writer accepts the volume id 128, writes the
    payload to eraseblocks of volume 128 and ends well, but no record of
    the volume table carries the name; the extractor, asked for the
    volume by this name, fails before it makes the output file. *)
Theorem roundtrip_lost_with_vol_id_128 :
  let written :=
    Imagewrite.main crc32 (ubi_args 128 "rootfs") (file_env [1; 2; 3])
                    used_flash in
  let extracted :=
    Deubinize.main crc32 (extract_args "rootfs" false)
                   (Some (Imagewrite.cells (snd written))) in
  fst written = Imagewrite.EXIT_SUCCESS /\
  get32 (64 + UbiMedia.vid_vol_id)
        (slice (2 * 22144) 22144 (Imagewrite.cells (snd written))) = 128 /\
  slice (2 * 22144 + 128) 3 (Imagewrite.cells (snd written)) = [1; 2; 3] /\
  extracted = (Deubinize.EXIT_FAILURE, None).
Proof. vm_compute. repeat split; reflexivity. Qed.

(** C9 at an empty input file: the two eraseblocks of the layout volume
    are written, then the read for the first eraseblock of the volume
    fails and the write pass ends; the run ends well all the same. No
    page of the eraseblocks from the third on is written: they stay
    erased, without EC header and without VID header. *)
Theorem ubi_empty_file_writes_layout_only :
  let written :=
    Imagewrite.main crc32 (ubi_args 0 "rootfs") (file_env []) used_flash in
  fst written = Imagewrite.EXIT_SUCCESS /\
  existsb (is_write_to 0) (Imagewrite.calls (snd written)) = true /\
  existsb (is_write_to 2) (Imagewrite.calls (snd written)) = false /\
  forallb (Z.eqb 255)
          (slice (2 * 22144) (3 * 22144) (Imagewrite.cells (snd written)))
  = true.
Proof. vm_compute. repeat split; reflexivity. Qed.

(** C4 at a window of one eraseblock: the payload is one eraseblock of
    raw data and the write of its first page fails. The block is erased
    and marked bad, the window is used up, nothing of the payload is on
    the flash, and the run ends well. *)
Theorem last_block_lost_yet_success :
  Imagewrite.main crc32 (raw_args 1) (tiny_env [1; 2; 3; 4] [0]) tiny_flash
  = (Imagewrite.EXIT_SUCCESS,
     Imagewrite.mk_nand [255; 255; 255; 255; 0; 0; 0; 0] [0]
       [Imagewrite.call_is_bad 0; Imagewrite.call_erase 0;
        Imagewrite.call_write 0 0 (Some [1; 2]) None;
        Imagewrite.call_is_bad 0; Imagewrite.call_erase 0;
        Imagewrite.call_mark_bad 0]).
Proof. vm_compute. reflexivity. Qed.

(** With a second eraseblock in the window the same block is written
    there: the retry on the next eraseblock. *)
Example failed_block_retried_on_next :
  Imagewrite.main crc32 (raw_args 2) (tiny_env [1; 2; 3; 4] [0]) tiny_flash
  = (Imagewrite.EXIT_SUCCESS,
     Imagewrite.mk_nand [255; 255; 255; 255; 1; 2; 3; 4] [0]
       [Imagewrite.call_is_bad 0; Imagewrite.call_erase 0;
        Imagewrite.call_is_bad 1; Imagewrite.call_erase 1;
        Imagewrite.call_write 0 0 (Some [1; 2]) None;
        Imagewrite.call_is_bad 0; Imagewrite.call_erase 0;
        Imagewrite.call_mark_bad 0;
        Imagewrite.call_write 1 0 (Some [1; 2]) None;
        Imagewrite.call_write 1 2 (Some [3; 4]) None]).
Proof. vm_compute. reflexivity. Qed.


(** ** The theorems at work on the small flash *)

Ltac by_computation :=
  vm_compute; repeat split; first [ reflexivity | discriminate ].

Lemma writer_crc_fields_check_witness :
  let '(_, buf, _) :=
    Imagewrite.eb_gen_data crc32 (ubi_args 0 "rootfs") small_mtd 12345
      (Imagewrite.mk_wstate 0 0 (Imagewrite.fd_open [1; 2; 3]) 3) in
  crc_ok crc32 UbiMedia.UBI_EC_HDR_SIZE (slice 0 UbiMedia.UBI_EC_HDR_SIZE buf) /\
  (0 < ulong (Imagewrite.vol_lebs (ubi_args 0 "rootfs") + 2) \/ 0 < 2 ->
   crc_ok crc32 UbiMedia.UBI_VID_HDR_SIZE
          (slice (Imagewrite.min_io_size small_mtd) UbiMedia.UBI_VID_HDR_SIZE
                 buf)) /\
  (0 < 2 ->
   forall i, 0 <= i < 128 ->
     crc_ok crc32 UbiMedia.UBI_VTBL_RECORD_SIZE
       (slice (2 * Imagewrite.min_io_size small_mtd
               + i * UbiMedia.UBI_VTBL_RECORD_SIZE)
              UbiMedia.UBI_VTBL_RECORD_SIZE buf)).
Proof.
  exact (writer_crc_fields_check crc32 (ubi_args 0 "rootfs") small_mtd 12345
           (Imagewrite.mk_wstate 0 0 (Imagewrite.fd_open [1; 2; 3]) 3)
           eq_refl ltac:(by_computation) ltac:(by_computation)
           ltac:(by_computation)).
Defined.

Lemma eb_gen_data_by_blk_no_witness :
  let a := ubi_args 0 "rootfs" in
  let st := Imagewrite.mk_wstate 2 12345 (Imagewrite.fd_open [1; 2; 3]) 3 in
  let '(data_len, buf, _) :=
    Imagewrite.eb_gen_data crc32 a small_mtd 12345 st in
  ec_hdr_is crc32 (Imagewrite.min_io_size small_mtd)
            (2 * Imagewrite.min_io_size small_mtd)
            (slice 0 UbiMedia.UBI_EC_HDR_SIZE buf) /\
  (Imagewrite.blk_no st < 2 ->
   layout_block crc32 a small_mtd (Imagewrite.blk_no st) data_len buf) /\
  (2 <= Imagewrite.blk_no st < 2 + Imagewrite.vol_lebs a ->
   forall rest, Imagewrite.ifd st = Imagewrite.fd_open rest ->
     let n := Z.min (Imagewrite.data_left st)
                    (Imagewrite.eb_size small_mtd
                     - 2 * Imagewrite.min_io_size small_mtd)
     in
     n <= Zlen rest \/
     (Imagewrite.std_in a && (Imagewrite.length a =? 0)) = true ->
     data_block crc32 a small_mtd (Imagewrite.blk_no st)
                (firstn (Z.to_nat n) rest) data_len buf) /\
  (2 + Imagewrite.vol_lebs a <= Imagewrite.blk_no st ->
   trailing_block small_mtd data_len buf).
Proof.
  exact (eb_gen_data_by_blk_no crc32 (ubi_args 0 "rootfs") small_mtd 12345
           (Imagewrite.mk_wstate 2 12345 (Imagewrite.fd_open [1; 2; 3]) 3)
           eq_refl ltac:(by_computation) ltac:(by_computation)
           ltac:(by_computation) ltac:(by_computation)
           ltac:(by_computation) ltac:(by_computation)
           ltac:(by_computation) ltac:(by_computation)).
Defined.

Lemma eb_write_page_loop_witness :
  let '(ret, dev') :=
    Imagewrite.eb_write (raw_args 1) tiny_mtd no_faults 0 4 [1; 2; 255; 255]
                        tiny_flash in
  ret = 0 /\
  Imagewrite.calls dev'
  = Imagewrite.calls tiny_flash
    ++ map (page_write_call (raw_args 1) tiny_mtd
              (0 / Imagewrite.eb_size tiny_mtd) [1; 2; 255; 255])
           (page_addrs (raw_args 1) tiny_mtd 4) /\
  Imagewrite.cells dev'
  = program_pages tiny_mtd (0 / Imagewrite.eb_size tiny_mtd)
                  [1; 2; 255; 255] (page_addrs (raw_args 1) tiny_mtd 4)
                  (Imagewrite.cells tiny_flash) /\
  (4 = 0 -> Imagewrite.clm (raw_args 1) = false -> dev' = tiny_flash).
Proof.
  exact (eb_write_page_loop (raw_args 1) tiny_mtd no_faults 0 4
           [1; 2; 255; 255] tiny_flash ltac:(by_computation)
           ltac:(by_computation) ltac:(by_computation)
           (fun p => eq_refl)).
Defined.

(** [-S -2] on the five eraseblocks of the small flash gives a volume of
    one LEB, which the run goes on with; [-S 2] is taken as it is; [-S 0]
    would leave 3 - 20 LEBs, so that the run is turned down before it
    touches the flash; and on a device of thirty eraseblocks [-S 0] gives
    a volume of 28 - 20 LEBs. *)
Lemma ubi_vol_lebs_resolved_witness :
  let neg := Imagewrite.set_vol_lebs (ubi_args 0 "rootfs") (2 ^ 64 - 2) in
  let pos := ubi_args 0 "rootfs" in
  let zero := Imagewrite.set_vol_lebs (ubi_args 0 "rootfs") 0 in
  let w := file_env [1; 2; 3] in
  let thirty :=
    Imagewrite.mk_env (Some (Imagewrite.mk_mtd 22144 64 (30 * 22144)))
                      (Some [1; 2; 3]) [] 12345 no_faults in
  (exists r, Imagewrite.prepare neg w = inr r /\
             Imagewrite.vol_lebs (Imagewrite.r_args r) = 1) /\
  (exists r, Imagewrite.prepare pos w = inr r /\
             Imagewrite.vol_lebs (Imagewrite.r_args r) = 2) /\
  (exists msgs,
     Imagewrite.main crc32 zero w used_flash
     = (Imagewrite.EXIT_FAILURE msgs, used_flash)) /\
  (exists r, Imagewrite.prepare zero thirty = inr r /\
             Imagewrite.vol_lebs (Imagewrite.r_args r) = 8).
Proof.
  cbv zeta. split; [|split; [|split]].
  - destruct (ubi_vol_lebs_resolved crc32
                (Imagewrite.set_vol_lebs (ubi_args 0 "rootfs") (2 ^ 64 - 2))
                (file_env [1; 2; 3]) used_flash small_mtd eq_refl eq_refl
                ltac:(by_computation) ltac:(by_computation))
      as (_ & _ & Hneg & _ & _ & Hrun).
    destruct (Imagewrite.prepare _ _) as [e | r] eqn:E.
    + vm_compute in E. discriminate E.
    + exists r. split; [reflexivity|].
      destruct (Hrun r eq_refl) as (_ & Hv & _). rewrite Hv.
      apply (Hneg 2); by_computation.
  - destruct (ubi_vol_lebs_resolved crc32 (ubi_args 0 "rootfs")
                (file_env [1; 2; 3]) used_flash small_mtd eq_refl eq_refl
                ltac:(by_computation) ltac:(by_computation))
      as (_ & _ & _ & Hpos & _ & Hrun).
    destruct (Imagewrite.prepare _ _) as [e | r] eqn:E.
    + vm_compute in E. discriminate E.
    + exists r. split; [reflexivity|].
      destruct (Hrun r eq_refl) as (_ & Hv & _). rewrite Hv.
      apply Hpos. by_computation.
  - destruct (ubi_vol_lebs_resolved crc32
                (Imagewrite.set_vol_lebs (ubi_args 0 "rootfs") 0)
                (file_env [1; 2; 3]) used_flash small_mtd eq_refl eq_refl
                ltac:(by_computation) ltac:(by_computation))
      as (_ & Hzero & _ & _ & Hout & _).
    destruct Hout as (msgs & Hmain & _).
    + left. rewrite (Hzero eq_refl). by_computation.
    + exists msgs. exact Hmain.
  - destruct (ubi_vol_lebs_resolved crc32
                (Imagewrite.set_vol_lebs (ubi_args 0 "rootfs") 0)
                (Imagewrite.mk_env
                   (Some (Imagewrite.mk_mtd 22144 64 (30 * 22144)))
                   (Some [1; 2; 3]) [] 12345 no_faults)
                used_flash (Imagewrite.mk_mtd 22144 64 (30 * 22144))
                eq_refl eq_refl ltac:(by_computation) ltac:(by_computation))
      as (_ & Hzero & _ & _ & _ & Hrun).
    destruct (Imagewrite.prepare _ _) as [e | r] eqn:E.
    + vm_compute in E. discriminate E.
    + exists r. split; [reflexivity|].
      destruct (Hrun r eq_refl) as (_ & Hv & _). rewrite Hv.
      rewrite (Hzero eq_refl). by_computation.
Defined.

Lemma ubi_without_input_needs_vol_name_witness :
  Imagewrite.main crc32
    (Imagewrite.mk_args 0 0 0 0 0 2 false false true 1 None "/dev/mtd1" None)
    (Imagewrite.mk_env (Some small_mtd) None [] 1 no_faults) used_flash
  = (Imagewrite.SIGSEGV, used_flash).
Proof.
  exact (ubi_without_input_needs_vol_name crc32
           (Imagewrite.mk_args 0 0 0 0 0 2 false false true 1 None
                               "/dev/mtd1" None)
           (Imagewrite.mk_env (Some small_mtd) None [] 1 no_faults)
           used_flash small_mtd eq_refl eq_refl eq_refl eq_refl eq_refl
           eq_refl eq_refl ltac:(by_computation) ltac:(by_computation)
           ltac:(by_computation)).
Defined.

(** * More of the writer *)

(** ** [data_read] and [eb_gen_data] whatever the input *)

Lemma data_read_result (a : Imagewrite.args) (fd : Imagewrite.ifd_t) (n : Z) :
  0 <= n ->
  let '(r, got, _) := Imagewrite.data_read a fd n in
  r = -1 \/ (0 <= r <= n /\ Zlen got = r).
Proof.
  intros Hn.
  destruct (Z.eq_dec n 0) as [-> | Hn0].
  { rewrite data_read_zero. right. repeat split; lia. }
  destruct fd as [|rest].
  - assert (Hpos : 0 < n) by lia.
    pose proof (data_read_fails a Imagewrite.no_fd n Hpos I) as F.
    destruct (Imagewrite.data_read a Imagewrite.no_fd n) as [[r got] fd'].
    left. exact F.
  - destruct (Z.le_gt_cases n (Zlen rest)) as [Hle | Hgt].
    + rewrite data_read_ok by (try (left; exact Hle); lia).
      right. rewrite Zlen_firstn by lia. lia.
    + destruct (Imagewrite.std_in a && (Imagewrite.length a =? 0)) eqn:Mode.
      * rewrite data_read_ok by (try (right; exact Mode); lia).
        right. pose proof (Zlen_nonneg rest).
        unfold Zlen in *. rewrite length_firstn. lia.
      * assert (Hpos : 0 < n) by lia.
        assert (Hshort : Zlen rest < n) by lia.
        pose proof (data_read_fails a (Imagewrite.fd_open rest) n
                      Hpos (conj Hshort Mode)) as F.
        destruct (Imagewrite.data_read a (Imagewrite.fd_open rest) n)
          as [[r got] fd'].
        left. exact F.
Qed.

Section BlockShape.

Variable crc : Z -> list Z -> Z.
Variable a : Imagewrite.args.
Variable mtd : Imagewrite.mtd_dev_info.

(** The geometry the generator needs: in UBI mode the two headers and the
    volume table have room in an eraseblock. *)
Hypothesis Hgeom :
  if Imagewrite.ubi a
  then 64 <= Imagewrite.min_io_size mtd /\
       2 * Imagewrite.min_io_size mtd + 128 * 172 <= Imagewrite.eb_size mtd
  else 0 <= Imagewrite.eb_size mtd.
Hypothesis Hebs : Imagewrite.eb_size mtd < 2 ^ 63.

(** The block has the size of an eraseblock; either the call fails with
    [-1], or [data_len] lies in the block and all the bytes from [data_len]
    on are [0xFF]. *)
Lemma eb_gen_data_shape (rnd : Z) (st : Imagewrite.wstate) :
  0 <= Imagewrite.data_left st ->
  let '(data_len, buf, st') := Imagewrite.eb_gen_data crc a mtd rnd st in
  Zlen buf = Imagewrite.eb_size mtd /\
  0 <= Imagewrite.data_left st' /\
  (data_len = -1 /\
   Imagewrite.blk_no st' = Imagewrite.blk_no st /\
   Imagewrite.data_left st' = Imagewrite.data_left st
   \/
   0 <= data_len <= Imagewrite.eb_size mtd /\
   slice data_len (Imagewrite.eb_size mtd - data_len) buf
   = repeat 255 (Z.to_nat (Imagewrite.eb_size mtd - data_len)) /\
   Imagewrite.blk_no st' = ulong (Imagewrite.blk_no st + 1)).
Proof.
  intros Hleft.
  destruct (Imagewrite.ubi a) eqn:Hubi.
  - destruct Hgeom as [Hmio Hfit].
    assert (Hm2 : 0 <= Imagewrite.min_io_size mtd * 2 < 2 ^ 64) by lia.
    destruct (Z.lt_ge_cases (Imagewrite.blk_no st) 2) as [Hlay | Hnolay].
    + rewrite (eb_gen_data_layout crc a mtd Hubi Hm2) by exact Hlay.
      pose proof (fill_vtbl_spec crc a 128 0 (2 * Imagewrite.min_io_size mtd)
                    (with_vid crc mtd
                       (layout_vid crc (Imagewrite.blk_no st)) rnd st)) as F.
      rewrite Zlen_with_vid in F by lia.
      destruct (Imagewrite.fill_vtbl crc a 128 0 _ _) as [e b].
      destruct F as (He & Hb & _ & Hout); [lia | lia |].
      cbn [Imagewrite.data_left Imagewrite.blk_no].
      split; [lia|]. split; [lia|]. right.
      split; [lia|]. split; [|reflexivity].
      rewrite Hout by lia. rewrite He.
      unfold with_vid. rewrite slice_store_disj by (rewrite ?Zlen_vid_hdr; unfold layout_vid; rewrite ?Zlen_vid_hdr; lia).
      unfold ec_only. rewrite slice_store_disj by (rewrite ?Zlen_ec_hdr; lia).
      apply slice_repeat; lia.
    + destruct (Z.lt_ge_cases (Imagewrite.blk_no st)
                              (ulong (Imagewrite.vol_lebs a + 2)))
        as [Hvol | Htrail].
      * rewrite (eb_gen_data_volume crc a mtd Hubi Hm2) by lia.
        cbv zeta.
        rewrite (ulong_small (Imagewrite.eb_size mtd
                              - 2 * Imagewrite.min_io_size mtd)) by lia.
        set (n := if Imagewrite.data_left st
                     >? Imagewrite.eb_size mtd - 2 * Imagewrite.min_io_size mtd
                  then Imagewrite.eb_size mtd - 2 * Imagewrite.min_io_size mtd
                  else Imagewrite.data_left st).
        assert (Hn : 0 <= n <= Imagewrite.eb_size mtd
                                - 2 * Imagewrite.min_io_size mtd).
        { unfold n. destruct (Z.gtb_spec (Imagewrite.data_left st)
            (Imagewrite.eb_size mtd - 2 * Imagewrite.min_io_size mtd)); lia. }
        pose proof (data_read_result a (Imagewrite.ifd st) n
                      (proj1 Hn)) as R.
        destruct (Imagewrite.data_read a (Imagewrite.ifd st) n)
          as [[r got] fd'].
        destruct R as [-> | [Hr Hgot]].
        -- cbn [Z.ltb Z.compare Imagewrite.data_left Imagewrite.blk_no].
           rewrite Zlen_store, Zlen_with_vid by lia.
           split; [reflexivity|]. split; [lia|]. left. repeat split.
        -- destruct (Z.ltb_spec r 0); [lia|].
           cbn [Imagewrite.data_left Imagewrite.blk_no].
           rewrite Zlen_store, Zlen_with_vid by lia.
           split; [reflexivity|].
           split; [apply ulong_range|]. right.
           split; [lia|]. split; [|reflexivity].
           rewrite slice_store_disj by lia.
           unfold with_vid.
           rewrite slice_store_disj
             by (unfold volume_vid; rewrite ?Zlen_vid_hdr; lia).
           unfold ec_only.
           rewrite slice_store_disj by (rewrite ?Zlen_ec_hdr; lia).
           apply slice_repeat; lia.
      * rewrite (eb_gen_data_trailing crc a mtd Hubi Hm2) by lia.
        cbn [Imagewrite.data_left Imagewrite.blk_no].
        rewrite Zlen_ec_only by lia.
        split; [reflexivity|]. split; [lia|]. right.
        unfold UbiMedia.UBI_EC_HDR_SIZE.
        split; [lia|]. split; [|reflexivity].
        apply rest_of_ec_only; lia.
  - unfold Imagewrite.eb_gen_data. rewrite Hubi.
    set (n := if Imagewrite.data_left st >? Imagewrite.eb_size mtd
              then Imagewrite.eb_size mtd else Imagewrite.data_left st).
    assert (Hn : 0 <= n <= Imagewrite.eb_size mtd).
    { unfold n. destruct (Z.gtb_spec (Imagewrite.data_left st)
                                     (Imagewrite.eb_size mtd)); lia. }
    pose proof (data_read_result a (Imagewrite.ifd st) n (proj1 Hn)) as R.
    destruct (Imagewrite.data_read a (Imagewrite.ifd st) n)
      as [[r got] fd'].
    destruct R as [-> | [Hr Hgot]].
    + cbn [Z.ltb Z.compare Imagewrite.data_left Imagewrite.blk_no].
      rewrite Zlen_store, Zlen_repeat by lia.
      split; [reflexivity|]. split; [lia|]. left. repeat split.
    + destruct (Z.ltb_spec r 0); [lia|].
      cbn [Imagewrite.data_left Imagewrite.blk_no].
      rewrite Zlen_store, Zlen_repeat by lia.
      split; [reflexivity|]. split; [apply ulong_range|]. right.
      split; [lia|]. split; [|reflexivity].
      rewrite slice_store_disj by lia.
      apply slice_repeat; lia.
Qed.

End BlockShape.

(** ** [eb_erase] and the erase pass *)

Lemma existsb_eqb_In (x : Z) (l : list Z) :
  existsb (Z.eqb x) l = true <-> In x l.
Proof.
  rewrite existsb_exists. split.
  - intros (y & Hy & E). apply Z.eqb_eq in E. now subst.
  - intros H. exists x. split; [exact H | apply Z.eqb_refl].
Qed.

Section Erase.

Variable mtd : Imagewrite.mtd_dev_info.
Variable hw : Imagewrite.faults.

(** X3. [eb_erase] asks for the state of the block first. It returns 0 exactly
    when the state can be read, the block is not bad and the erase
    succeeds; then the block is erased. A block that is bad, by the
    hardware or marked by the program, is never erased: the only request is
    the one for its state. In every case but success the bytes of the
    flash stay as they are, and the bad block marks are never changed. *)
Theorem eb_erase_outcome (eb_addr : Z) (dev : Imagewrite.nand) :
  let eb := eb_addr / Imagewrite.eb_size mtd in
  let is_bad :=
    Imagewrite.bad_block hw eb
    || existsb (Z.eqb eb) (Imagewrite.marked_bad dev) in
  let '(ret, dev') := Imagewrite.eb_erase mtd hw eb_addr dev in
  Imagewrite.marked_bad dev' = Imagewrite.marked_bad dev /\
  (ret = 0 <->
   Imagewrite.get_bad_fails hw eb = false /\ is_bad = false /\
   Imagewrite.erase_fails hw eb = false) /\
  (ret = 0 ->
   Imagewrite.cells dev'
   = memset (eb * Imagewrite.eb_size mtd) 255 (Imagewrite.eb_size mtd)
            (Imagewrite.cells dev) /\
   Imagewrite.calls dev'
   = Imagewrite.calls dev
     ++ [Imagewrite.call_is_bad eb; Imagewrite.call_erase eb]) /\
  (ret <> 0 -> Imagewrite.cells dev' = Imagewrite.cells dev) /\
  (Imagewrite.get_bad_fails hw eb = false -> is_bad = true ->
   ret = 1 /\
   Imagewrite.calls dev' = Imagewrite.calls dev ++ [Imagewrite.call_is_bad eb]).
Proof.
  cbv zeta. unfold Imagewrite.eb_erase, Imagewrite.mtd_is_bad.
  set (eb := eb_addr / Imagewrite.eb_size mtd).
  unfold Imagewrite.log. cbn [Imagewrite.marked_bad Imagewrite.cells
                              Imagewrite.calls].
  destruct (Imagewrite.get_bad_fails hw eb) eqn:Eg.
  - cbn [Z.gtb Z.ltb Z.compare Imagewrite.marked_bad Imagewrite.cells
         Imagewrite.calls].
    repeat split; try discriminate; try lia; intros; intuition discriminate.
  - destruct (Imagewrite.bad_block hw eb
              || existsb (Z.eqb eb) (Imagewrite.marked_bad dev)) eqn:Eb.
    + cbn [Z.gtb Z.ltb Z.compare Imagewrite.marked_bad Imagewrite.cells
           Imagewrite.calls].
      repeat split; try discriminate; try lia; intros; intuition discriminate.
    + cbn [Z.gtb Z.ltb Z.compare].
      unfold Imagewrite.mtd_erase, Imagewrite.log, Imagewrite.set_cells.
      cbn [Imagewrite.marked_bad Imagewrite.cells Imagewrite.calls].
      destruct (Imagewrite.erase_fails hw eb) eqn:Ee;
        cbn [Imagewrite.marked_bad Imagewrite.cells Imagewrite.calls].
      * repeat split; try discriminate; try lia; intros;
          intuition discriminate.
      * repeat split; try discriminate; try lia; intros;
          try intuition discriminate.
        rewrite <- app_assoc. reflexivity.
Qed.

End Erase.

Lemma ebs_from_S (s : Z) (n : nat) :
  ebs_from s (S n) = s :: ebs_from (s + 1) n.
Proof.
  unfold ebs_from. cbn [seq map]. f_equal; [lia|].
  rewrite <- seq_shift, map_map. apply map_ext. intros i. lia.
Qed.

Section ErasePass.

Variable mtd : Imagewrite.mtd_dev_info.
Variable hw : Imagewrite.faults.

Hypothesis Hebs : 0 < Imagewrite.eb_size mtd.
Hypothesis Hstate : forall eb, Imagewrite.get_bad_fails hw eb = false.
Hypothesis Herase : forall eb, Imagewrite.erase_fails hw eb = false.

(** The erase pass over the blocks [s .. s + n - 1]. *)
Lemma erase_pass_spec (n : nat) : forall (s : Z) (fuel : nat) dev,
  0 <= s ->
  (s + Z.of_nat n) * Imagewrite.eb_size mtd + Imagewrite.eb_size mtd < 2 ^ 64 ->
  (n < fuel)%nat ->
  Imagewrite.marked_bad dev = [] ->
  Imagewrite.erase_pass mtd hw fuel (s * Imagewrite.eb_size mtd)
    ((s + Z.of_nat n) * Imagewrite.eb_size mtd) dev
  = Imagewrite.mk_nand
      (erase_good hw mtd (ebs_from s n) (Imagewrite.cells dev)) []
      (Imagewrite.calls dev ++ erase_calls hw (ebs_from s n)).
Proof.
  induction n as [|n IH]; intros s fuel dev Hs Hwrap Hfuel Hmarks.
  - destruct fuel as [|fuel]; [lia|]. cbn [Imagewrite.erase_pass].
    rewrite Z.add_0_r, Z.ltb_irrefl.
    cbn [ebs_from seq map erase_good fold_left erase_calls flat_map].
    rewrite app_nil_r, <- Hmarks. apply eq_sym, nand_eta.
  - destruct fuel as [|fuel]; [lia|]. cbn [Imagewrite.erase_pass].
    destruct (Z.ltb_spec (s * Imagewrite.eb_size mtd)
                ((s + Z.of_nat (S n)) * Imagewrite.eb_size mtd)) as [_|G];
      [|nia].
    assert (Enext : ulong (s * Imagewrite.eb_size mtd + Imagewrite.eb_size mtd)
                    = (s + 1) * Imagewrite.eb_size mtd).
    { rewrite ulong_small by nia. ring. }
    rewrite Enext.
    replace (s + Z.of_nat (S n)) with (s + 1 + Z.of_nat n) in * by lia.
    rewrite ebs_from_S.
    unfold Imagewrite.eb_erase, Imagewrite.mtd_is_bad.
    rewrite Z.div_mul by lia. rewrite Hstate.
    unfold Imagewrite.log at 1 2.
    cbn [Imagewrite.marked_bad Imagewrite.cells Imagewrite.calls].
    rewrite Hmarks. cbn [existsb]. rewrite orb_false_r.
    cbn [erase_good fold_left erase_calls flat_map].
    destruct (Imagewrite.bad_block hw s) eqn:Eb.
    + cbn [Z.gtb Z.ltb Z.compare snd].
      rewrite IH by (cbn [Imagewrite.marked_bad]; first [lia | reflexivity]).
      cbn [Imagewrite.cells Imagewrite.calls app].
      rewrite <- app_assoc. reflexivity.
    + cbn [Z.gtb Z.ltb Z.compare].
      unfold Imagewrite.mtd_erase. rewrite Herase.
      unfold Imagewrite.log, Imagewrite.set_cells.
      cbn [snd Imagewrite.marked_bad Imagewrite.cells Imagewrite.calls].
      rewrite IH by (cbn [Imagewrite.marked_bad]; first [lia | exact Hmarks]).
      cbn [Imagewrite.cells Imagewrite.calls app].
      rewrite <- !app_assoc. reflexivity.
Qed.

End ErasePass.

(** What [erase_good] leaves in each block. *)
Lemma erase_good_blocks (hw : Imagewrite.faults)
    (mtd : Imagewrite.mtd_dev_info) (n : nat) :
  forall (s : Z) (cells : list Z),
  0 < Imagewrite.eb_size mtd -> 0 <= s ->
  (s + Z.of_nat n) * Imagewrite.eb_size mtd <= Zlen cells ->
  let cells' := erase_good hw mtd (ebs_from s n) cells in
  Zlen cells' = Zlen cells /\
  (forall eb, s <= eb < s + Z.of_nat n ->
     slice (eb * Imagewrite.eb_size mtd) (Imagewrite.eb_size mtd) cells'
     = if Imagewrite.bad_block hw eb
       then slice (eb * Imagewrite.eb_size mtd) (Imagewrite.eb_size mtd) cells
       else repeat 255 (Z.to_nat (Imagewrite.eb_size mtd))) /\
  (forall o m, 0 <= o -> 0 <= m ->
     o + m <= s * Imagewrite.eb_size mtd \/
     (s + Z.of_nat n) * Imagewrite.eb_size mtd <= o ->
     slice o m cells' = slice o m cells).
Proof.
  induction n as [|n IH]; intros s cells Hebs Hs Hfit; cbv zeta.
  - cbn [ebs_from seq map erase_good fold_left].
    split; [reflexivity|]. split; [intros; lia | reflexivity].
  - rewrite ebs_from_S. cbn [erase_good fold_left].
    set (c1 := if Imagewrite.bad_block hw s then cells
               else memset (s * Imagewrite.eb_size mtd) 255
                           (Imagewrite.eb_size mtd) cells).
    assert (L1 : Zlen c1 = Zlen cells).
    { unfold c1. destruct (Imagewrite.bad_block hw s);
        [reflexivity | apply Zlen_memset]. }
    specialize (IH (s + 1) c1 Hebs ltac:(lia)).
    cbv zeta in IH. fold (erase_good hw mtd (ebs_from (s + 1) n) c1).
    destruct IH as (Hlen & Hin & Hout); [rewrite L1; nia|].
    split; [lia|]. split.
    + intros eb Heb. destruct (Z.eq_dec eb s) as [-> | Hne].
      * rewrite Hout by nia. unfold c1.
        destruct (Imagewrite.bad_block hw s); [reflexivity|].
        unfold memset.
        apply slice_store_same'; [apply Zlen_repeat; lia | nia | nia].
      * rewrite Hin by lia.
        destruct (Imagewrite.bad_block hw eb); [|reflexivity].
        unfold c1. destruct (Imagewrite.bad_block hw s); [reflexivity|].
        unfold memset. apply slice_store_disj; [nia | lia |].
        rewrite Zlen_repeat by lia. nia.
    + intros o m Ho Hm Hdisj. rewrite Hout by nia.
      unfold c1. destruct (Imagewrite.bad_block hw s); [reflexivity|].
      unfold memset. apply slice_store_disj; [lia | lia |].
      rewrite Zlen_repeat by lia. nia.
Qed.

(** ** [eb_write] on an erased block *)

Lemma erased_page_is_ff (page : list Z) :
  is_erased_page page = true -> page = repeat 255 (List.length page).
Proof.
  unfold is_erased_page. induction page as [|b page IH]; [reflexivity|].
  cbn [forallb List.length repeat]. intros H.
  apply andb_true_iff in H. destruct H as [Hb Hp].
  apply Z.eqb_eq in Hb. subst b. f_equal. apply IH. exact Hp.
Qed.

Lemma store_same_content {A} (o : Z) (s b : list A) :
  slice o (Zlen s) b = s -> store o s b = b.
Proof. intros H. rewrite <- H at 1. apply store_slice. Qed.

Lemma repeat_app_Z {A} (x : A) (n m : Z) :
  0 <= n -> 0 <= m ->
  repeat x (Z.to_nat (n + m)) = repeat x (Z.to_nat n) ++ repeat x (Z.to_nat m).
Proof. intros Hn Hm. rewrite Z2Nat.inj_add by lia. apply repeat_app. Qed.

(** The whole device after [eb_write] when no page write fails. *)
Lemma eb_write_no_failure (a : Imagewrite.args)
    (mtd : Imagewrite.mtd_dev_info) (hw : Imagewrite.faults)
    (eb_addr data_len : Z) (data : list Z) (dev : Imagewrite.nand) :
  0 < Imagewrite.min_io_size mtd ->
  0 <= data_len ->
  data_len + Imagewrite.min_io_size mtd < 2 ^ 64 ->
  (forall p,
     Imagewrite.write_fails hw (eb_addr / Imagewrite.eb_size mtd) p = false) ->
  Imagewrite.eb_write a mtd hw eb_addr data_len data dev
  = (0, Imagewrite.mk_nand
          (program_pages mtd (eb_addr / Imagewrite.eb_size mtd) data
                         (page_addrs a mtd data_len) (Imagewrite.cells dev))
          (Imagewrite.marked_bad dev)
          (Imagewrite.calls dev
           ++ map (page_write_call a mtd (eb_addr / Imagewrite.eb_size mtd)
                                   data)
                  (page_addrs a mtd data_len))).
Proof.
  intros Hmio Hlen Hwrap Hgood. unfold Imagewrite.eb_write.
  destruct ((data_len =? 0) && negb (Imagewrite.clm a)) eqn:E.
  - apply andb_true_iff in E. destruct E as [E0 Eclm].
    apply Z.eqb_eq in E0. apply negb_true_iff in Eclm.
    assert (P : page_addrs a mtd data_len = []).
    { unfold page_addrs, page_count. rewrite Eclm, E0.
      rewrite Z.add_0_l, Z.div_small by lia. reflexivity. }
    rewrite P. cbn [map program_pages fold_left]. rewrite app_nil_r.
    now rewrite nand_eta.
  - pose proof (eb_write_loop_pages a mtd hw eb_addr data_len data Hmio Hlen
                  Hwrap Hgood (Z.to_nat (page_count a mtd data_len)) 0
                  (Z.to_nat (data_len / Imagewrite.min_io_size mtd) + 2)
                  dev) as L.
    rewrite Z.mul_0_l, Z.eqb_refl, andb_true_r in L.
    assert (Hq : 0 <= page_count a mtd data_len
                 <= data_len / Imagewrite.min_io_size mtd + 1).
    { unfold page_count. split; [destruct (Imagewrite.clm a); lia|].
      assert (0 <= data_len / Imagewrite.min_io_size mtd)
        by (apply Z.div_pos; lia).
      pose proof (Z.div_mod data_len (Imagewrite.min_io_size mtd)
                    ltac:(lia)).
      pose proof (Z.mod_pos_bound data_len (Imagewrite.min_io_size mtd)
                    Hmio).
      assert ((data_len + Imagewrite.min_io_size mtd - 1)
              / Imagewrite.min_io_size mtd
              < data_len / Imagewrite.min_io_size mtd + 2)
        by (apply Z.div_lt_upper_bound; [lia | nia]).
      destruct (Imagewrite.clm a); lia. }
    rewrite L by lia. reflexivity.
Qed.

Section ProgramPages.

Variable mtd : Imagewrite.mtd_dev_info.
Variable eb : Z.
Variable data : list Z.

Let mio : Z := Imagewrite.min_io_size mtd.
Let base : Z := eb * Imagewrite.eb_size mtd.

Hypothesis Hmio : 0 < mio.
Hypothesis Hbase : 0 <= base.

(** Programming [k] pages from page [j] on into erased flash copies that
    part of the buffer: the pages that are skipped hold what erased flash
    holds. *)
Lemma program_pages_on_erased (k : nat) : forall (j : Z) (cells : list Z),
  0 <= j ->
  (j + Z.of_nat k) * mio <= Zlen data ->
  base + (j + Z.of_nat k) * mio <= Zlen cells ->
  slice (base + j * mio) (Z.of_nat k * mio) cells
  = repeat 255 (Z.to_nat (Z.of_nat k * mio)) ->
  program_pages mtd eb data (page_addrs_from mtd j k) cells
  = store (base + j * mio) (slice (j * mio) (Z.of_nat k * mio) data) cells.
Proof.
  induction k as [|k IH]; intros j cells Hj Hdata Hcells Herased.
  - cbn [page_addrs_from seq map program_pages fold_left].
    rewrite Z.mul_0_l, slice_zero_len, store_nil. reflexivity.
  - rewrite page_addrs_from_S, program_pages_cons. fold mio base.
    unfold page_of. fold mio.
    set (page := slice (j * mio) mio data).
    assert (Lpage : Zlen page = mio)
      by (unfold page; apply Zlen_slice; nia).
    assert (Esplit : Z.of_nat (S k) * mio = mio + Z.of_nat k * mio) by lia.
    assert (Hff : slice (base + j * mio) mio cells
                  = repeat 255 (Z.to_nat mio)).
    { replace (base + j * mio) with (base + j * mio + 0) at 1 by lia.
      rewrite <- (slice_slice (base + j * mio) (Z.of_nat (S k) * mio))
        by nia.
      rewrite Herased. apply slice_repeat; nia. }
    assert (Hrest : slice (base + (j + 1) * mio) (Z.of_nat k * mio) cells
                    = repeat 255 (Z.to_nat (Z.of_nat k * mio))).
    { replace (base + (j + 1) * mio) with (base + j * mio + mio) by lia.
      rewrite <- (slice_slice (base + j * mio) (Z.of_nat (S k) * mio))
        by nia.
      rewrite Herased. apply slice_repeat; nia. }
    assert (Estep :
      (if is_erased_page page then cells
       else store (base + j * mio) page cells)
      = store (base + j * mio) page cells).
    { destruct (is_erased_page page) eqn:Eff; [|reflexivity].
      symmetry. apply store_same_content.
      rewrite Lpage, Hff. rewrite (erased_page_is_ff page Eff).
      f_equal. unfold Zlen in Lpage. lia. }
    rewrite Estep.
    rewrite IH.
    + replace (base + (j + 1) * mio) with (base + j * mio + Zlen page)
        by (rewrite Lpage; lia).
      rewrite <- store_app by nia. f_equal.
      rewrite Esplit. rewrite slice_app_split by nia.
      unfold page. f_equal. f_equal. lia.
    + lia.
    + replace (j + 1 + Z.of_nat k) with (j + Z.of_nat (S k)) by lia.
      exact Hdata.
    + rewrite Zlen_store.
      replace (j + 1 + Z.of_nat k) with (j + Z.of_nat (S k)) by lia.
      exact Hcells.
    + rewrite slice_store_disj by (rewrite ?Lpage; nia). exact Hrest.
Qed.

End ProgramPages.

(** A block written without a failure to an erased eraseblock is there
    afterwards byte for byte: the pages that are left out because they are
    all [0xFF], and the pages behind [data_len], read as the buffer does.
    Nothing else on the flash changes. *)
Lemma eb_write_stores_block (a : Imagewrite.args)
    (mtd : Imagewrite.mtd_dev_info) (hw : Imagewrite.faults)
    (eb data_len : Z) (data : list Z) (dev : Imagewrite.nand) :
  0 < Imagewrite.min_io_size mtd ->
  0 < Imagewrite.eb_size mtd ->
  Imagewrite.eb_size mtd mod Imagewrite.min_io_size mtd = 0 ->
  Imagewrite.eb_size mtd + Imagewrite.min_io_size mtd < 2 ^ 64 ->
  0 <= data_len <= Imagewrite.eb_size mtd ->
  Zlen data = Imagewrite.eb_size mtd ->
  slice data_len (Imagewrite.eb_size mtd - data_len) data
  = repeat 255 (Z.to_nat (Imagewrite.eb_size mtd - data_len)) ->
  0 <= eb ->
  eb * Imagewrite.eb_size mtd + Imagewrite.eb_size mtd
  <= Zlen (Imagewrite.cells dev) ->
  slice (eb * Imagewrite.eb_size mtd) (Imagewrite.eb_size mtd)
        (Imagewrite.cells dev)
  = repeat 255 (Z.to_nat (Imagewrite.eb_size mtd)) ->
  (forall p, Imagewrite.write_fails hw eb p = false) ->
  let '(ret, dev') :=
    Imagewrite.eb_write a mtd hw (eb * Imagewrite.eb_size mtd) data_len data
                        dev in
  ret = 0 /\
  Imagewrite.cells dev'
  = store (eb * Imagewrite.eb_size mtd) data (Imagewrite.cells dev) /\
  slice (eb * Imagewrite.eb_size mtd) (Imagewrite.eb_size mtd)
        (Imagewrite.cells dev') = data /\
  Imagewrite.marked_bad dev' = Imagewrite.marked_bad dev.
Proof.
  intros Hmio Hebs Hmult Hwrap Hlen Hdata Hpad Heb Hfit Herased Hgood.
  set (mio := Imagewrite.min_io_size mtd) in *.
  set (ebs := Imagewrite.eb_size mtd) in *.
  set (base := eb * ebs) in *.
  assert (Ediv : base / ebs = eb) by (unfold base; apply Z.div_mul; lia).
  rewrite eb_write_no_failure;
    [ | exact Hmio | lia | fold mio; lia | fold ebs; rewrite Ediv; exact Hgood ].
  fold ebs. rewrite Ediv.
  cbn [Imagewrite.cells Imagewrite.marked_bad].
  split; [reflexivity|].
  assert (Ecells :
    program_pages mtd eb data (page_addrs a mtd data_len)
                  (Imagewrite.cells dev)
    = store base data (Imagewrite.cells dev)).
  { set (N := page_count a mtd data_len).
    (* the pages fit into the block *)
    assert (HN : 0 <= N /\ data_len <= N * mio <= ebs).
    { pose proof (page_count_bounds mio data_len Hmio (proj1 Hlen))
        as (B & Q). cbv zeta in B.
      apply Z.mod_divide in Hmult; [|lia]. destruct Hmult as [m Hm].
      assert (1 <= m) by nia.
      assert (Hqm : (data_len + mio - 1) / mio - 1 < m)
        by (apply (Z.mul_lt_mono_pos_r mio); lia).
      assert (Hqe : (data_len + mio - 1) / mio * mio <= ebs)
        by (rewrite Hm; apply Z.mul_le_mono_nonneg_r; lia).
      assert (Hme : 1 * mio <= ebs)
        by (rewrite Hm; apply Z.mul_le_mono_nonneg_r; lia).
      unfold N, page_count. fold mio.
      destruct (Imagewrite.clm a).
      - destruct (Z.max_spec ((data_len + mio - 1) / mio) 1)
          as [[Hc ->] | [Hc ->]]; [|lia].
        assert ((data_len + mio - 1) / mio * mio <= 0 * mio)
          by (apply Z.mul_le_mono_nonneg_r; lia).
        lia.
      - destruct (Z.max_spec ((data_len + mio - 1) / mio) 0)
          as [[Hc ->] | [Hc ->]]; lia. }
    unfold page_addrs. fold N.
    pose proof (program_pages_on_erased mtd eb data Hmio
                  ltac:(fold ebs; fold base; nia) (Z.to_nat N) 0
                  (Imagewrite.cells dev)) as P.
    fold mio ebs base in P. rewrite Z2Nat.id in P by lia.
    rewrite Z.mul_0_l, Z.add_0_l, Z.add_0_r in P.
    rewrite P; [ | lia | lia | lia | ].
    - (* the rest of the buffer is what erased flash holds *)
      assert (Edata : data = slice 0 (N * mio) data
                             ++ slice (N * mio) (ebs - N * mio) data).
      { rewrite <- (Z.add_0_l (N * mio)) at 2.
        rewrite <- slice_app_split by lia.
        replace (N * mio + (ebs - N * mio)) with ebs by lia.
        symmetry. apply slice_whole. exact Hdata. }
      rewrite Edata at 2.
      rewrite store_app by (unfold base; nia).
      rewrite Zlen_slice by lia.
      symmetry. apply store_same_content.
      rewrite Zlen_slice by lia.
      rewrite slice_store_disj by (rewrite ?Zlen_slice; lia).
      rewrite <- (slice_slice base ebs) by lia.
      rewrite Herased.
      rewrite slice_repeat by lia.
      pose proof (slice_slice data_len (ebs - data_len) data
                    (N * mio - data_len) (ebs - N * mio)) as S.
      replace (data_len + (N * mio - data_len)) with (N * mio) in S by lia.
      rewrite <- S by lia. rewrite Hpad. symmetry. apply slice_repeat; lia.
    - rewrite <- (Z.add_0_r base).
      rewrite <- (slice_slice base ebs) by lia.
      rewrite Herased. apply slice_repeat; lia. }
  rewrite Ecells. split; [reflexivity|]. split; [|reflexivity].
  apply slice_store_same'; [exact Hdata | unfold base; nia | exact Hfit].
Qed.

(** ** The write pass on a flash without faults *)

Section WritePass.

Variable crc : Z -> list Z -> Z.
Variable a : Imagewrite.args.
Variable mtd : Imagewrite.mtd_dev_info.
Variable hw : Imagewrite.faults.
Variable rnd : Z.

Let mio : Z := Imagewrite.min_io_size mtd.
Let ebs : Z := Imagewrite.eb_size mtd.

Hypothesis Hgeom :
  if Imagewrite.ubi a
  then 64 <= mio /\ 2 * mio + 128 * 172 <= ebs
  else 0 <= ebs.
Hypothesis Hmio : 0 < mio.
Hypothesis Hebs : 0 < ebs.
Hypothesis Hmult : ebs mod mio = 0.
Hypothesis Hwrite : forall eb p, Imagewrite.write_fails hw eb p = false.

(** The write pass over [n] erased blocks from block [s] on stores the
    blocks that the generator gives, one behind the other, and ends with the
    variables of the generator. *)
Lemma write_pass_spec (n : nat) :
  forall (s : Z) (fuel : nat) (st : Imagewrite.wstate) (dev : Imagewrite.nand),
  0 <= s ->
  (s + Z.of_nat n) * ebs <= Zlen (Imagewrite.cells dev) ->
  Zlen (Imagewrite.cells dev) + ebs + mio < 2 ^ 63 ->
  (n < fuel)%nat ->
  0 <= Imagewrite.data_left st ->
  slice (s * ebs) (Z.of_nat n * ebs) (Imagewrite.cells dev)
  = repeat 255 (Z.to_nat (Z.of_nat n * ebs)) ->
  let '(st', dev') :=
    Imagewrite.write_pass crc a mtd hw fuel rnd (s * ebs)
                          ((s + Z.of_nat n) * ebs) st dev in
  st' = snd (gen_blocks crc a mtd rnd n st) /\
  Imagewrite.cells dev'
  = store (s * ebs) (List.concat (fst (gen_blocks crc a mtd rnd n st)))
          (Imagewrite.cells dev) /\
  Imagewrite.marked_bad dev' = Imagewrite.marked_bad dev.
Proof.
  induction n as [|n IH]; intros s fuel st dev Hs Hfit Hbig Hfuel Hleft Herased.
  - destruct fuel as [|fuel]; [lia|]. cbn [Imagewrite.write_pass gen_blocks].
    rewrite Z.add_0_r, Z.ltb_irrefl. cbn [fst snd List.concat].
    rewrite store_nil. repeat split.
  - destruct fuel as [|fuel]; [lia|].
    cbn [Imagewrite.write_pass gen_blocks]. fold ebs.
    destruct (Z.ltb_spec (s * ebs) ((s + Z.of_nat (S n)) * ebs)) as [_|G];
      [|nia].
    pose proof (eb_gen_data_shape crc a mtd Hgeom ltac:(fold ebs; lia) rnd st
                  Hleft) as Shape.
    destruct (Imagewrite.eb_gen_data crc a mtd rnd st)
      as [[data_len buf] st1].
    fold ebs in Shape.
    destruct Shape as (Lbuf & Hleft1 & [(-> & _ & _) | (Hdl & Hpad & _)]).
    + (* the generator fails: the pass ends *)
      cbn [Z.ltb Z.compare fst snd List.concat]. rewrite store_nil.
      repeat split.
    + destruct (Z.ltb_spec data_len 0) as [|_]; [lia|].
      cbn [Imagewrite.write_block]. fold ebs.
      destruct (Z.ltb_spec (s * ebs) ((s + Z.of_nat (S n)) * ebs)) as [_|G];
        [|nia].
      assert (Hpeb : slice (s * ebs) ebs (Imagewrite.cells dev)
                     = repeat 255 (Z.to_nat ebs)).
      { rewrite <- (Z.add_0_r (s * ebs)).
        rewrite <- (slice_slice (s * ebs) (Z.of_nat (S n) * ebs)) by nia.
        rewrite Herased. apply slice_repeat; nia. }
      pose proof (eb_write_stores_block a mtd hw s data_len buf dev Hmio Hebs
                    Hmult ltac:(fold ebs; fold mio; lia) Hdl Lbuf Hpad Hs
                    ltac:(fold ebs; nia) Hpeb (Hwrite s)) as W.
      fold ebs in W.
      destruct (Imagewrite.eb_write a mtd hw (s * ebs) data_len buf dev)
        as [ret dev1].
      destruct W as (-> & Hcells1 & _ & Hmarks1).
      cbn [Z.eqb].
      assert (Enext : ulong (s * ebs + ebs) = (s + 1) * ebs).
      { rewrite ulong_small by nia. ring. }
      rewrite Enext.
      replace (s + Z.of_nat (S n)) with (s + 1 + Z.of_nat n) in * by lia.
      specialize (IH (s + 1) fuel st1 dev1).
      destruct (Imagewrite.write_pass crc a mtd hw fuel rnd ((s + 1) * ebs)
                  ((s + 1 + Z.of_nat n) * ebs) st1 dev1) as [st' dev'].
      destruct (gen_blocks crc a mtd rnd n st1) as [bufs st''].
      cbn [fst snd List.concat] in *.
      destruct IH as (Est & Hcells & Hmarks).
      * lia.
      * rewrite Hcells1, Zlen_store. exact Hfit.
      * rewrite Hcells1, Zlen_store. exact Hbig.
      * lia.
      * exact Hleft1.
      * rewrite Hcells1. rewrite slice_store_disj by (rewrite ?Lbuf; nia).
        replace ((s + 1) * ebs) with (s * ebs + ebs) by ring.
        rewrite <- (slice_slice (s * ebs) (Z.of_nat (S n) * ebs)) by nia.
        rewrite Herased. apply slice_repeat; nia.
      * split; [exact Est|]. split; [|congruence].
        rewrite Hcells, Hcells1.
        rewrite store_app by nia. rewrite Lbuf. f_equal. ring.
Qed.

End WritePass.

(** ** The blocks of a UBI run *)

Lemma lebs_of_prefix (leb : Z) (n : nat) : forall payload,
  0 < leb -> Zlen payload <= Z.of_nat n * leb ->
  firstn (List.length payload) (lebs_of leb n payload) = payload.
Proof.
  induction n as [|n IH]; intros payload Hleb Hfit.
  - destruct payload; [reflexivity|]. rewrite Zlen_cons in Hfit.
    pose proof (Zlen_nonneg payload). lia.
  - cbn [lebs_of].
    destruct (Z.le_gt_cases (Zlen payload) leb) as [Hshort | Hlong].
    + rewrite (firstn_all2 (n := Z.to_nat leb) payload)
        by (unfold Zlen in Hshort; lia).
      rewrite firstn_app, Nat.sub_diag, firstn_O, app_nil_r.
      apply firstn_all.
    + assert (Lc : List.length (firstn (Z.to_nat leb) payload) = Z.to_nat leb)
        by (rewrite length_firstn; unfold Zlen in Hlong; lia).
      assert (Zc : Zlen (firstn (Z.to_nat leb) payload) = leb)
        by (unfold Zlen; rewrite Lc; lia).
      rewrite Zc, Z.sub_diag. cbn [Z.to_nat repeat app].
      rewrite firstn_app, Lc.
      rewrite firstn_firstn, Nat.min_r by (unfold Zlen in Hlong; lia).
      replace (List.length payload - Z.to_nat leb)%nat
        with (List.length (skipn (Z.to_nat leb) payload))
        by (rewrite length_skipn; reflexivity).
      rewrite IH.
      * apply firstn_skipn.
      * exact Hleb.
      * unfold Zlen in *. rewrite length_skipn. lia.
Qed.

Lemma Zlen_leb_chunk (leb : Z) (payload : list Z) (k : Z) :
  0 <= leb -> Zlen (leb_chunk leb payload k) = leb.
Proof.
  intros Hleb. unfold leb_chunk. cbv zeta. rewrite Zlen_app.
  assert (Zlen (firstn (Z.to_nat leb)
                  (skipn (Z.to_nat (k * leb)) payload)) <= leb)
    by (unfold Zlen; rewrite length_firstn; lia).
  pose proof (Zlen_nonneg (firstn (Z.to_nat leb)
                             (skipn (Z.to_nat (k * leb)) payload))).
  rewrite Zlen_repeat by lia. lia.
Qed.

Lemma lebs_of_snoc (leb : Z) (n : nat) : forall payload,
  0 <= leb ->
  lebs_of leb (S n) payload
  = lebs_of leb n payload ++ leb_chunk leb payload (Z.of_nat n).
Proof.
  induction n as [|n IH]; intros payload Hleb.
  - cbn [lebs_of]. unfold leb_chunk. cbn [Z.of_nat Z.mul Z.to_nat skipn app].
    rewrite !app_nil_r. reflexivity.
  - change (lebs_of leb (S (S n)) payload)
      with (let chunk := firstn (Z.to_nat leb) payload in
            chunk ++ repeat 255 (Z.to_nat (leb - Zlen chunk))
            ++ lebs_of leb (S n) (skipn (Z.to_nat leb) payload)).
    cbv zeta. rewrite IH by exact Hleb. cbn [lebs_of].
    rewrite <- !app_assoc. do 3 f_equal.
    unfold leb_chunk. rewrite skipn_skipn.
    replace (Z.to_nat (Z.of_nat n * leb) + Z.to_nat leb)%nat
      with (Z.to_nat (Z.of_nat (S n) * leb)) by nia.
    reflexivity.
Qed.

Lemma Zlen_lebs_of (leb : Z) (n : nat) : forall payload,
  0 <= leb -> Zlen (lebs_of leb n payload) = Z.of_nat n * leb.
Proof.
  induction n as [|n IH]; intros payload Hleb; [reflexivity|].
  rewrite lebs_of_snoc, Zlen_app, IH, Zlen_leb_chunk by exact Hleb. lia.
Qed.

(** What a read of [u] bytes at most gives when [k] units of the payload
    were read before: unit [k] of the payload. *)
Lemma source_chunk (a : Imagewrite.args) (total : Z) (src : list Z)
    (u plen k : Z) :
  0 < u -> 0 <= k -> 0 <= plen ->
  source_ok a total src u plen ->
  let used := Z.min plen (k * u) in
  firstn (Z.to_nat (Z.min (total - used) u)) (skipn (Z.to_nat used) src)
  = firstn (Z.to_nat u) (skipn (Z.to_nat (k * u)) (firstn (Z.to_nat plen) src)).
Proof.
  intros Hu Hk Hplen Hsrc. cbv zeta.
  assert (0 <= k * u) by nia.
  destruct (Z.le_gt_cases (k * u) plen) as [Hin | Hout].
  - assert (Emin : Z.min plen (k * u) = k * u) by lia.
    rewrite !Emin. clear Emin.
    rewrite skipn_firstn_comm, firstn_firstn.
    destruct Hsrc as [[E1 E2] | (_ & E1 & E2)].
    + f_equal. lia.
    + rewrite Z.min_r by lia.
      destruct (Z.le_gt_cases u (plen - k * u)).
      * f_equal. lia.
      * rewrite (firstn_all2 (n := Z.to_nat u))
          by (rewrite length_skipn; unfold Zlen in *; lia).
        rewrite (firstn_all2 (n := Nat.min _ _))
          by (rewrite length_skipn; unfold Zlen in *; lia).
        reflexivity.
  - assert (Emin : Z.min plen (k * u) = plen) by lia.
    rewrite !Emin. clear Emin.
    rewrite (skipn_all2 (n := Z.to_nat (k * u)))
      by (rewrite length_firstn; lia).
    rewrite firstn_nil.
    destruct Hsrc as [[E1 E2] | (_ & E1 & E2)].
    + rewrite E1, Z.sub_diag, Z.min_l by lia. reflexivity.
    + rewrite skipn_all2 by (unfold Zlen in *; lia). apply firstn_nil.
Qed.

(** The payload and erased flash behind it, cut into units. *)
Lemma lebs_of_padded (leb : Z) (n : nat) : forall payload,
  0 < leb -> Zlen payload <= Z.of_nat n * leb ->
  lebs_of leb n payload
  = payload ++ repeat 255 (Z.to_nat (Z.of_nat n * leb - Zlen payload)).
Proof.
  induction n as [|n IH]; intros payload Hleb Hfit.
  - destruct payload; [reflexivity|]. rewrite Zlen_cons in Hfit.
    pose proof (Zlen_nonneg payload). lia.
  - cbn [lebs_of]. pose proof (Zlen_nonneg payload) as Hp.
    destruct (Z.le_gt_cases (Zlen payload) leb) as [Hshort | Hlong].
    + rewrite (firstn_all2 (n := Z.to_nat leb) payload)
        by (unfold Zlen in Hshort; lia).
      rewrite (skipn_all2 (n := Z.to_nat leb))
        by (unfold Zlen in Hshort; lia).
      rewrite IH by (rewrite ?Zlen_nil; nia).
      rewrite Zlen_nil, Z.sub_0_r. cbn [app]. f_equal.
      rewrite <- repeat_app. f_equal. nia.
    + assert (Zc : Zlen (firstn (Z.to_nat leb) payload) = leb)
        by (apply Zlen_firstn; lia).
      rewrite Zc, Z.sub_diag. cbn [Z.to_nat repeat app].
      rewrite IH by (rewrite ?Zlen_skipn by lia; lia).
      rewrite Zlen_skipn by lia.
      rewrite app_assoc, firstn_skipn. f_equal. f_equal. lia.
Qed.

Section UbiRun.

Variable crc : Z -> list Z -> Z.
Variable a : Imagewrite.args.
Variable mtd : Imagewrite.mtd_dev_info.
Variable rnd total : Z.
Variable src : list Z.
Variable plen : Z.

Let mio : Z := Imagewrite.min_io_size mtd.
Let ebs : Z := Imagewrite.eb_size mtd.
Let leb : Z := leb_size_of mtd.
Let v : Z := Imagewrite.vol_lebs a.

Hypothesis Hubi : Imagewrite.ubi a = true.
Hypothesis Hmio : 64 <= mio.
Hypothesis Hfit : 2 * mio + 128 * 172 <= ebs.
Hypothesis Hebs : ebs < 2 ^ 31.
Hypothesis Hv : 0 <= v < 2 ^ 62.
Hypothesis Hplen : 0 <= plen <= v * leb.
Hypothesis Htotal : total < 2 ^ 64.
Hypothesis Hsrc : source_ok a total src leb plen.

Lemma leb_positive : 0 < leb.
Proof. unfold leb, leb_size_of. fold mio ebs. lia. Qed.

Lemma ubi_used_bounds (i : Z) :
  0 <= ubi_used leb plen i <= plen /\ ubi_used leb plen i <= Zlen src /\
  ubi_used leb plen i <= total.
Proof.
  pose proof leb_positive as L. unfold ubi_used.
  assert (0 <= Z.max 0 (i - 2) * leb) by nia.
  destruct Hsrc as [[E1 E2] | (_ & E1 & E2)]; lia.
Qed.

(** The call for block [i]: it succeeds, and the variables afterwards are
    those before block [i + 1]. *)
Lemma ubi_step_state (i : Z) :
  0 <= i < 2 ^ 62 ->
  exists data_len buf,
    Imagewrite.eb_gen_data crc a mtd rnd (ubi_state rnd total src leb plen i)
    = (data_len, buf, ubi_state rnd total src leb plen (i + 1)) /\
    0 <= data_len.
Proof.
  intros Hi. pose proof leb_positive as Hleb.
  assert (Hm2 : 0 <= Imagewrite.min_io_size mtd * 2 < 2 ^ 64)
    by (fold mio; lia).
  assert (Hv2 : ulong (Imagewrite.vol_lebs a + 2) = v + 2)
    by (fold v; apply ulong_small; lia).
  assert (Hseq : seq_of rnd (ubi_state rnd total src leb plen i) = u32 rnd).
  { unfold seq_of, ubi_state. cbn [Imagewrite.image_seq].
    destruct (i =? 0); [reflexivity|].
    destruct (u32 rnd =? 0) eqn:E; [|reflexivity].
    apply Z.eqb_eq in E. now rewrite E. }
  assert (Hnext : (if i + 1 =? 0 then 0 else u32 rnd) = u32 rnd).
  { destruct (Z.eqb_spec (i + 1) 0); [lia|reflexivity]. }
  assert (Hblk : ulong (i + 1) = i + 1) by (apply ulong_small; lia).
  pose proof (ubi_used_bounds i) as (U1 & U2 & U3).
  destruct (Z.lt_ge_cases i 2) as [Hlay | Hnolay].
  - (* layout volume: nothing is read *)
    rewrite (eb_gen_data_layout crc a mtd Hubi Hm2)
      by (cbn [Imagewrite.blk_no ubi_state]; exact Hlay).
    destruct (Imagewrite.fill_vtbl crc a 128 0 _ _) as [e b] eqn:F.
    exists e, b. rewrite Hseq.
    pose proof (fill_vtbl_spec crc a 128 0 (2 * Imagewrite.min_io_size mtd)
                  (with_vid crc mtd
                     (layout_vid crc
                        (Imagewrite.blk_no
                           (ubi_state rnd total src leb plen i))) rnd
                     (ubi_state rnd total src leb plen i))) as S.
    rewrite F in S. rewrite Zlen_with_vid in S by (fold mio ebs; lia).
    destruct S as (He & _); [fold mio; lia | fold mio ebs; lia |].
    split; [|fold mio in He; lia].
    f_equal. unfold ubi_state at 1 2 3.
    cbn [Imagewrite.blk_no Imagewrite.ifd Imagewrite.data_left].
    unfold ubi_state. rewrite Hblk, Hnext.
    assert (E : ubi_used leb plen (i + 1) = ubi_used leb plen i)
      by (unfold ubi_used; rewrite !Z.max_l by lia; reflexivity).
    rewrite E. reflexivity.
  - destruct (Z.lt_ge_cases i (v + 2)) as [Hvol | Htrail].
    + (* a LEB of the volume *)
      rewrite (eb_gen_data_volume crc a mtd Hubi Hm2)
        by (cbn [Imagewrite.blk_no ubi_state]; rewrite Hv2; lia).
      cbv zeta. fold mio ebs.
      rewrite (ulong_small (ebs - 2 * mio)) by lia.
      unfold ubi_state at 1 2 3. cbn [Imagewrite.data_left Imagewrite.ifd].
      set (used := ubi_used leb plen i) in *.
      set (n := if total - used >? ebs - 2 * mio then ebs - 2 * mio
                else total - used).
      assert (Eleb : ebs - 2 * mio = leb) by reflexivity.
      assert (Hn : n = Z.min (total - used) leb).
      { unfold n. rewrite Eleb.
        destruct (Z.gtb_spec (total - used) leb); lia. }
      assert (Lrest : Zlen (skipn (Z.to_nat used) src) = Zlen src - used)
        by (apply Zlen_skipn; lia).
      assert (Hused' : ubi_used leb plen (i + 1)
                       = used + Z.min n (Zlen src - used)).
      { unfold used, ubi_used in *.
        rewrite (Z.max_r 0 (i - 2)) in * by lia.
        rewrite (Z.max_r 0 (i + 1 - 2)) by lia.
        destruct Hsrc as [[E1 E2] | (_ & E1 & E2)]; nia. }
      rewrite data_read_ok.
      * rewrite Lrest.
        destruct (Z.ltb_spec (Z.min n (Zlen src - used)) 0); [lia|].
        exists (Z.min n (Zlen src - used) + 2 * mio).
        eexists. rewrite Hseq. split; [|lia].
        f_equal. unfold ubi_state.
        cbn [Imagewrite.blk_no Imagewrite.data_left].
        rewrite Hblk, Hnext, Hused'.
        fold used.
        rewrite (ulong_small (total - used - Z.min n (Zlen src - used)))
          by lia.
        f_equal; [|lia]. f_equal.
        destruct (Z.le_gt_cases n (Zlen src - used)).
        -- rewrite Z.min_l by lia. rewrite skipn_skipn. f_equal. lia.
        -- (* the read went to the end of the input *)
           rewrite Z.min_r by lia.
           rewrite (skipn_all2 (n := Z.to_nat n))
             by (rewrite length_skipn; unfold Zlen in *; lia).
           rewrite skipn_all2 by (unfold Zlen in *; lia).
           reflexivity.
      * lia.
      * rewrite Lrest. destruct Hsrc as [[E1 E2] | (Mode & E1 & E2)].
        -- left. lia.
        -- right. exact Mode.
    + (* behind the volume: nothing is read any more *)
      rewrite (eb_gen_data_trailing crc a mtd Hubi Hm2)
        by (cbn [Imagewrite.blk_no ubi_state]; rewrite ?Hv2; lia).
      exists UbiMedia.UBI_EC_HDR_SIZE. eexists. rewrite Hseq.
      split; [|unfold UbiMedia.UBI_EC_HDR_SIZE; lia].
      f_equal. unfold ubi_state at 1 2 3.
      cbn [Imagewrite.blk_no Imagewrite.ifd Imagewrite.data_left].
      unfold ubi_state. rewrite Hblk, Hnext.
      assert (E : ubi_used leb plen (i + 1) = ubi_used leb plen i).
      { unfold ubi_used. rewrite !Z.max_r by lia. nia. }
      rewrite E. reflexivity.
Qed.

Lemma ubi_step (i : Z) :
  0 <= i < 2 ^ 62 ->
  exists data_len,
    Imagewrite.eb_gen_data crc a mtd rnd (ubi_state rnd total src leb plen i)
    = (data_len, ubi_block crc a mtd rnd total src plen i,
       ubi_state rnd total src leb plen (i + 1)) /\
    0 <= data_len.
Proof.
  intros Hi. destruct (ubi_step_state i Hi) as (dl & buf & E & Hdl).
  exists dl. split; [|exact Hdl].
  unfold ubi_block. fold leb. rewrite E. reflexivity.
Qed.

(** The blocks of [n] calls from block [i] on. *)
Lemma gen_blocks_ubi (n : nat) : forall i,
  0 <= i -> i + Z.of_nat n <= 2 ^ 62 ->
  gen_blocks crc a mtd rnd n (ubi_state rnd total src leb plen i)
  = (map (ubi_block crc a mtd rnd total src plen) (ebs_from i n),
     ubi_state rnd total src leb plen (i + Z.of_nat n)).
Proof.
  induction n as [|n IH]; intros i Hi Hn.
  - cbn. rewrite Z.add_0_r. reflexivity.
  - cbn [gen_blocks]. destruct (ubi_step i) as (dl & E & Hdl); [lia|].
    rewrite E. destruct (Z.ltb_spec dl 0); [lia|].
    rewrite IH by lia. rewrite ebs_from_S. cbn [map].
    f_equal. f_equal. lia.
Qed.

(** *** What the blocks hold *)

Let payload : list Z := firstn (Z.to_nat plen) src.

Lemma ubi_block_layout_eq (i : Z) :
  0 <= i < 2 ->
  ubi_block crc a mtd rnd total src plen i
  = snd (Imagewrite.fill_vtbl crc a 128 0 (2 * mio)
           (with_vid crc mtd (layout_vid crc i) rnd
                     (ubi_state rnd total src leb plen i))).
Proof.
  intros Hi. unfold ubi_block. fold leb.
  rewrite (eb_gen_data_layout crc a mtd Hubi)
    by (fold mio; cbn [Imagewrite.blk_no ubi_state]; lia).
  fold mio. cbn [Imagewrite.blk_no ubi_state].
  destruct (Imagewrite.fill_vtbl crc a 128 0 _ _). reflexivity.
Qed.

Lemma ubi_block_trailing_eq (i : Z) :
  v + 2 <= i ->
  ubi_block crc a mtd rnd total src plen i
  = ec_only crc mtd rnd (ubi_state rnd total src leb plen i).
Proof.
  intros Hi. unfold ubi_block. fold leb.
  rewrite (eb_gen_data_trailing crc a mtd Hubi)
    by (fold mio v; rewrite ?(ulong_small (v + 2)) by lia;
        cbn [Imagewrite.blk_no ubi_state]; lia).
  reflexivity.
Qed.

(** The bytes read for block [i] are LEB [i - 2] of the payload. *)
Lemma ubi_chunk (i : Z) :
  2 <= i ->
  let used := ubi_used leb plen i in
  firstn (Z.to_nat (Z.min (total - used) leb)) (skipn (Z.to_nat used) src)
  = firstn (Z.to_nat leb) (skipn (Z.to_nat ((i - 2) * leb)) payload).
Proof.
  intros Hi. cbv zeta. unfold ubi_used. rewrite Z.max_r by lia.
  apply (source_chunk a); [apply leb_positive | lia | lia | exact Hsrc].
Qed.

Lemma ubi_block_volume_eq (i : Z) :
  2 <= i < v + 2 ->
  ubi_block crc a mtd rnd total src plen i
  = store (2 * mio)
      (firstn (Z.to_nat leb) (skipn (Z.to_nat ((i - 2) * leb)) payload))
      (with_vid crc mtd (volume_vid crc a i) rnd
                (ubi_state rnd total src leb plen i)).
Proof.
  intros Hi. pose proof leb_positive as Hleb.
  pose proof (ubi_used_bounds i) as (U1 & U2 & U3).
  rewrite <- ubi_chunk by lia. cbv zeta.
  unfold ubi_block. fold leb.
  rewrite (eb_gen_data_volume crc a mtd Hubi)
    by (fold mio v; rewrite ?(ulong_small (v + 2)) by lia;
        cbn [Imagewrite.blk_no ubi_state]; lia).
  cbv zeta. fold mio ebs.
  rewrite (ulong_small (ebs - 2 * mio)) by lia.
  unfold ubi_state at 1 2 3. cbn [Imagewrite.data_left Imagewrite.ifd].
  set (used := ubi_used leb plen i) in *.
  assert (Eleb : ebs - 2 * mio = leb) by reflexivity.
  rewrite Eleb.
  assert (Hn : (if total - used >? leb then leb else total - used)
               = Z.min (total - used) leb)
    by (destruct (Z.gtb_spec (total - used) leb); lia).
  rewrite Hn.
  assert (Lrest : Zlen (skipn (Z.to_nat used) src) = Zlen src - used)
    by (apply Zlen_skipn; lia).
  rewrite data_read_ok.
  - rewrite Lrest.
    destruct (Z.ltb_spec (Z.min (Z.min (total - used) leb)
                                (Zlen src - used)) 0); [lia|].
    reflexivity.
  - lia.
  - rewrite Lrest. destruct Hsrc as [[E1 E2] | (Mode & E1 & E2)].
    + left. lia.
    + right. exact Mode.
Qed.

Lemma Zlen_ubi_block (i : Z) :
  0 <= i -> Zlen (ubi_block crc a mtd rnd total src plen i) = ebs.
Proof.
  intros Hi.
  destruct (Z.lt_ge_cases i 2) as [Hlay | Hnolay];
    [|destruct (Z.lt_ge_cases i (v + 2)) as [Hvol | Htrail]].
  - rewrite ubi_block_layout_eq by lia.
    pose proof (fill_vtbl_spec crc a 128 0 (2 * mio)
                  (with_vid crc mtd (layout_vid crc i) rnd
                     (ubi_state rnd total src leb plen i))) as S.
    destruct (Imagewrite.fill_vtbl crc a 128 0 _ _) as [e b].
    rewrite Zlen_with_vid in S by (fold mio ebs; lia).
    destruct S as (_ & L & _); [lia | fold ebs; lia |]. exact L.
  - rewrite ubi_block_volume_eq by lia. rewrite Zlen_store.
    apply Zlen_with_vid; fold mio ebs; lia.
  - rewrite ubi_block_trailing_eq by lia.
    apply Zlen_ec_only; fold mio ebs; lia.
Qed.

(** Every block starts with the same EC header. *)
Lemma ubi_block_ec_bytes (i : Z) :
  0 <= i ->
  slice 0 64 (ubi_block crc a mtd rnd total src plen i)
  = Imagewrite.ubi_ec_hdr_bytes crc mtd (2 * mio) (u32 rnd).
Proof.
  intros Hi.
  assert (Hseq : seq_of rnd (ubi_state rnd total src leb plen i) = u32 rnd).
  { unfold seq_of, ubi_state. cbn [Imagewrite.image_seq].
    destruct (i =? 0); [reflexivity|].
    destruct (u32 rnd =? 0) eqn:E; [|reflexivity].
    apply Z.eqb_eq in E. now rewrite E. }
  rewrite <- Hseq.
  destruct (Z.lt_ge_cases i 2) as [Hlay | Hnolay];
    [|destruct (Z.lt_ge_cases i (v + 2)) as [Hvol | Htrail]].
  - rewrite ubi_block_layout_eq by lia.
    pose proof (fill_vtbl_spec crc a 128 0 (2 * mio)
                  (with_vid crc mtd (layout_vid crc i) rnd
                     (ubi_state rnd total src leb plen i))) as S.
    destruct (Imagewrite.fill_vtbl crc a 128 0 _ _) as [e b].
    rewrite Zlen_with_vid in S by (fold mio ebs; lia).
    destruct S as (_ & _ & _ & O); [lia | fold ebs; lia |].
    cbn [snd]. rewrite O by lia.
    apply ec_of_with_vid; fold mio ebs; lia.
  - rewrite ubi_block_volume_eq by lia.
    rewrite slice_store_disj by lia.
    apply ec_of_with_vid; fold mio ebs; lia.
  - rewrite ubi_block_trailing_eq by lia.
    apply ec_of_ec_only; fold mio ebs; lia.
Qed.

Lemma ubi_block_ec (i : Z) :
  0 <= i ->
  ec_hdr_is crc mio (2 * mio)
            (slice 0 64 (ubi_block crc a mtd rnd total src plen i)).
Proof.
  intros Hi. rewrite ubi_block_ec_bytes by exact Hi.
  apply ec_hdr_is_generated; fold mio; lia.
Qed.

(** The first two blocks belong to the layout volume. *)
Lemma ubi_block_layout_vid (i : Z) :
  0 <= i < 2 ->
  vid_hdr_is crc UbiMedia.UBI_LAYOUT_VOLUME_TYPE
             UbiMedia.UBI_LAYOUT_VOLUME_ID i
             (slice mio 64 (ubi_block crc a mtd rnd total src plen i)).
Proof.
  intros Hi. rewrite ubi_block_layout_eq by lia.
  pose proof (fill_vtbl_spec crc a 128 0 (2 * mio)
                (with_vid crc mtd (layout_vid crc i) rnd
                   (ubi_state rnd total src leb plen i))) as S.
  destruct (Imagewrite.fill_vtbl crc a 128 0 _ _) as [e b].
  rewrite Zlen_with_vid in S by (fold mio ebs; lia).
  destruct S as (_ & _ & _ & O); [lia | fold ebs; lia |].
  cbn [snd]. rewrite O by lia.
  unfold mio. rewrite vid_of_layout_block by (fold mio ebs; lia).
  unfold layout_vid.
  apply vid_hdr_is_generated; [vm_compute; split; congruence | lia].
Qed.

(** Record [k] of the volume table in the first two blocks. *)
Lemma ubi_block_record (i k : Z) :
  0 <= i < 2 -> 0 <= k < 128 ->
  slice (2 * mio + k * 172) 172
        (ubi_block crc a mtd rnd total src plen i)
  = Imagewrite.ubi_vtbl_record_bytes crc a k.
Proof.
  intros Hi Hk. rewrite ubi_block_layout_eq by lia.
  pose proof (fill_vtbl_spec crc a 128 0 (2 * mio)
                (with_vid crc mtd (layout_vid crc i) rnd
                   (ubi_state rnd total src leb plen i))) as S.
  destruct (Imagewrite.fill_vtbl crc a 128 0 _ _) as [e b].
  rewrite Zlen_with_vid in S by (fold mio ebs; lia).
  destruct S as (_ & _ & R & _); [lia | fold ebs; lia |].
  cbn [snd]. rewrite R by lia. f_equal.
Qed.

(** The blocks of the volume carry its number and their LEB. *)
Lemma ubi_block_volume_vid (i : Z) :
  2 <= i < v + 2 -> i - 2 < 2 ^ 32 -> 0 <= Imagewrite.vol_id a < 2 ^ 32 ->
  vid_hdr_is crc UbiMedia.UBI_VID_DYNAMIC (Imagewrite.vol_id a) (i - 2)
             (slice mio 64 (ubi_block crc a mtd rnd total src plen i)).
Proof.
  intros Hi Hi32 Hvid. rewrite ubi_block_volume_eq by lia.
  pose proof leb_positive as Hleb.
  rewrite slice_store_disj by lia.
  unfold mio. rewrite vid_of_volume_block by (fold mio ebs; lia).
  unfold volume_vid. rewrite (ulong_small (i - 2)) by lia.
  apply vid_hdr_is_generated; lia.
Qed.

(** Their data area is the LEB of the payload, filled up with [0xFF]. *)
Lemma ubi_block_data (i : Z) :
  2 <= i < v + 2 ->
  slice (2 * mio) leb (ubi_block crc a mtd rnd total src plen i)
  = leb_chunk leb payload (i - 2).
Proof.
  intros Hi. rewrite ubi_block_volume_eq by lia.
  pose proof leb_positive as Hleb.
  unfold leb_chunk. cbv zeta.
  set (chunk := firstn (Z.to_nat leb)
                  (skipn (Z.to_nat ((i - 2) * leb)) payload)).
  assert (Lc : 0 <= Zlen chunk <= leb)
    by (unfold chunk, Zlen; rewrite length_firstn; lia).
  assert (Eleb : leb = ebs - 2 * mio) by reflexivity.
  replace leb with (Zlen chunk + (leb - Zlen chunk)) at 1 by lia.
  rewrite slice_app_split by lia. f_equal.
  - apply slice_store_same; [lia|].
    rewrite Zlen_with_vid by (fold mio ebs; lia). fold ebs. lia.
  - rewrite slice_store_disj by lia.
    unfold with_vid, ec_only. fold mio ebs.
    rewrite slice_store_disj
      by (rewrite ?Zlen_volume_vid; lia).
    rewrite slice_store_disj by (rewrite ?Zlen_ec_hdr; lia).
    apply slice_repeat; lia.
Qed.

(** Behind the volume the blocks have erased flash for a VID header. *)
Lemma ubi_block_blank (i : Z) :
  v + 2 <= i ->
  slice mio 64 (ubi_block crc a mtd rnd total src plen i) = repeat 255 64.
Proof.
  intros Hi. rewrite ubi_block_trailing_eq by lia.
  unfold ec_only. fold mio ebs.
  rewrite slice_store_disj by (rewrite ?Zlen_ec_hdr; lia).
  change 64%nat with (Z.to_nat 64). apply slice_repeat; lia.
Qed.

Lemma ubi_block_rest (i : Z) :
  v + 2 <= i ->
  slice 64 (ebs - 64) (ubi_block crc a mtd rnd total src plen i)
  = repeat 255 (Z.to_nat (ebs - 64)).
Proof.
  intros Hi. rewrite ubi_block_trailing_eq by lia.
  apply rest_of_ec_only; fold mio ebs; lia.
Qed.

End UbiRun.

(** ** The extractor on well-formed eraseblocks *)

Section ReadHeaders.

Variable crc : Z -> list Z -> Z.
Variable xa : Deubinize.args.

(** An eraseblock with a well-formed EC header and a well-formed VID header
    is accepted: [read_headers] reports the volume and the logical
    eraseblock, and leaves the descriptor at the data. *)
Lemma read_headers_accepts (file : list Z) (pos : Z) (imi : Deubinize.img_info)
    (vo d t vol l : Z) :
  0 <= pos -> 64 <= vo -> vo + 64 <= d < 2 ^ 32 ->
  d < u32 (Deubinize.peb_size xa) ->
  Zlen (slice pos 64 file) = 64 ->
  Zlen (slice (pos + vo) 64 file) = 64 ->
  ec_hdr_is crc vo d (slice pos 64 file) ->
  vid_hdr_is crc t vol l (slice (pos + vo) 64 file) ->
  Deubinize.read_headers crc xa file pos imi
  = Deubinize.Ok (pos + d,
                  Deubinize.mk_img_info (Deubinize.size imi) vo d vol l).
Proof.
  intros Hpos Hvo Hd Hpeb Lec Lvid (M & _ & V & D & C) (M' & _ & _ & I & L & C').
  unfold crc_ok, get32 in *. unfold Deubinize.read_headers.
  unfold_media. change (64 - 4) with 60 in *. cbv zeta.
  rewrite Lec, M, C, V, D. rewrite !Z.eqb_refl. cbn [negb].
  destruct (Z.geb_spec d (u32 (Deubinize.peb_size xa))); [lia|].
  rewrite (to_long_small (vo - 64)) by lia.
  replace (pos + 64 + (vo - 64)) with (pos + vo) by lia.
  destruct (Z.ltb_spec (pos + vo) 0); [lia|].
  rewrite Lvid, M', C', I, L. rewrite !Z.eqb_refl. cbn [negb].
  change (UbiMedia.UBI_VID_HDR_MAGIC =? 4294967295) with false. cbv iota.
  rewrite (to_long_small (d - (vo + 64))) by lia.
  destruct (Z.ltb_spec (pos + vo + 64 + (d - (vo + 64))) 0); [lia|].
  do 2 f_equal. lia.
Qed.

(** An eraseblock with a well-formed EC header and erased flash in the
    place of the VID header is passed over as empty. *)
Lemma read_headers_blank (file : list Z) (pos : Z) (imi : Deubinize.img_info)
    (vo d : Z) :
  0 <= pos -> 64 <= vo < 2 ^ 32 ->
  d < u32 (Deubinize.peb_size xa) ->
  Zlen (slice pos 64 file) = 64 ->
  ec_hdr_is crc vo d (slice pos 64 file) ->
  slice (pos + vo) 64 file = repeat 255 64 ->
  Deubinize.read_headers crc xa file pos imi
  = Deubinize.Ok (pos + vo + 64,
                  Deubinize.mk_img_info (Deubinize.size imi) vo d
                                        0xffffffff 0xffffffff).
Proof.
  intros Hpos Hvo Hpeb Lec (M & _ & V & D & C) Hblank.
  unfold crc_ok, get32 in *. unfold Deubinize.read_headers.
  unfold_media. change (64 - 4) with 60 in *. cbv zeta.
  rewrite Lec, M, C, V, D. rewrite !Z.eqb_refl. cbn [negb].
  destruct (Z.geb_spec d (u32 (Deubinize.peb_size xa))); [lia|].
  rewrite (to_long_small (vo - 64)) by lia.
  replace (pos + 64 + (vo - 64)) with (pos + vo) by lia.
  destruct (Z.ltb_spec (pos + vo) 0); [lia|].
  rewrite Hblank. reflexivity.
Qed.

End ReadHeaders.

(** ** The search of the volume table by name *)

Lemma strncmp_eq_empty (n : nat) (name field : list Z) :
  0 < strlen name -> hd 0 field = 0 ->
  strncmp_eq (S n) name field = false.
Proof.
  intros Hname Hfield. cbn [strncmp_eq]. rewrite Hfield.
  destruct name as [|c name]; [cbn in Hname; lia|].
  cbn [hd]. unfold strlen in Hname. cbn [strlen_nat] in Hname.
  destruct (c =? 0); [cbn in Hname; lia | reflexivity].
Qed.

Lemma strncmp_eq_name (n : nat) : forall (name : list Z) (k : nat),
  strncmp_eq n name (firstn (strlen_nat name) name ++ repeat 0 (S k)) = true.
Proof.
  induction n as [|n IH]; intros name k; [reflexivity|].
  cbn [strncmp_eq]. destruct name as [|c name].
  - reflexivity.
  - cbn [strlen_nat hd]. destruct (Z.eqb_spec c 0) as [-> | Hc].
    + reflexivity.
    + cbn [firstn app hd tl]. rewrite Z.eqb_refl.
      destruct (Z.eqb_spec c 0); [contradiction|]. apply IH.
Qed.

Section FindName.

Variable crc : Z -> list Z -> Z.

Lemma empty_record_name (r : list Z) :
  vtbl_record_is_empty crc r ->
  hd 0 (slice 16 128 r) = 0.
Proof.
  intros [Z0 _]. revert Z0. unfold_media. change (172 - 4) with 168.
  intros Z0.
  replace (slice 16 128 r) with (slice 16 128 (slice 0 168 r))
    by (rewrite slice_slice by lia; reflexivity).
  rewrite Z0. reflexivity.
Qed.

(** When the slots before [vol] are empty and slot [vol] holds the record
    of a volume of this name, the search by name ends at [vol]. *)
Lemma find_name_finds (name file : list Z) (pos vol rp : Z) :
  0 < strlen name <= 127 ->
  (forall k, 0 <= k <= vol -> Zlen (slice (pos + k * 172) 172 file) = 172) ->
  (forall k, 0 <= k < vol ->
     vtbl_record_is_empty crc (slice (pos + k * 172) 172 file)) ->
  vtbl_record_is crc rp name (slice (pos + vol * 172) 172 file) ->
  forall (d : nat) (n : nat) (i : Z),
    0 <= i -> i + Z.of_nat d = vol -> (d < n)%nat ->
    Deubinize.find_name crc n name file (pos + i * 172) i = Deubinize.Ok vol.
Proof.
  intros Hname Hlen Hempty Hrec.
  induction d as [|d IH]; intros n i Hi Hd Hn.
  - destruct n as [|n]; [lia|]. cbn [Deubinize.find_name]. unfold_media.
    assert (i = vol) as -> by lia.
    rewrite Hlen by lia. rewrite Z.eqb_refl. cbn [negb].
    destruct Hrec as (_ & _ & _ & _ & N & C).
    unfold crc_ok, get32 in C. revert N C. unfold_media.
    change (172 - 4) with 168. intros N C.
    rewrite C, Z.eqb_refl. cbn [negb]. rewrite N.
    replace (Z.to_nat (127 + 1 - strlen name))
      with (S (Z.to_nat (127 - strlen name))) by lia.
    rewrite strncmp_eq_name. reflexivity.
  - destruct n as [|n]; [lia|]. cbn [Deubinize.find_name]. unfold_media.
    rewrite Hlen by lia. rewrite Z.eqb_refl. cbn [negb].
    pose proof (Hempty i ltac:(lia)) as E.
    pose proof (empty_record_name _ E) as H0.
    destruct E as [_ C]. unfold crc_ok, get32 in C. revert C. unfold_media.
    change (172 - 4) with 168. intros C.
    rewrite C, Z.eqb_refl. cbn [negb].
    change (Z.to_nat 127) with (S 126).
    rewrite strncmp_eq_empty by (try exact H0; lia).
    replace (pos + i * 172 + 172) with (pos + (i + 1) * 172) by lia.
    apply IH; lia.
Qed.

End FindName.

(** ** The extractor on the image of a UBI run *)

Lemma pwrite_at_end (buf out : list Z) :
  Deubinize.pwrite (Zlen out) buf out = out ++ buf.
Proof.
  unfold Deubinize.pwrite, store.
  destruct (Z.ltb_spec (Zlen out) 0) as [H | _];
    [pose proof (Zlen_nonneg out); lia|].
  replace (Z.to_nat (Zlen out + Zlen buf - Zlen out))
    with (List.length buf) by (unfold Zlen; lia).
  unfold Zlen. rewrite Nat2Z.id.
  induction out as [|x out IH]; cbn [List.length app store_nat].
  - induction buf as [|y buf IHb]; [reflexivity|].
    cbn [List.length repeat store_nat]. f_equal. exact IHb.
  - f_equal. exact IH.
Qed.

Lemma ebs_from_ge (s : Z) (n : nat) (j : Z) : In j (ebs_from s n) -> s <= j.
Proof.
  unfold ebs_from. rewrite in_map_iff. intros (k & <- & _). lia.
Qed.

(** A file of blocks of the same size, block by block. *)
Lemma slice_concat_blocks (f : Z -> list Z) (ebs : Z) (n : nat) :
  forall s i,
  0 <= ebs ->
  (forall j, s <= j -> Zlen (f j) = ebs) ->
  0 <= i < Z.of_nat n ->
  slice (i * ebs) ebs (List.concat (map f (ebs_from s n))) = f (s + i).
Proof.
  induction n as [|n IH]; intros s i Hebs Hlen Hi; [lia|].
  rewrite ebs_from_S. cbn [map List.concat].
  destruct (Z.eq_dec i 0) as [-> | Hi0].
  - rewrite Z.mul_0_l, Z.add_0_r.
    rewrite slice_app_left by (rewrite ?Hlen; lia).
    apply slice_whole. apply Hlen. lia.
  - rewrite slice_app_right by (rewrite ?Hlen by lia; nia).
    rewrite Hlen by lia.
    replace (i * ebs - ebs) with ((i - 1) * ebs) by lia.
    rewrite IH; [f_equal; lia | lia | intros; apply Hlen; lia | lia].
Qed.

Lemma Zlen_concat_blocks (f : Z -> list Z) (ebs : Z) (n : nat) :
  forall s,
  (forall j, s <= j -> Zlen (f j) = ebs) ->
  Zlen (List.concat (map f (ebs_from s n))) = Z.of_nat n * ebs.
Proof.
  induction n as [|n IH]; intros s Hlen; [reflexivity|].
  rewrite ebs_from_S. cbn [map List.concat].
  rewrite Zlen_app, Hlen, IH by (try (intros; apply Hlen); lia). lia.
Qed.

Lemma strlen_nat_le (name : list Z) :
  (strlen_nat name <= List.length name)%nat.
Proof.
  induction name as [|c name IH]; cbn [strlen_nat List.length]; [lia|].
  destruct (c =? 0); lia.
Qed.

Lemma strnlen_field : forall (name : list Z) (m k : nat),
  (strlen_nat name <= m)%nat ->
  strnlen_nat m (firstn (strlen_nat name) name ++ repeat 0 (S k))
  = strlen_nat name.
Proof.
  induction name as [|c name IH]; intros m k Hm.
  - destruct m; reflexivity.
  - cbn [strlen_nat] in *. destruct (Z.eqb_spec c 0) as [-> | Hc].
    + destruct m; reflexivity.
    + destruct m as [|m]; [lia|].
      cbn [firstn app strnlen_nat].
      destruct (Z.eqb_spec c 0); [contradiction|].
      f_equal. apply IH. lia.
Qed.

Lemma firstn_field (name : list Z) (k : nat) :
  firstn (strlen_nat name) (firstn (strlen_nat name) name ++ repeat 0 k)
  = firstn (strlen_nat name) name.
Proof.
  pose proof (strlen_nat_le name) as L.
  rewrite firstn_app, length_firstn, Nat.min_l by exact L.
  rewrite Nat.sub_diag, firstn_O, app_nil_r.
  rewrite firstn_firstn, Nat.min_id. reflexivity.
Qed.

Section ReadBack.

Variable crc : Z -> list Z -> Z.
Variable a : Imagewrite.args.
Variable mtd : Imagewrite.mtd_dev_info.
Variable rnd total : Z.
Variable src : list Z.
Variable plen : Z.
Variable n : nat.

Let mio : Z := Imagewrite.min_io_size mtd.
Let ebs : Z := Imagewrite.eb_size mtd.
Let leb : Z := leb_size_of mtd.
Let v : Z := Imagewrite.vol_lebs a.
Let payload : list Z := firstn (Z.to_nat plen) src.
Let file : list Z := ubi_image crc a mtd rnd total src plen n.

Hypothesis Hubi : Imagewrite.ubi a = true.
Hypothesis Hmio : 64 <= mio.
Hypothesis Hfit : 2 * mio + 128 * 172 <= ebs.
Hypothesis Hebs : ebs < 2 ^ 31.
Hypothesis Hv : 0 <= v.
Hypothesis Hwrap : v * leb <= 2 ^ 32.
Hypothesis Hplen : 0 <= plen <= v * leb.
Hypothesis Htotal : total < 2 ^ 64.
Hypothesis Hsrc : source_ok a total src leb plen.
Hypothesis Hvid : 0 <= Imagewrite.vol_id a < 128.
Hypothesis Hn : v + 2 <= Z.of_nat n.

Lemma readback_leb : 0 < leb.
Proof. unfold leb, leb_size_of. fold mio ebs. lia. Qed.

Lemma readback_v32 : 0 <= v < 2 ^ 32.
Proof.
  assert (2 <= leb) by (unfold leb, leb_size_of; fold mio ebs; lia).
  split; [exact Hv | nia].
Qed.

Lemma readback_v : 0 <= v < 2 ^ 62.
Proof. pose proof readback_v32. lia. Qed.

Ltac ubi_side :=
  first [assumption | apply readback_v | lia
        | pose proof readback_v32; lia].

Lemma Zlen_file : Zlen file = Z.of_nat n * ebs.
Proof.
  unfold file, ubi_image. apply Zlen_concat_blocks. intros j Hj.
  apply Zlen_ubi_block; ubi_side.
Qed.

(** What the file holds in eraseblock [i]. *)
Lemma file_block (i off len : Z) :
  0 <= i < Z.of_nat n -> 0 <= off -> 0 <= len -> off + len <= ebs ->
  slice (i * ebs + off) len file
  = slice off len (ubi_block crc a mtd rnd total src plen i).
Proof.
  intros Hi Hoff Hlen Hin.
  rewrite <- (slice_slice (i * ebs) ebs file off len) by nia.
  f_equal. unfold file, ubi_image.
  rewrite slice_concat_blocks; [f_equal | fold ebs; lia | | lia].
  intros j Hj.
  apply Zlen_ubi_block; ubi_side.
Qed.

Lemma Zlen_file_slice (i off len : Z) :
  0 <= i < Z.of_nat n -> 0 <= off -> 0 <= len -> off + len <= ebs ->
  Zlen (slice (i * ebs + off) len file) = len.
Proof.
  intros Hi Hoff Hlen Hin. apply Zlen_slice; [nia | lia |].
  rewrite Zlen_file. nia.
Qed.

Lemma file_ec (i : Z) :
  0 <= i < Z.of_nat n ->
  ec_hdr_is crc mio (2 * mio) (slice (i * ebs) 64 file).
Proof.
  intros Hi. replace (i * ebs) with (i * ebs + 0) by lia.
  rewrite file_block by lia.
  apply ubi_block_ec; ubi_side.
Qed.

(** The extractor on the eraseblocks of the layout volume, ... *)
Lemma read_layout (xa : Deubinize.args) (i : Z) (imi : Deubinize.img_info) :
  Deubinize.peb_size xa = ebs ->
  0 <= i < 2 ->
  Deubinize.read_headers crc xa file (i * ebs) imi
  = Deubinize.Ok (i * ebs + 2 * mio,
                  Deubinize.mk_img_info (Deubinize.size imi) mio (2 * mio)
                    UbiMedia.UBI_LAYOUT_VOLUME_ID i).
Proof.
  intros Hpeb Hi.
  apply (read_headers_accepts crc xa file (i * ebs) imi mio (2 * mio)
           UbiMedia.UBI_LAYOUT_VOLUME_TYPE); try lia.
  - nia.
  - rewrite Hpeb, u32_small; lia.
  - replace (i * ebs) with (i * ebs + 0) by lia.
    apply Zlen_file_slice; lia.
  - apply Zlen_file_slice; lia.
  - apply file_ec. lia.
  - rewrite file_block by lia.
    apply ubi_block_layout_vid; ubi_side.
Qed.

(** ... of the volume, ... *)
Lemma read_volume (xa : Deubinize.args) (i : Z) (imi : Deubinize.img_info) :
  Deubinize.peb_size xa = ebs ->
  2 <= i < v + 2 ->
  Deubinize.read_headers crc xa file (i * ebs) imi
  = Deubinize.Ok (i * ebs + 2 * mio,
                  Deubinize.mk_img_info (Deubinize.size imi) mio (2 * mio)
                    (Imagewrite.vol_id a) (i - 2)).
Proof.
  intros Hpeb Hi.
  apply (read_headers_accepts crc xa file (i * ebs) imi mio (2 * mio)
           UbiMedia.UBI_VID_DYNAMIC); try lia.
  - nia.
  - rewrite Hpeb, u32_small; lia.
  - replace (i * ebs) with (i * ebs + 0) by lia.
    apply Zlen_file_slice; lia.
  - apply Zlen_file_slice; lia.
  - apply file_ec. lia.
  - rewrite file_block by lia.
    apply ubi_block_volume_vid; ubi_side.
Qed.

(** ... and behind it. *)
Lemma read_blank (xa : Deubinize.args) (i : Z) (imi : Deubinize.img_info) :
  Deubinize.peb_size xa = ebs ->
  v + 2 <= i < Z.of_nat n ->
  Deubinize.read_headers crc xa file (i * ebs) imi
  = Deubinize.Ok (i * ebs + mio + 64,
                  Deubinize.mk_img_info (Deubinize.size imi) mio (2 * mio)
                    0xffffffff 0xffffffff).
Proof.
  intros Hpeb Hi.
  apply (read_headers_blank crc xa file (i * ebs) imi mio (2 * mio));
    try lia.
  - nia.
  - rewrite Hpeb, u32_small; lia.
  - replace (i * ebs) with (i * ebs + 0) by lia.
    apply Zlen_file_slice; lia.
  - apply file_ec. lia.
  - rewrite file_block by lia.
    apply ubi_block_blank; ubi_side.
Qed.

(** The loop of [extract_volume_data] from eraseblock [i] on. *)
Lemma extract_loop_ubi (xa : Deubinize.args) (imi : Deubinize.img_info) :
  Deubinize.peb_size xa = ebs ->
  Deubinize.size imi = Z.of_nat n * ebs ->
  Deubinize.vol_index xa = Imagewrite.vol_id a ->
  forall (k : nat) (i : Z) (fuel : nat),
    0 <= i -> i + Z.of_nat k = Z.of_nat n -> (k < fuel)%nat ->
    Deubinize.extract_loop crc xa fuel file imi leb (i * ebs)
      (lebs_of leb (lebs_before v i) payload)
    = (0, lebs_of leb (Z.to_nat v) payload).
Proof.
  intros Hpeb Hsize Hix. pose proof readback_leb as Hleb.
  assert (Eleb : leb = ebs - 2 * mio) by reflexivity.
  induction k as [|k IH]; intros i fuel Hi Hk Hfuel.
  - destruct fuel as [|fuel]; [lia|]. cbn [Deubinize.extract_loop].
    rewrite Hsize. destruct (Z.ltb_spec (i * ebs) (Z.of_nat n * ebs)); [nia|].
    f_equal. f_equal. unfold lebs_before. lia.
  - destruct fuel as [|fuel]; [lia|]. cbn [Deubinize.extract_loop].
    rewrite Hsize. destruct (Z.ltb_spec (i * ebs) (Z.of_nat n * ebs)); [|nia].
    rewrite Hpeb. replace (i * ebs + ebs) with ((i + 1) * ebs) by lia.
    assert (Hu : u32 (Deubinize.vol_index xa) = Imagewrite.vol_id a)
      by (rewrite Hix; apply u32_small; lia).
    destruct (Z.lt_ge_cases i 2) as [Hlay | Hnolay];
      [|destruct (Z.lt_ge_cases i (v + 2)) as [Hvol | Htrail]].
    + rewrite (read_layout xa) by (try exact Hpeb; lia). cbn [Deubinize.vol_id]. rewrite Hu.
      destruct (Z.eqb_spec UbiMedia.UBI_LAYOUT_VOLUME_ID
                           (Imagewrite.vol_id a)) as [E | _].
      { revert E. unfold UbiMedia.UBI_LAYOUT_VOLUME_ID,
          UbiMedia.UBI_INTERNAL_VOL_START. lia. }
      cbn [negb].
      replace (lebs_before v i) with (lebs_before v (i + 1))
        by (unfold lebs_before; lia).
      apply IH; lia.
    + rewrite (read_volume xa) by (try exact Hpeb; lia). cbn [Deubinize.vol_id Deubinize.lnum].
      rewrite Hu, Z.eqb_refl. cbn [negb].
      rewrite Zlen_file_slice by lia.
      rewrite Z.eqb_refl. cbn [negb].
      rewrite u32_small by nia.
      rewrite file_block by lia.
      unfold mio, leb.
      rewrite ubi_block_data by ubi_side.
      fold leb payload.
      assert (Em : i - 2 = Z.of_nat (lebs_before v i))
        by (unfold lebs_before; lia).
      rewrite Em.
      rewrite <- (Zlen_lebs_of leb (lebs_before v i) payload) by lia.
      rewrite pwrite_at_end.
      rewrite <- lebs_of_snoc by lia.
      replace (S (lebs_before v i)) with (lebs_before v (i + 1))
        by (unfold lebs_before; lia).
      apply IH; lia.
    + rewrite (read_blank xa) by (try exact Hpeb; lia). cbn [Deubinize.vol_id]. rewrite Hu.
      destruct (Z.eqb_spec 4294967295 (Imagewrite.vol_id a)) as [E | _];
        [lia|].
      cbn [negb].
      replace (lebs_before v i) with (lebs_before v (i + 1))
        by (unfold lebs_before; lia).
      apply IH; lia.
Qed.

(** The records of the volume table, as the extractor finds them behind
    the headers of the first eraseblock. *)
Lemma file_record (k : Z) :
  0 <= k < 128 ->
  slice (2 * mio + k * 172) 172 file
  = Imagewrite.ubi_vtbl_record_bytes crc a k.
Proof.
  intros Hk. replace (2 * mio + k * 172) with (0 * ebs + (2 * mio + k * 172))
    by lia.
  rewrite file_block by lia.
  apply ubi_block_record; ubi_side.
Qed.

Lemma read_ubi_info_by_name (xa : Deubinize.args) (name : list Z) :
  Deubinize.peb_size xa = ebs ->
  Imagewrite.vol_name a = Some name ->
  Deubinize.vol_name xa = Some name ->
  0 < strlen name <= 127 ->
  Deubinize.read_ubi_info crc xa file
    (Deubinize.mk_img_info (Zlen file) 0 0 0 0)
  = Deubinize.Ok
      (Deubinize.mk_args (Deubinize.f_in xa) (Deubinize.f_out xa) ebs
         (Imagewrite.vol_id a) (Some name) (Deubinize.skip_bad xa)
         (Deubinize.verbose xa),
       Deubinize.mk_img_info (Zlen file) mio (2 * mio)
         UbiMedia.UBI_LAYOUT_VOLUME_ID 0).
Proof.
  intros Hpeb Hwname Hxname Hname.
  unfold Deubinize.read_ubi_info.
  replace (Z.to_nat (Deubinize.size
                       (Deubinize.mk_img_info (Zlen file) 0 0 0 0)
                     / Deubinize.peb_size xa) + 1)%nat
    with (S (Z.to_nat (Zlen file / ebs)))
    by (rewrite Hpeb; cbn [Deubinize.size]; lia).
  cbn [Deubinize.find_layout].
  replace 0 with (0 * ebs) at 1 by lia.
  rewrite (read_layout xa) by (try exact Hpeb; lia).
  cbn [Deubinize.vol_id Deubinize.size]. rewrite Z.eqb_refl.
  rewrite Hxname. unfold_media.
  replace (0 * ebs + 2 * mio) with (2 * mio + 0 * 172) by lia.
  rewrite (find_name_finds crc name file (2 * mio) (Imagewrite.vol_id a)
             (u32 v) Hname) with (d := Z.to_nat (Imagewrite.vol_id a)).
  - rewrite ?Hpeb, ?Hxname. reflexivity.
  - intros k Hk. rewrite file_record by lia. apply Zlen_vtbl_record.
  - intros k Hk. rewrite file_record by lia.
    apply vtbl_record_other. lia.
  - rewrite file_record by lia.
    replace name with (Imagewrite.the_vol_name a)
      by (unfold Imagewrite.the_vol_name; rewrite Hwname; reflexivity).
    apply vtbl_record_volume.
    unfold Imagewrite.the_vol_name. rewrite Hwname.
    unfold UbiMedia.UBI_VOL_NAME_MAX. lia.
  - lia.
  - lia.
  - change (Z.to_nat 128) with 128%nat. lia.
Qed.

(** Asked for the volume by its index, [read_ubi_info] finds the name. *)
Lemma read_ubi_info_by_index (xa : Deubinize.args) (name : list Z) :
  Deubinize.peb_size xa = ebs ->
  Imagewrite.vol_name a = Some name ->
  Deubinize.vol_name xa = None ->
  Deubinize.vol_index xa = Imagewrite.vol_id a ->
  0 < strlen name <= 127 ->
  Deubinize.read_ubi_info crc xa file
    (Deubinize.mk_img_info (Zlen file) 0 0 0 0)
  = Deubinize.Ok
      (Deubinize.mk_args (Deubinize.f_in xa) (Deubinize.f_out xa) ebs
         (Imagewrite.vol_id a) (Some (firstn (strlen_nat name) name))
         (Deubinize.skip_bad xa) (Deubinize.verbose xa),
       Deubinize.mk_img_info (Zlen file) mio (2 * mio)
         UbiMedia.UBI_LAYOUT_VOLUME_ID 0).
Proof.
  intros Hpeb Hwname Hxname Hix Hname.
  unfold Deubinize.read_ubi_info.
  replace (Z.to_nat (Deubinize.size
                       (Deubinize.mk_img_info (Zlen file) 0 0 0 0)
                     / Deubinize.peb_size xa) + 1)%nat
    with (S (Z.to_nat (Zlen file / ebs)))
    by (rewrite Hpeb; cbn [Deubinize.size]; lia).
  cbn [Deubinize.find_layout].
  replace 0 with (0 * ebs) at 1 by lia.
  rewrite (read_layout xa) by (try exact Hpeb; lia).
  cbn [Deubinize.vol_id Deubinize.size]. rewrite Z.eqb_refl.
  rewrite Hxname, Hix. unfold_media. cbv zeta.
  replace (0 * ebs + 2 * mio + Imagewrite.vol_id a * 172)
    with (2 * mio + Imagewrite.vol_id a * 172) by lia.
  destruct (Z.ltb_spec (2 * mio + Imagewrite.vol_id a * 172) 0); [lia|].
  rewrite file_record by lia.
  rewrite Zlen_vtbl_record, Z.eqb_refl. cbn [negb].
  assert (Hrec : vtbl_record_is crc (u32 v) name
                   (Imagewrite.ubi_vtbl_record_bytes crc a
                      (Imagewrite.vol_id a))).
  { replace name with (Imagewrite.the_vol_name a)
      by (unfold Imagewrite.the_vol_name; rewrite Hwname; reflexivity).
    apply vtbl_record_volume.
    unfold Imagewrite.the_vol_name. rewrite Hwname.
    unfold UbiMedia.UBI_VOL_NAME_MAX. lia. }
  destruct Hrec as (_ & _ & _ & _ & N & C).
  unfold crc_ok, get32 in C. revert N C. unfold_media.
  change (172 - 4) with 168. intros N C.
  rewrite C, Z.eqb_refl. cbn [negb]. rewrite N.
  replace (Z.to_nat (127 + 1 - strlen name))
    with (S (Z.to_nat (127 - strlen name))) by lia.
  rewrite strnlen_field by (unfold strlen in Hname; lia).
  destruct (Nat.eqb_spec (strlen_nat name) 0) as [E | _];
    [unfold strlen in Hname; lia|].
  rewrite firstn_field, Hpeb. reflexivity.
Qed.

(** The extractor, asked for the volume by its name, gives the LEBs of the
    payload. *)
Lemma deubinize_by_name (xa : Deubinize.args) (name : list Z) :
  Deubinize.peb_size xa = ebs ->
  Imagewrite.vol_name a = Some name ->
  Deubinize.vol_name xa = Some name ->
  0 < strlen name <= 127 ->
  Deubinize.main crc xa (Some file)
  = (Deubinize.EXIT_SUCCESS, Some (lebs_of leb (Z.to_nat v) payload)).
Proof.
  intros Hpeb Hwname Hxname Hname.
  unfold Deubinize.main. cbv zeta.
  rewrite (read_ubi_info_by_name xa name Hpeb Hwname Hxname Hname).
  rewrite Hpeb, Zlen_file.
  destruct (Z.eqb_spec (Z.of_nat n * ebs) 0) as [E | _]; [nia|].
  rewrite Z.mod_mul by lia. cbn [Z.eqb negb orb].
  unfold Deubinize.extract_volume_data.
  cbn [Deubinize.peb_size Deubinize.data_offset Deubinize.size].
  rewrite (u32_small (ebs - 2 * mio)) by lia.
  rewrite Z.div_mul by lia.
  change (ebs - 2 * mio) with leb.
  pose proof (extract_loop_ubi
                (Deubinize.mk_args (Deubinize.f_in xa) (Deubinize.f_out xa)
                   ebs (Imagewrite.vol_id a) (Some name)
                   (Deubinize.skip_bad xa) (Deubinize.verbose xa))
                (Deubinize.mk_img_info (Z.of_nat n * ebs) mio (2 * mio)
                   UbiMedia.UBI_LAYOUT_VOLUME_ID 0)
                eq_refl eq_refl eq_refl n 0 (Z.to_nat (Z.of_nat n) + 1)%nat)
    as L.
  rewrite Z.mul_0_l in L. replace (lebs_before v 0) with O in L
    by (unfold lebs_before; lia).
  cbn [lebs_of] in L. rewrite L by lia. reflexivity.
Qed.

(** The same when it is asked for the volume by its index. *)
Lemma deubinize_by_index (xa : Deubinize.args) (name : list Z) :
  Deubinize.peb_size xa = ebs ->
  Imagewrite.vol_name a = Some name ->
  Deubinize.vol_name xa = None ->
  Deubinize.vol_index xa = Imagewrite.vol_id a ->
  0 < strlen name <= 127 ->
  Deubinize.main crc xa (Some file)
  = (Deubinize.EXIT_SUCCESS, Some (lebs_of leb (Z.to_nat v) payload)).
Proof.
  intros Hpeb Hwname Hxname Hix Hname.
  unfold Deubinize.main. cbv zeta.
  rewrite (read_ubi_info_by_index xa name Hpeb Hwname Hxname Hix Hname).
  rewrite Hpeb, Zlen_file.
  destruct (Z.eqb_spec (Z.of_nat n * ebs) 0) as [E | _]; [nia|].
  rewrite Z.mod_mul by lia. cbn [Z.eqb negb orb].
  unfold Deubinize.extract_volume_data.
  cbn [Deubinize.peb_size Deubinize.data_offset Deubinize.size].
  rewrite (u32_small (ebs - 2 * mio)) by lia.
  rewrite Z.div_mul by lia.
  change (ebs - 2 * mio) with leb.
  pose proof (extract_loop_ubi
                (Deubinize.mk_args (Deubinize.f_in xa) (Deubinize.f_out xa)
                   ebs (Imagewrite.vol_id a)
                   (Some (firstn (strlen_nat name) name))
                   (Deubinize.skip_bad xa) (Deubinize.verbose xa))
                (Deubinize.mk_img_info (Z.of_nat n * ebs) mio (2 * mio)
                   UbiMedia.UBI_LAYOUT_VOLUME_ID 0)
                eq_refl eq_refl eq_refl n 0 (Z.to_nat (Z.of_nat n) + 1)%nat)
    as L.
  rewrite Z.mul_0_l in L.
  replace (lebs_before v 0) with O in L
    by (unfold lebs_before; lia).
  cbn [lebs_of] in L. rewrite L by lia. reflexivity.
Qed.

End ReadBack.

(** ** A UBI run of [main] on a flash without faults *)

Lemma erased_window (ebs : Z) (cells : list Z) (n : nat) : forall s,
  0 <= ebs -> 0 <= s ->
  (forall eb, s <= eb < s + Z.of_nat n ->
     slice (eb * ebs) ebs cells = repeat 255 (Z.to_nat ebs)) ->
  slice (s * ebs) (Z.of_nat n * ebs) cells
  = repeat 255 (Z.to_nat (Z.of_nat n * ebs)).
Proof.
  induction n as [|n IH]; intros s Hebs Hs Hblk; [reflexivity|].
  replace (Z.of_nat (S n) * ebs) with (ebs + Z.of_nat n * ebs) by lia.
  rewrite slice_app_split, repeat_app_Z by nia.
  f_equal; [apply Hblk; lia|].
  replace (s * ebs + ebs) with ((s + 1) * ebs) by lia.
  apply IH; [lia | lia |]. intros eb Heb. apply Hblk. lia.
Qed.

Section UbiMain.

Variable crc : Z -> list Z -> Z.
Variable a : Imagewrite.args.
Variable w : Imagewrite.env.
Variable dev : Imagewrite.nand.
Variable mtd : Imagewrite.mtd_dev_info.
Variable name src : list Z.
Variable image_size plen npebs : Z.

Let mio : Z := Imagewrite.min_io_size mtd.
Let ebs : Z := Imagewrite.eb_size mtd.
Let leb : Z := leb_size_of mtd.
Let s : Z := Imagewrite.start a.
Let n : Z :=
  if Imagewrite.blocks a =? 0 then npebs - s else Imagewrite.blocks a.
Let v : Z := Imagewrite.resolve_vol_lebs (n - 2) (Imagewrite.vol_lebs a).
Let total : Z := if image_size =? 0 then ulong (-1) else image_size.
Let a' : Imagewrite.args := Imagewrite.set_vol_lebs a v.
Let rnd : Z := Imagewrite.rand_seq w.

Hypothesis Hubi : Imagewrite.ubi a = true.
Hypothesis Hname : Imagewrite.vol_name a = Some name.
Hypothesis Hlen : strlen name <= 127.
Hypothesis Hdev : Imagewrite.dev_info w = Some mtd.
Hypothesis Hmio : 64 <= mio.
Hypothesis Hmult : ebs mod mio = 0.
Hypothesis Hfit : 2 * mio + 128 * 172 <= ebs.
Hypothesis Hebs : ebs < 2 ^ 31.
Hypothesis Hsize : Imagewrite.size mtd = npebs * ebs.
Hypothesis Hcells : Zlen (Imagewrite.cells dev) = Imagewrite.size mtd.
Hypothesis Hsmall : Imagewrite.size mtd < 2 ^ 62.
Hypothesis Hstart : 0 <= s.
Hypothesis Hblocks : 0 <= Imagewrite.blocks a.
Hypothesis Hwin : s + n <= npebs.
Hypothesis Hboth :
  is_set (Imagewrite.img_file a) && Imagewrite.std_in a = false.
Hypothesis Hinput :
  Imagewrite.open_input a w = inr (Imagewrite.fd_open src, image_size).
Hypothesis Himg : 0 <= image_size < 2 ^ 64.
Hypothesis Hv : 0 <= v <= n - 2.
Hypothesis Hplen : 0 <= plen <= v * leb.
Hypothesis Hsrc : source_ok a total src leb plen.
Hypothesis Hhw : fault_free (Imagewrite.hw w).
Hypothesis Hmarks : Imagewrite.marked_bad dev = [].

Lemma ubi_main_leb : 22016 <= leb < 2 ^ 31.
Proof. unfold leb, leb_size_of. fold mio ebs. lia. Qed.

Lemma ubi_main_npebs : 0 <= npebs /\ 2 <= n /\ (s + n) * ebs < 2 ^ 62.
Proof.
  assert (0 < ebs) by lia.
  assert (2 <= n) by lia.
  split; [lia|]. split; [lia|]. nia.
Qed.

Lemma ubi_main_vleb : 0 <= v * leb < 2 ^ 62 /\ 0 <= v < 2 ^ 62.
Proof.
  destruct ubi_main_npebs as (Hnp & Hn & Hend).
  pose proof ubi_main_leb as Hleb.
  assert (leb <= ebs) by (unfold leb, leb_size_of; fold mio ebs; lia).
  assert (0 <= s * ebs) by nia.
  assert (v * leb <= n * leb) by nia.
  assert (n * leb <= n * ebs) by nia.
  assert (v <= v * leb) by nia.
  split; [nia|]. split; [lia|]. nia.
Qed.

Lemma ubi_main_window :
  Imagewrite.window_start a mtd = s * ebs /\
  Imagewrite.window_end a mtd = (s + n) * ebs.
Proof.
  destruct ubi_main_npebs as (Hnp & Hn & Hend).
  assert (0 < ebs) by lia.
  unfold Imagewrite.window_start, Imagewrite.window_end,
    Imagewrite.window_start.
  fold s ebs. rewrite (ulong_small (s * ebs)) by nia.
  split; [reflexivity|]. unfold n in *.
  destruct (Z.eqb_spec (Imagewrite.blocks a) 0) as [E | E].
  - rewrite Hsize. rewrite ulong_small by nia.
    assert (s + (npebs - s) <= npebs) by lia.
    f_equal. lia.
  - rewrite (ulong_small (Imagewrite.blocks a * ebs)) by nia.
    rewrite ulong_small by nia. lia.
Qed.

(** When the input is bounded, its size is the size of the payload; when
    it is not, the size of the image is unknown. *)
Lemma ubi_main_image_size : image_size <= v * leb.
Proof.
  pose proof ubi_main_leb as Hleb.
  destruct Hsrc as [[E1 E2] | (Mode & E1 & E2)].
  - unfold total in E1. destruct (Z.eqb_spec image_size 0); lia.
  - apply andb_true_iff in Mode. destruct Mode as [Hstd Hlen0].
    apply Z.eqb_eq in Hlen0.
    revert Hinput. unfold Imagewrite.open_input. rewrite Hstd.
    destruct (negb (Imagewrite.skip a =? 0)); [discriminate|].
    intros E. injection E as _ E. nia.
Qed.

Lemma prepare_ubi :
  Imagewrite.prepare a w
  = inr (Imagewrite.mk_run a' mtd (s * ebs) ((s + n) * ebs) image_size
                           (Imagewrite.fd_open src)).
Proof.
  destruct ubi_main_npebs as (Hnp & Hn & Hend).
  destruct ubi_main_window as (Ws & We).
  pose proof ubi_main_leb as Hleb.
  pose proof ubi_main_image_size as Hfits.
  destruct ubi_main_vleb as (Hvl & Hv32).
  assert (0 < ebs) by lia.
  unfold Imagewrite.prepare. rewrite Hboth, Hubi, Hname, Hdev.
  cbn [is_set negb andb]. rewrite andb_false_r.
  rewrite Ws, We. fold ebs. rewrite Hsize.
  rewrite (ulong_small (npebs * ebs - ebs)) by nia.
  rewrite (ulong_small (npebs * ebs)) by nia.
  destruct (Z.gtb_spec (s * ebs) (npebs * ebs - ebs)); [nia|].
  destruct (Z.gtb_spec ((s + n) * ebs) (npebs * ebs)); [nia|].
  rewrite Hinput.
  unfold Imagewrite.check_geometry. rewrite Hubi, Hname. cbv zeta.
  assert (Tot : Imagewrite.tot_lebs_of mtd (s * ebs) ((s + n) * ebs) = n - 2).
  { destruct (tot_lebs_of_value mtd (s * ebs) ((s + n) * ebs)) as [T _];
      [fold ebs; lia|].
    rewrite T. fold ebs.
    replace ((s + n) * ebs - s * ebs) with (n * ebs) by lia.
    rewrite ulong_small by nia. rewrite Z.div_mul by lia. reflexivity. }
  rewrite Tot. fold v. fold mio ebs.
  replace (ebs - mio * 2) with leb by (unfold leb, leb_size_of; lia).
  rewrite (ulong_small leb) by lia.
  destruct (Z.ltb_spec v 0); [lia|].
  destruct (Z.gtb_spec v (n - 2)); [lia|]. cbn [orb].
  rewrite (ulong_small (v * leb)) by lia.
  destruct (Z.gtb_spec image_size (v * leb)); [lia|].
  unfold UbiMedia.UBI_VOL_NAME_MAX.
  destruct (Z.gtb_spec (strlen name) 127); [lia|].
  rewrite (ulong_small v) by lia. reflexivity.
Qed.

Lemma ubi_main_total : 0 <= total < 2 ^ 64.
Proof.
  unfold total. destruct (Z.eqb_spec image_size 0); [|lia].
  apply ulong_range.
Qed.

(** The run ends with success; the window of the flash holds the image,
    and nothing changes outside of it. *)
Lemma main_ubi_flash :
  let '(status, dev') := Imagewrite.main crc a w dev in
  status = Imagewrite.EXIT_SUCCESS /\
  Zlen (Imagewrite.cells dev') = Zlen (Imagewrite.cells dev) /\
  slice (s * ebs) (n * ebs) (Imagewrite.cells dev')
  = ubi_image crc a' mtd rnd total src plen (Z.to_nat n) /\
  (forall o m, 0 <= o -> 0 <= m ->
     o + m <= s * ebs \/ (s + n) * ebs <= o ->
     slice o m (Imagewrite.cells dev') = slice o m (Imagewrite.cells dev)) /\
  Imagewrite.marked_bad dev' = [].
Proof.
  destruct ubi_main_npebs as (Hnp & Hn & Hend).
  pose proof ubi_main_leb as Hleb.
  destruct ubi_main_vleb as (Hvl & Hv62).
  pose proof ubi_main_total as Htot.
  assert (Hebs0 : 0 < ebs) by lia.
  assert (Hcl : Zlen (Imagewrite.cells dev) = npebs * ebs) by congruence.
  assert (En : n = Z.of_nat (Z.to_nat n)) by lia.
  unfold Imagewrite.main. rewrite prepare_ubi.
  cbn [Imagewrite.r_mtd Imagewrite.r_start Imagewrite.r_end
       Imagewrite.r_image_size Imagewrite.r_args].
  assert (Hfuel : Imagewrite.window_fuel
                    (Imagewrite.mk_run a' mtd (s * ebs) ((s + n) * ebs)
                       image_size (Imagewrite.fd_open src))
                  = (Z.to_nat n + 2)%nat).
  { unfold Imagewrite.window_fuel.
    cbn [Imagewrite.r_mtd Imagewrite.r_start Imagewrite.r_end]. fold ebs.
    replace ((s + n) * ebs - s * ebs) with (n * ebs) by lia.
    rewrite ulong_small by nia. rewrite Z.div_mul by lia. reflexivity. }
  assert (Hubi' : Imagewrite.ubi a' = true) by exact Hubi.
  rewrite Hubi'. cbn [negb]. rewrite andb_false_r.
  unfold Imagewrite.write_all.
  cbn [Imagewrite.r_mtd Imagewrite.r_start Imagewrite.r_end
       Imagewrite.r_image_size Imagewrite.r_args].
  rewrite Hfuel. fold rnd.
  assert (St0 : Imagewrite.initial_wstate
                  (Imagewrite.mk_run a' mtd (s * ebs) ((s + n) * ebs)
                     image_size (Imagewrite.fd_open src))
                = ubi_state rnd total src leb plen 0).
  { unfold Imagewrite.initial_wstate, ubi_state, ubi_used.
    cbn [Imagewrite.r_ifd Imagewrite.r_image_size Z.eqb].
    change (Z.max 0 (0 - 2) * leb) with 0.
    rewrite Z.min_r by lia. rewrite Z.sub_0_r. reflexivity. }
  rewrite St0.
  (* the erase pass *)
  assert (Eend : (s + n) * ebs = (s + Z.of_nat (Z.to_nat n)) * ebs)
    by (f_equal; lia).
  rewrite !Eend.
  rewrite erase_pass_spec;
    [ | fold ebs; lia | apply Hhw | apply Hhw | lia | fold ebs; nia | lia
      | exact Hmarks ].
  destruct (erase_good_blocks (Imagewrite.hw w) mtd (Z.to_nat n) s
              (Imagewrite.cells dev)) as (Le & Hin & Hout);
    [fold ebs; lia | lia | fold ebs; nia |].
  fold ebs in Hin, Hout.
  set (dev1 := Imagewrite.mk_nand _ _ _).
  (* the write pass *)
  pose proof (write_pass_spec crc a' mtd (Imagewrite.hw w) rnd) as W.
  specialize (W ltac:(rewrite Hubi'; fold mio ebs; lia)
                ltac:(fold mio; lia) ltac:(fold ebs; lia) Hmult
                ltac:(intros eb p; apply Hhw)).
  specialize (W (Z.to_nat n) s (Z.to_nat n + 2)%nat
                (ubi_state rnd total src leb plen 0) dev1).
  fold ebs mio in W.
  destruct (Imagewrite.write_pass crc a' mtd (Imagewrite.hw w)
              (Z.to_nat n + 2) rnd (s * ebs)
              ((s + Z.of_nat (Z.to_nat n)) * ebs)
              (ubi_state rnd total src leb plen 0) dev1) as [st' dev'].
  destruct W as (Est & Ecells & Emarks).
  { lia. }
  { unfold dev1. cbn [Imagewrite.cells]. rewrite Le. nia. }
  { unfold dev1. cbn [Imagewrite.cells]. rewrite Le. lia. }
  { lia. }
  { cbn [Imagewrite.data_left ubi_state].
    assert (Hsrc' : source_ok a' total src leb plen) by exact Hsrc.
    pose proof (ubi_used_bounds a' mtd total src plen) as U.
    unfold ubi_used. unfold ubi_used in U. fold leb in U.
    change (Z.max 0 (0 - 2) * leb) with 0. lia. }
  { unfold dev1. cbn [Imagewrite.cells].
    apply erased_window; [lia | lia |].
    intros eb Heb. rewrite Hin by lia.
    destruct (Hhw eb) as (B & _). rewrite B. reflexivity. }
  (* the blocks *)
  assert (Hsrc' : source_ok a' total src (leb_size_of mtd) plen)
    by exact Hsrc.
  pose proof (gen_blocks_ubi crc a' mtd rnd total src plen Hubi'
                ltac:(fold mio; exact Hmio) ltac:(fold mio ebs; exact Hfit)
                ltac:(fold ebs; exact Hebs) ltac:(exact Hv62)
                ltac:(exact Hplen) ltac:(lia) Hsrc' (Z.to_nat n) 0
                ltac:(lia) ltac:(lia)) as G.
  fold leb in G. rewrite G in Est, Ecells. cbn [fst snd] in Est, Ecells.
  fold (ubi_image crc a' mtd rnd total src plen (Z.to_nat n)) in Ecells.
  assert (Limg : Zlen (ubi_image crc a' mtd rnd total src plen (Z.to_nat n))
                 = n * ebs).
  { unfold ubi_image. rewrite (Zlen_concat_blocks _ ebs).
    - lia.
    - intros j Hj.
      apply (Zlen_ubi_block crc a' mtd rnd total src plen); try assumption;
        lia. }
  unfold dev1 in Ecells, Emarks. cbn [Imagewrite.cells Imagewrite.marked_bad]
    in Ecells, Emarks.
  assert (Hexit : (Imagewrite.data_left st' =? 0) || (image_size =? 0)
                  = true).
  { rewrite Est. cbn [Imagewrite.data_left ubi_state].
    rewrite Z.add_0_l, <- En.
    assert (Eu : ubi_used leb plen n = plen).
    { unfold ubi_used. rewrite Z.max_r by lia.
      assert (v * leb <= (n - 2) * leb) by nia. lia. }
    rewrite Eu.
    destruct Hsrc as [[E1 E2] | (Mode & E1 & E2)].
    - rewrite E1, Z.sub_diag. reflexivity.
    - apply andb_true_iff in Mode. destruct Mode as [Hstd Hlen0].
      apply Z.eqb_eq in Hlen0.
      revert Hinput. unfold Imagewrite.open_input. rewrite Hstd.
      destruct (negb (Imagewrite.skip a =? 0)); [discriminate|].
      intros E. injection E as _ E. rewrite <- E, Hlen0.
      apply orb_true_r. }
  rewrite Hexit.
  split; [reflexivity|]. rewrite Ecells, Emarks.
  split; [rewrite Zlen_store; exact Le|].
  split; [|split; [|reflexivity]].
  - rewrite <- Limg. apply slice_store_same; [nia|].
    rewrite Limg, Le. nia.
  - intros o m Ho Hm Hdisj.
    rewrite slice_store_disj by (rewrite ?Limg; lia).
    apply Hout; lia.
Qed.

(** The eraseblocks of the window, one by one. *)
Lemma main_ubi_pebs :
  let '(status, dev') := Imagewrite.main crc a w dev in
  status = Imagewrite.EXIT_SUCCESS /\
  Zlen (Imagewrite.cells dev') = Zlen (Imagewrite.cells dev) /\
  forall i, 0 <= i < n ->
    slice ((s + i) * ebs) ebs (Imagewrite.cells dev')
    = ubi_block crc a' mtd rnd total src plen i.
Proof.
  pose proof main_ubi_flash as M.
  destruct (Imagewrite.main crc a w dev) as [status dev'].
  destruct M as (St & Len & Img & _).
  split; [exact St|]. split; [exact Len|].
  intros i Hi.
  destruct ubi_main_npebs as (Hnp & Hn & Hend).
  destruct ubi_main_vleb as (Hvl & Hv62).
  pose proof ubi_main_total as Htot.
  replace ((s + i) * ebs) with (s * ebs + i * ebs) by lia.
  rewrite <- (slice_slice (s * ebs) (n * ebs)) by nia.
  rewrite Img. unfold ubi_image.
  rewrite slice_concat_blocks; [f_equal | lia | | lia].
  intros j Hj.
  apply (Zlen_ubi_block crc a' mtd rnd total src plen); try assumption;
    lia.
Qed.

(** *** Writing a volume and reading it back *)

Variable xa : Deubinize.args.

Hypothesis Hname0 : 0 < strlen name.
Hypothesis Hvid : 0 <= Imagewrite.vol_id a < 128.
Hypothesis Hwrap : v * leb <= 2 ^ 32.
Hypothesis Hpeb : Deubinize.peb_size xa = ebs.
Hypothesis Hask :
  Deubinize.vol_name xa = Some name \/
  (Deubinize.vol_name xa = None /\
   Deubinize.vol_index xa = Imagewrite.vol_id a).

Lemma ubi_round_trip_lebs :
  let '(status, dev') := Imagewrite.main crc a w dev in
  status = Imagewrite.EXIT_SUCCESS /\
  Deubinize.main crc xa
    (Some (slice (s * ebs) (n * ebs) (Imagewrite.cells dev')))
  = (Deubinize.EXIT_SUCCESS,
     Some (lebs_of leb (Z.to_nat v) (firstn (Z.to_nat plen) src))).
Proof.
  pose proof main_ubi_flash as M.
  destruct (Imagewrite.main crc a w dev) as [status dev'].
  destruct M as (-> & _ & Himg' & _). split; [reflexivity|].
  rewrite Himg'.
  destruct ubi_main_npebs as (Hnp & Hn & Hend).
  pose proof ubi_main_total as Htot.
  assert (Hsrc' : source_ok a' total src (leb_size_of mtd) plen)
    by exact Hsrc.
  assert (Hubi' : Imagewrite.ubi a' = true) by exact Hubi.
  assert (Hname' : Imagewrite.vol_name a' = Some name) by exact Hname.
  destruct Hask as [Hx | [Hx Hix]].
  - apply (deubinize_by_name crc a' mtd rnd total src plen (Z.to_nat n))
      with (name := name); try assumption;
      change (Imagewrite.vol_lebs a') with v; lia.
  - apply (deubinize_by_index crc a' mtd rnd total src plen (Z.to_nat n))
      with (name := name); try assumption;
      change (Imagewrite.vol_lebs a') with v; lia.
Qed.

End UbiMain.

(** ** The blocks of a raw run *)

Lemma store_prefix {A} (x : A) (s : list A) (n : Z) :
  Zlen s <= n ->
  store 0 s (repeat x (Z.to_nat n)) = s ++ repeat x (Z.to_nat (n - Zlen s)).
Proof.
  intros Hn. pose proof (Zlen_nonneg s) as Hs.
  replace n with (Zlen s + (n - Zlen s)) at 1 by lia.
  rewrite repeat_app_Z by lia.
  unfold store. cbn [Z.ltb Z.compare Z.to_nat].
  unfold Zlen. rewrite Nat2Z.id.
  generalize (repeat x (Z.to_nat (n - Z.of_nat (List.length s)))).
  intros rest. clear.
  induction s as [|y s IH]; cbn [List.length repeat app store_nat].
  - destruct rest; reflexivity.
  - f_equal. exact IH.
Qed.

Section RawRun.

Variable crc : Z -> list Z -> Z.
Variable a : Imagewrite.args.
Variable mtd : Imagewrite.mtd_dev_info.
Variable rnd total : Z.
Variable src : list Z.
Variable plen : Z.

Let ebs : Z := Imagewrite.eb_size mtd.
Let payload : list Z := firstn (Z.to_nat plen) src.

Hypothesis Hraw : Imagewrite.ubi a = false.
Hypothesis Hebs : 0 < ebs < 2 ^ 62.
Hypothesis Hplen : 0 <= plen.
Hypothesis Htotal : total < 2 ^ 64.
Hypothesis Hsrc : source_ok a total src ebs plen.

Lemma raw_used_bounds (i : Z) :
  0 <= i ->
  0 <= Z.min plen (i * ebs) <= plen /\ Z.min plen (i * ebs) <= Zlen src /\
  Z.min plen (i * ebs) <= total.
Proof.
  intros Hi. assert (0 <= i * ebs) by nia.
  destruct Hsrc as [[E1 E2] | (_ & E1 & E2)]; lia.
Qed.

(** The call for block [i] of a raw image: it gives unit [i] of the
    payload, filled up with [0xFF]. *)
Lemma raw_step (i : Z) :
  0 <= i < 2 ^ 62 ->
  exists data_len,
    Imagewrite.eb_gen_data crc a mtd rnd (raw_state total src ebs plen i)
    = (data_len, leb_chunk ebs payload i,
       raw_state total src ebs plen (i + 1)) /\
    0 <= data_len.
Proof.
  intros Hi. pose proof (raw_used_bounds i ltac:(lia)) as (U1 & U2 & U3).
  pose proof (source_chunk a total src ebs plen i ltac:(lia) ltac:(lia)
                Hplen Hsrc) as Hchunk.
  cbv zeta in Hchunk.
  unfold Imagewrite.eb_gen_data. rewrite Hraw. fold ebs.
  unfold raw_state at 1 2 3 4. cbn [Imagewrite.data_left Imagewrite.ifd].
  set (used := Z.min plen (i * ebs)) in *.
  assert (Hn : (if total - used >? ebs then ebs else total - used)
               = Z.min (total - used) ebs)
    by (destruct (Z.gtb_spec (total - used) ebs); lia).
  rewrite Hn.
  assert (Lrest : Zlen (skipn (Z.to_nat used) src) = Zlen src - used)
    by (apply Zlen_skipn; lia).
  assert (Hused' : Z.min plen ((i + 1) * ebs)
                   = used + Z.min (Z.min (total - used) ebs)
                                  (Zlen src - used)).
  { unfold used in *.
    destruct Hsrc as [[E1 E2] | (_ & E1 & E2)]; nia. }
  rewrite data_read_ok.
  - rewrite Lrest.
    destruct (Z.ltb_spec (Z.min (Z.min (total - used) ebs)
                                (Zlen src - used)) 0); [lia|].
    eexists. split; [|eassumption].
    f_equal; [f_equal|].
    + rewrite Hchunk. unfold leb_chunk. cbv zeta. fold payload.
      apply store_prefix.
      unfold Zlen. rewrite length_firstn. lia.
    + unfold raw_state.
      cbn [Imagewrite.blk_no Imagewrite.image_seq Imagewrite.data_left].
      rewrite (ulong_small (i + 1)) by lia. rewrite Hused'. fold used.
      rewrite ulong_small by lia.
      f_equal; [|lia]. f_equal.
      assert (Hm : 0 <= Z.min (total - used) ebs) by lia.
      destruct (Z.le_gt_cases (Z.min (total - used) ebs) (Zlen src - used)).
      * rewrite (Z.min_l (Z.min (total - used) ebs)) by lia.
        rewrite skipn_skipn. f_equal. lia.
      * rewrite (Z.min_r (Z.min (total - used) ebs)) by lia.
        rewrite (skipn_all2 (n := Z.to_nat (Z.min (total - used) ebs)))
          by (rewrite length_skipn; unfold Zlen in *; lia).
        rewrite skipn_all2 by (unfold Zlen in *; lia).
        reflexivity.
  - lia.
  - rewrite Lrest. destruct Hsrc as [[E1 E2] | (Mode & E1 & E2)].
    + left. lia.
    + right. exact Mode.
Qed.

(** The blocks of [n] calls from the first on are the payload and erased
    flash behind it. *)
Lemma gen_blocks_raw (n : nat) : forall i,
  0 <= i -> i + Z.of_nat n <= 2 ^ 62 ->
  gen_blocks crc a mtd rnd n (raw_state total src ebs plen i)
  = (map (leb_chunk ebs payload) (ebs_from i n),
     raw_state total src ebs plen (i + Z.of_nat n)).
Proof.
  induction n as [|n IH]; intros i Hi Hn.
  - cbn. rewrite Z.add_0_r. reflexivity.
  - cbn [gen_blocks]. destruct (raw_step i) as (dl & E & Hdl); [lia|].
    rewrite E. destruct (Z.ltb_spec dl 0); [lia|].
    rewrite IH by lia. rewrite ebs_from_S. cbn [map].
    f_equal. f_equal. lia.
Qed.

Lemma concat_leb_chunks (n : nat) :
  List.concat (map (leb_chunk ebs payload) (ebs_from 0 n))
  = lebs_of ebs n payload.
Proof.
  induction n as [|n IH]; [reflexivity|].
  rewrite lebs_of_snoc by lia. rewrite <- IH.
  unfold ebs_from. rewrite seq_S, !map_app, concat_app. cbn [map List.concat].
  rewrite app_nil_r. reflexivity.
Qed.

End RawRun.

(** ** A raw run of [main] on a flash without faults *)

Section RawMain.

Variable crc : Z -> list Z -> Z.
Variable a : Imagewrite.args.
Variable w : Imagewrite.env.
Variable dev : Imagewrite.nand.
Variable mtd : Imagewrite.mtd_dev_info.
Variable src : list Z.
Variable image_size plen npebs : Z.

Let mio : Z := Imagewrite.min_io_size mtd.
Let ebs : Z := Imagewrite.eb_size mtd.
Let s : Z := Imagewrite.start a.
Let n : Z :=
  if Imagewrite.blocks a =? 0 then npebs - s else Imagewrite.blocks a.
Let total : Z := if image_size =? 0 then ulong (-1) else image_size.
Let rnd : Z := Imagewrite.rand_seq w.

Hypothesis Hraw : Imagewrite.ubi a = false.
Hypothesis Hdev : Imagewrite.dev_info w = Some mtd.
Hypothesis Hmio : 0 < mio.
Hypothesis Hmult : ebs mod mio = 0.
Hypothesis Hebs : 0 < ebs.
Hypothesis Hsize : Imagewrite.size mtd = npebs * ebs.
Hypothesis Hcells : Zlen (Imagewrite.cells dev) = Imagewrite.size mtd.
Hypothesis Hsmall : Imagewrite.size mtd < 2 ^ 61.
Hypothesis Hstart : 0 <= s < npebs.
Hypothesis Hblocks : 0 <= Imagewrite.blocks a.
Hypothesis Hwin : s + n <= npebs.
Hypothesis Hboth :
  is_set (Imagewrite.img_file a) && Imagewrite.std_in a = false.
Hypothesis Hinput :
  Imagewrite.open_input a w = inr (Imagewrite.fd_open src, image_size).
Hypothesis Himg : 0 <= image_size < 2 ^ 64.
Hypothesis Hplen : 0 <= plen <= n * ebs.
Hypothesis Hsrc : source_ok a total src ebs plen.
Hypothesis Hhw : fault_free (Imagewrite.hw w).
Hypothesis Hmarks : Imagewrite.marked_bad dev = [].

Lemma raw_main_bounds :
  1 <= n /\ 0 <= s * ebs /\ (s + n) * ebs <= npebs * ebs /\
  npebs * ebs < 2 ^ 61.
Proof.
  assert (1 <= n).
  { unfold n. destruct (Z.eqb_spec (Imagewrite.blocks a) 0); lia. }
  repeat split; try nia; lia.
Qed.

Lemma raw_main_page : mio <= ebs.
Proof.
  destruct (Z.le_gt_cases mio ebs) as [L | G]; [exact L|].
  rewrite Z.mod_small in Hmult by lia. lia.
Qed.

Lemma raw_main_window :
  Imagewrite.window_start a mtd = s * ebs /\
  Imagewrite.window_end a mtd = (s + n) * ebs.
Proof.
  destruct raw_main_bounds as (Hn & Hs & Hend & Hbig).
  unfold Imagewrite.window_start, Imagewrite.window_end,
    Imagewrite.window_start.
  fold s ebs. rewrite (ulong_small (s * ebs)) by nia.
  split; [reflexivity|]. unfold n in *.
  destruct (Z.eqb_spec (Imagewrite.blocks a) 0) as [E | E].
  - rewrite Hsize. rewrite ulong_small by nia. f_equal. lia.
  - rewrite (ulong_small (Imagewrite.blocks a * ebs)) by nia.
    rewrite ulong_small by nia. lia.
Qed.

(** The size of the image is zero only for standard input without a
    length. *)
Lemma raw_main_image_size :
  image_size <= n * ebs /\
  (image_size = 0 -> Imagewrite.std_in a = true) /\
  (image_size <> 0 -> total = plen).
Proof.
  destruct raw_main_bounds as (Hn & Hs & Hend & Hbig).
  assert (n * ebs < 2 ^ 62) by nia.
  destruct Hsrc as [[E1 E2] | (Mode & E1 & E2)].
  - unfold total in *.
    destruct (Z.eqb_spec image_size 0) as [E | E];
      [change (ulong (-1)) with (2 ^ 64 - 1) in E1; lia|].
    repeat split; try lia.
  - apply andb_true_iff in Mode. destruct Mode as [Hstd Hlen0].
    apply Z.eqb_eq in Hlen0.
    revert Hinput. unfold Imagewrite.open_input. rewrite Hstd.
    destruct (negb (Imagewrite.skip a =? 0)); [discriminate|].
    intros E. injection E as _ E.
    split; [lia|]. split; [intros; reflexivity | lia].
Qed.

Lemma prepare_raw :
  Imagewrite.prepare a w
  = inr (Imagewrite.mk_run a mtd (s * ebs) ((s + n) * ebs) image_size
                           (Imagewrite.fd_open src)).
Proof.
  destruct raw_main_bounds as (Hn & Hs & Hend & Hbig).
  destruct raw_main_window as (Ws & We).
  destruct raw_main_image_size as (Hfits & _).
  unfold Imagewrite.prepare. rewrite Hboth, Hraw, Hdev.
  cbn [andb]. rewrite Ws, We. fold ebs. rewrite Hsize.
  rewrite (ulong_small (npebs * ebs - ebs)) by nia.
  rewrite (ulong_small (npebs * ebs)) by nia.
  destruct (Z.gtb_spec (s * ebs) (npebs * ebs - ebs)); [nia|].
  destruct (Z.gtb_spec ((s + n) * ebs) (npebs * ebs)); [nia|].
  rewrite Hinput.
  unfold Imagewrite.check_geometry. rewrite Hraw.
  replace ((s + n) * ebs - s * ebs) with (n * ebs) by lia.
  rewrite (ulong_small (n * ebs)) by nia.
  destruct (Z.gtb_spec image_size (n * ebs)); [lia|]. reflexivity.
Qed.

(** The run ends with success; the window of the flash holds the payload
    and erased flash behind it, and nothing changes outside of it. *)
Lemma main_raw_flash :
  let '(status, dev') := Imagewrite.main crc a w dev in
  status = Imagewrite.EXIT_SUCCESS /\
  Zlen (Imagewrite.cells dev') = Zlen (Imagewrite.cells dev) /\
  slice (s * ebs) (n * ebs) (Imagewrite.cells dev')
  = firstn (Z.to_nat plen) src ++ repeat 255 (Z.to_nat (n * ebs - plen)) /\
  (forall o m, 0 <= o -> 0 <= m ->
     o + m <= s * ebs \/ (s + n) * ebs <= o ->
     slice o m (Imagewrite.cells dev') = slice o m (Imagewrite.cells dev)) /\
  Imagewrite.marked_bad dev' = [].
Proof.
  destruct raw_main_bounds as (Hn & Hs & Hend & Hbig).
  pose proof raw_main_page as Hpage.
  destruct raw_main_image_size as (Hfits & Hzero & Hbounded).
  assert (Htot : 0 <= total < 2 ^ 64).
  { unfold total. destruct (Z.eqb_spec image_size 0); [|lia].
    apply ulong_range. }
  assert (Hcl : Zlen (Imagewrite.cells dev) = npebs * ebs) by congruence.
  assert (En : n = Z.of_nat (Z.to_nat n)) by lia.
  assert (Lpay : Zlen (firstn (Z.to_nat plen) src) = plen).
  { apply Zlen_firstn. destruct Hsrc as [[E1 E2] | (_ & E1 & E2)]; lia. }
  unfold Imagewrite.main. rewrite prepare_raw.
  cbn [Imagewrite.r_mtd Imagewrite.r_start Imagewrite.r_end
       Imagewrite.r_image_size Imagewrite.r_args].
  assert (Hfuel : Imagewrite.window_fuel
                    (Imagewrite.mk_run a mtd (s * ebs) ((s + n) * ebs)
                       image_size (Imagewrite.fd_open src))
                  = (Z.to_nat n + 2)%nat).
  { unfold Imagewrite.window_fuel.
    cbn [Imagewrite.r_mtd Imagewrite.r_start Imagewrite.r_end]. fold ebs.
    replace ((s + n) * ebs - s * ebs) with (n * ebs) by lia.
    rewrite ulong_small by nia. rewrite Z.div_mul by lia. reflexivity. }
  assert (Hgo : (image_size =? 0) && negb (Imagewrite.std_in a)
                && negb (Imagewrite.ubi a) = false).
  { destruct (Z.eqb_spec image_size 0) as [E | E]; [|reflexivity].
    rewrite (Hzero E). reflexivity. }
  rewrite Hgo.
  unfold Imagewrite.write_all.
  cbn [Imagewrite.r_mtd Imagewrite.r_start Imagewrite.r_end
       Imagewrite.r_image_size Imagewrite.r_args].
  rewrite Hfuel. fold rnd.
  assert (St0 : Imagewrite.initial_wstate
                  (Imagewrite.mk_run a mtd (s * ebs) ((s + n) * ebs)
                     image_size (Imagewrite.fd_open src))
                = raw_state total src ebs plen 0).
  { unfold Imagewrite.initial_wstate, raw_state.
    cbn [Imagewrite.r_ifd Imagewrite.r_image_size].
    rewrite Z.mul_0_l, Z.min_r by lia. rewrite Z.sub_0_r. reflexivity. }
  rewrite St0.
  (* the erase pass *)
  assert (Eend : (s + n) * ebs = (s + Z.of_nat (Z.to_nat n)) * ebs)
    by (f_equal; lia).
  rewrite !Eend.
  rewrite erase_pass_spec;
    [ | fold ebs; lia | apply Hhw | apply Hhw | lia | fold ebs; nia | lia
      | exact Hmarks ].
  destruct (erase_good_blocks (Imagewrite.hw w) mtd (Z.to_nat n) s
              (Imagewrite.cells dev)) as (Le & Hin & Hout);
    [fold ebs; lia | lia | fold ebs; nia |].
  fold ebs in Hin, Hout.
  set (dev1 := Imagewrite.mk_nand _ _ _).
  (* the write pass *)
  pose proof (write_pass_spec crc a mtd (Imagewrite.hw w) rnd) as W.
  specialize (W ltac:(rewrite Hraw; fold ebs; lia)
                ltac:(fold mio; lia) ltac:(fold ebs; lia) Hmult
                ltac:(intros eb p; apply Hhw)).
  specialize (W (Z.to_nat n) s (Z.to_nat n + 2)%nat
                (raw_state total src ebs plen 0) dev1).
  fold ebs mio in W.
  destruct (Imagewrite.write_pass crc a mtd (Imagewrite.hw w)
              (Z.to_nat n + 2) rnd (s * ebs)
              ((s + Z.of_nat (Z.to_nat n)) * ebs)
              (raw_state total src ebs plen 0) dev1) as [st' dev'].
  destruct W as (Est & Ecells & Emarks).
  { lia. }
  { unfold dev1. cbn [Imagewrite.cells]. rewrite Le. nia. }
  { unfold dev1. cbn [Imagewrite.cells]. rewrite Le.
    assert (ebs <= npebs * ebs) by nia. lia. }
  { lia. }
  { cbn [Imagewrite.data_left raw_state].
    rewrite Z.mul_0_l, Z.min_r by lia. lia. }
  { unfold dev1. cbn [Imagewrite.cells].
    apply erased_window; [lia | lia |].
    intros eb Heb. rewrite Hin by lia.
    destruct (Hhw eb) as (B & _). rewrite B. reflexivity. }
  (* the blocks *)
  pose proof (gen_blocks_raw crc a mtd rnd total src plen Hraw
                ltac:(fold ebs; lia) ltac:(lia) ltac:(lia) Hsrc
                (Z.to_nat n) 0 ltac:(lia) ltac:(nia)) as G.
  fold ebs in G. rewrite G in Est, Ecells. cbn [fst snd] in Est, Ecells.
  rewrite (concat_leb_chunks mtd) in Ecells by (fold ebs; lia).
  fold ebs in Ecells.
  rewrite lebs_of_padded in Ecells by (rewrite ?Lpay; lia).
  rewrite Lpay, <- En in Ecells.
  set (image := firstn (Z.to_nat plen) src
                ++ repeat 255 (Z.to_nat (n * ebs - plen))) in *.
  assert (Limg : Zlen image = n * ebs).
  { unfold image. rewrite Zlen_app, Lpay, Zlen_repeat by lia. lia. }
  unfold dev1 in Ecells, Emarks. cbn [Imagewrite.cells Imagewrite.marked_bad]
    in Ecells, Emarks.
  assert (Hexit : (Imagewrite.data_left st' =? 0) || (image_size =? 0)
                  = true).
  { rewrite Est. cbn [Imagewrite.data_left raw_state].
    rewrite Z.add_0_l, <- En. rewrite Z.min_l by lia.
    destruct (Z.eqb_spec image_size 0) as [E | E]; [apply orb_true_r|].
    rewrite (Hbounded E), Z.sub_diag. reflexivity. }
  rewrite Hexit.
  split; [reflexivity|]. rewrite Ecells, Emarks.
  split; [rewrite Zlen_store; exact Le|].
  split; [|split; [|reflexivity]].
  - rewrite <- Limg. apply slice_store_same; [nia|].
    rewrite Limg, Le. nia.
  - intros o m Ho Hm Hdisj.
    rewrite slice_store_disj by (rewrite ?Limg; lia).
    apply Hout; lia.
Qed.

End RawMain.

(** ** [eb_write] when a page write fails *)

Section EbWriteFails.

Variable a : Imagewrite.args.
Variable mtd : Imagewrite.mtd_dev_info.
Variable hw : Imagewrite.faults.

Let mio : Z := Imagewrite.min_io_size mtd.
Let ebs : Z := Imagewrite.eb_size mtd.

Variable eb_addr data_len : Z.
Variable data : list Z.

Let eb : Z := eb_addr / ebs.

Hypothesis Hmio : 0 < mio.
Hypothesis Hlen : 0 <= data_len.
Hypothesis Hwrap : data_len + mio < 2 ^ 64.

(** The loop from page [j] on, when the write of page [j + k] is the first
    that fails. *)
Lemma eb_write_loop_fails (k : nat) : forall (j : Z) (fuel : nat) dev,
  0 <= j ->
  (forall i, j <= i < j + Z.of_nat k ->
     Imagewrite.write_fails hw eb (i * mio) = false) ->
  Imagewrite.write_fails hw eb ((j + Z.of_nat k) * mio) = true ->
  (j + Z.of_nat k) * mio < data_len \/
  (Imagewrite.clm a = true /\ j + Z.of_nat k = 0) ->
  (k < fuel)%nat ->
  Imagewrite.eb_write_loop mtd hw fuel eb_addr data_len data (j * mio)
    (Imagewrite.clm a && (j =? 0)) dev
  = (-1, write_failed a mtd hw eb_addr data_len data
           (page_addrs_from mtd j k) ((j + Z.of_nat k) * mio) dev).
Proof.
  induction k as [|k IH]; intros j fuel dev Hj Hgood Hbad Hin Hfuel.
  - destruct fuel as [|fuel]; [lia|]. cbn [Imagewrite.eb_write_loop].
    rewrite Z.add_0_r in *.
    assert (C : (j * mio <? data_len) || (Imagewrite.clm a && (j =? 0))
                = true).
    { destruct Hin as [L | [Hc ->]].
      - apply Z.ltb_lt in L. rewrite L. reflexivity.
      - rewrite Hc. apply orb_true_r. }
    rewrite C. fold mio. rewrite existsb_not_ff.
    unfold Imagewrite.mtd_write. fold ebs. fold eb. rewrite Hbad.
    cbn [Z.eqb negb]. unfold write_failed. fold ebs eb.
    cbn [page_addrs_from seq map app program_pages fold_left].
    assert (Ecall :
      Imagewrite.call_write eb (j * mio)
        (if (if negb (is_erased_page (slice (j * mio) mio data))
             then mio else 0) =? 0
         then None else Some (slice (j * mio) mio data))
        (if Imagewrite.clm a && (j =? 0)
         then Some Imagewrite.clean_marker else None)
      = page_write_call a mtd eb data (j * mio)).
    { unfold page_write_call, page_of. fold mio.
      assert (Ej : (j * mio =? 0) = (j =? 0)).
      { destruct (Z.eqb_spec j 0) as [-> | N]; [reflexivity|].
        apply Z.eqb_neq. nia. }
      rewrite Ej.
      destruct (is_erased_page (slice (j * mio) mio data)); cbn [negb].
      - reflexivity.
      - destruct (Z.eqb_spec mio 0); [lia|]. reflexivity. }
    rewrite Ecall. unfold Imagewrite.log.
    destruct (Imagewrite.eb_erase mtd hw eb_addr _) as [r d] eqn:E.
    cbn [snd]. reflexivity.
  - destruct fuel as [|fuel]; [lia|]. cbn [Imagewrite.eb_write_loop].
    assert (C : (j * mio <? data_len) || (Imagewrite.clm a && (j =? 0))
                = true).
    { destruct Hin as [L | [Hc E0]]; [|lia].
      assert (L' : j * mio < data_len) by nia.
      apply Z.ltb_lt in L'. rewrite L'. reflexivity. }
    rewrite C. fold mio. rewrite existsb_not_ff.
    unfold Imagewrite.mtd_write. fold ebs. fold eb.
    rewrite (Hgood j) by lia.
    cbn [Imagewrite.log Imagewrite.cells Imagewrite.marked_bad
         Imagewrite.calls].
    assert (Enext : ulong (j * mio + mio) = (j + 1) * mio).
    { rewrite ulong_small; [ring|]. destruct Hin as [L | [_ E0]]; nia. }
    assert (Eclm : false = Imagewrite.clm a && (j + 1 =? 0)).
    { destruct (Z.eqb_spec (j + 1) 0); [lia|]. now rewrite andb_false_r. }
    assert (Ecall :
      Imagewrite.call_write eb (j * mio)
        (if (if negb (is_erased_page (slice (j * mio) mio data))
             then mio else 0) =? 0
         then None else Some (slice (j * mio) mio data))
        (if Imagewrite.clm a && (j =? 0)
         then Some Imagewrite.clean_marker else None)
      = page_write_call a mtd eb data (j * mio)).
    { unfold page_write_call, page_of. fold mio.
      assert (Ej : (j * mio =? 0) = (j =? 0)).
      { destruct (Z.eqb_spec j 0) as [-> | N]; [reflexivity|].
        apply Z.eqb_neq. nia. }
      rewrite Ej.
      destruct (is_erased_page (slice (j * mio) mio data)); cbn [negb].
      - reflexivity.
      - destruct (Z.eqb_spec mio 0); [lia|]. reflexivity. }
    assert (Epage : page_of mtd data (j * mio) = slice (j * mio) mio data)
      by reflexivity.
    assert (Etail : (j + 1 + Z.of_nat k) = (j + Z.of_nat (S k))) by lia.
    rewrite page_addrs_from_S. fold mio.
    destruct (is_erased_page (slice (j * mio) mio data)) eqn:Eff;
      cbn [negb] in *.
    + cbn [Z.eqb negb]. rewrite Enext, Eclm.
      rewrite IH; [ | lia | intros; apply Hgood; lia
                    | rewrite Etail; exact Hbad
                    | rewrite Etail; destruct Hin as [L | [_ E0]]; [left; exact L | lia]
                    | lia ].
      rewrite Etail. unfold write_failed. fold ebs eb.
      rewrite program_pages_cons, Epage, Eff.
      unfold Imagewrite.log.
      cbn [Imagewrite.cells Imagewrite.marked_bad Imagewrite.calls map app].
      rewrite <- Ecall, <- app_assoc. reflexivity.
    + destruct (Z.eqb_spec mio 0) as [|_]; [lia|].
      cbn [negb]. rewrite Enext, Eclm.
      rewrite IH; [ | lia | intros; apply Hgood; lia
                    | rewrite Etail; exact Hbad
                    | rewrite Etail; destruct Hin as [L | [_ E0]]; [left; exact L | lia]
                    | lia ].
      rewrite Etail. unfold write_failed. fold ebs eb.
      rewrite program_pages_cons, Epage, Eff.
      unfold Imagewrite.log, Imagewrite.set_cells.
      cbn [Imagewrite.cells Imagewrite.marked_bad Imagewrite.calls map app].
      rewrite <- Ecall, <- app_assoc. reflexivity.
Qed.

End EbWriteFails.

(** The bad block marks after [eb_erase], and the erased block. *)
Lemma eb_erase_marks (mtd : Imagewrite.mtd_dev_info) (hw : Imagewrite.faults)
    (eb_addr : Z) (dev : Imagewrite.nand) :
  Imagewrite.marked_bad (snd (Imagewrite.eb_erase mtd hw eb_addr dev))
  = Imagewrite.marked_bad dev.
Proof.
  unfold Imagewrite.eb_erase, Imagewrite.mtd_is_bad, Imagewrite.mtd_erase,
    Imagewrite.log, Imagewrite.set_cells.
  cbn [Imagewrite.marked_bad Imagewrite.cells Imagewrite.calls].
  destruct (Imagewrite.get_bad_fails hw _); [reflexivity|].
  destruct (_ || _); [reflexivity|]. cbn [Z.gtb Z.ltb Z.compare].
  destruct (Imagewrite.erase_fails hw _); reflexivity.
Qed.

Lemma eb_erase_good (mtd : Imagewrite.mtd_dev_info) (hw : Imagewrite.faults)
    (eb_addr : Z) (dev : Imagewrite.nand) :
  let eb := eb_addr / Imagewrite.eb_size mtd in
  Imagewrite.get_bad_fails hw eb = false ->
  Imagewrite.bad_block hw eb = false ->
  existsb (Z.eqb eb) (Imagewrite.marked_bad dev) = false ->
  Imagewrite.erase_fails hw eb = false ->
  Imagewrite.cells (snd (Imagewrite.eb_erase mtd hw eb_addr dev))
  = memset (eb * Imagewrite.eb_size mtd) 255 (Imagewrite.eb_size mtd)
           (Imagewrite.cells dev).
Proof.
  cbv zeta. intros Hg Hb Hm He.
  unfold Imagewrite.eb_erase, Imagewrite.mtd_is_bad, Imagewrite.mtd_erase,
    Imagewrite.log, Imagewrite.set_cells.
  cbn [Imagewrite.marked_bad Imagewrite.cells Imagewrite.calls].
  rewrite Hg, Hb, Hm. cbn [orb Z.gtb Z.ltb Z.compare]. rewrite He.
  reflexivity.
Qed.

(** ** The input of a run *)

(** An input that opens, that is standard input when its size is not
    known, and that holds as many bytes as the image needs, is read without
    a failure. *)
Lemma input_source_ok (a : Imagewrite.args) (w : Imagewrite.env)
    (src : list Z) (image_size u : Z) :
  Imagewrite.open_input a w = inr (Imagewrite.fd_open src, image_size) ->
  0 <= image_size < 2 ^ 64 ->
  (image_size = 0 -> Imagewrite.std_in a = true) ->
  (image_size <> 0 -> image_size <= Zlen src) ->
  Zlen (payload_of src image_size) + u < 2 ^ 64 ->
  source_ok a (data_left_of image_size) src u
            (Zlen (payload_of src image_size)) /\
  firstn (Z.to_nat (Zlen (payload_of src image_size))) src
  = payload_of src image_size.
Proof.
  intros Hinput Himg Hzero Hlong Hsmall.
  unfold payload_of, data_left_of in *.
  destruct (Z.eqb_spec image_size 0) as [E | E].
  - split.
    + right. specialize (Hzero E).
      revert Hinput. unfold Imagewrite.open_input. rewrite Hzero.
      destruct (negb (Imagewrite.skip a =? 0)); [discriminate|].
      intros I. injection I as _ I.
      split; [|split; [reflexivity|]].
      * rewrite I, E. reflexivity.
      * change (ulong (-1)) with (2 ^ 64 - 1). lia.
    + unfold Zlen. rewrite Nat2Z.id. apply firstn_all.
  - specialize (Hlong E).
    assert (L : Zlen (firstn (Z.to_nat image_size) src) = image_size)
      by (apply Zlen_firstn; lia).
    rewrite L. split; [|reflexivity].
    left. split; [reflexivity | exact Hlong].
Qed.

(** ** A volume table without the volume *)

(** When all the records the search looks at are empty, a name that is not
    empty is not found. *)
Lemma find_name_all_empty (crc : Z -> list Z -> Z) (name file : list Z) :
  0 < strlen name ->
  forall (n : nat) (pos i : Z),
    (forall k, 0 <= k < Z.of_nat n ->
       Zlen (slice (pos + k * 172) 172 file) = 172 /\
       vtbl_record_is_empty crc (slice (pos + k * 172) 172 file)) ->
    Deubinize.find_name crc n name file pos i
    = Deubinize.Error "volume not found".
Proof.
  intros Hname. induction n as [|n IH]; intros pos i Hrec; [reflexivity|].
  cbn [Deubinize.find_name]. unfold_media.
  destruct (Hrec 0 ltac:(lia)) as (L & E).
  rewrite Z.mul_0_l, Z.add_0_r in L, E.
  rewrite L, Z.eqb_refl. cbn [negb].
  pose proof (empty_record_name crc _ E) as H0.
  destruct E as [_ C]. unfold crc_ok, get32 in C. revert C. unfold_media.
  change (172 - 4) with 168. intros C.
  rewrite C, Z.eqb_refl. cbn [negb].
  change (Z.to_nat 127) with (S 126).
  rewrite strncmp_eq_empty by (try exact H0; lia).
  apply IH. intros k Hk.
  replace (pos + 172 + k * 172) with (pos + (k + 1) * 172) by lia.
  apply Hrec. lia.
Qed.

(** The extractor on an image of the writer whose volume number lies
    beyond the volume table: no record carries the name. *)
Lemma deubinize_volume_not_found (crc : Z -> list Z -> Z)
    (a : Imagewrite.args) (mtd : Imagewrite.mtd_dev_info) (rnd total : Z)
    (src : list Z) (plen : Z) (n : nat) (xa : Deubinize.args)
    (name : list Z) :
  Imagewrite.ubi a = true ->
  64 <= Imagewrite.min_io_size mtd ->
  2 * Imagewrite.min_io_size mtd + 128 * 172 <= Imagewrite.eb_size mtd ->
  Imagewrite.eb_size mtd < 2 ^ 31 ->
  0 <= Imagewrite.vol_lebs a ->
  Imagewrite.vol_lebs a * leb_size_of mtd <= 2 ^ 32 ->
  0 <= plen <= Imagewrite.vol_lebs a * leb_size_of mtd ->
  source_ok a total src (leb_size_of mtd) plen ->
  Imagewrite.vol_lebs a + 2 <= Z.of_nat n ->
  128 <= Imagewrite.vol_id a ->
  Deubinize.peb_size xa = Imagewrite.eb_size mtd ->
  Deubinize.vol_name xa = Some name ->
  0 < strlen name ->
  Deubinize.main crc xa (Some (ubi_image crc a mtd rnd total src plen n))
  = (Deubinize.EXIT_FAILURE, None).
Proof.
  intros Hubi Hmio Hfit Hebs Hv Hwrap Hplen Hsrc Hn Hvid Hpeb Hxname Hname.
  set (file := ubi_image crc a mtd rnd total src plen n).
  assert (Lf : Zlen file = Z.of_nat n * Imagewrite.eb_size mtd)
    by (apply Zlen_file; assumption).
  unfold Deubinize.main. cbv zeta. rewrite Hpeb, Lf.
  destruct (Z.eqb_spec (Z.of_nat n * Imagewrite.eb_size mtd) 0) as [E | _];
    [nia|].
  rewrite Z.mod_mul by lia. cbn [Z.eqb negb orb].
  assert (R : Deubinize.read_ubi_info crc xa file
                (Deubinize.mk_img_info
                   (Z.of_nat n * Imagewrite.eb_size mtd) 0 0 0 0)
              = Deubinize.Error "volume not found").
  { unfold Deubinize.read_ubi_info.
    replace (Z.to_nat (Deubinize.size
                         (Deubinize.mk_img_info
                            (Z.of_nat n * Imagewrite.eb_size mtd) 0 0 0 0)
                       / Deubinize.peb_size xa) + 1)%nat
      with (S (Z.to_nat (Z.of_nat n * Imagewrite.eb_size mtd
                         / Imagewrite.eb_size mtd)))
      by (rewrite Hpeb; cbn [Deubinize.size]; lia).
    cbn [Deubinize.find_layout].
    replace 0 with (0 * Imagewrite.eb_size mtd) at 1 by lia.
    unfold file.
    rewrite (read_layout crc a mtd rnd total src plen n) by
      (try assumption; lia).
    cbn [Deubinize.vol_id]. rewrite Z.eqb_refl, Hxname.
    rewrite find_name_all_empty; [reflexivity | exact Hname |].
    intros k Hk. unfold_media.
    change (Z.to_nat 128) with 128%nat in Hk.
    replace (0 * Imagewrite.eb_size mtd + 2 * Imagewrite.min_io_size mtd
             + k * 172)
      with (2 * Imagewrite.min_io_size mtd + k * 172) by lia.
    rewrite (file_record crc a mtd rnd total src plen n) by
      (try assumption; lia).
    split; [apply Zlen_vtbl_record|].
    apply vtbl_record_other. lia. }
  rewrite R. reflexivity.
Qed.

(** ** Runs by the general results *)

Lemma forallb_repeat_ff (n : nat) : forallb (Z.eqb 255) (repeat 255 n) = true.
Proof. induction n as [|n IH]; [reflexivity|]. cbn [repeat forallb]. exact IH. Qed.

Lemma no_faults_fault_free : fault_free no_faults.
Proof. intros eb. repeat split. Qed.

(** The next hypothesis of [H], settled by [tac]. *)
Ltac feed H tac :=
  match type of H with
  | ?A -> _ =>
      let X := fresh "X" in
      assert (X : A) by tac; specialize (H X); clear X
  end.

(** The hypotheses of the lemmas on a UBI run, for a run on [no_faults]
    with a bounded input. *)
Ltac feed_run H side :=
  do 19 (feed H ltac:(by_computation));
  feed H ltac:(side; by_computation);
  feed H ltac:(exact no_faults_fault_free);
  feed H ltac:(reflexivity).

(** The round trip at work: three bytes written to volume 0 named
    [rootfs] come back at the start of the extracted file, which has the
    size of the two LEBs of the volume. *)
Example roundtrip_rootfs :
  let written :=
    Imagewrite.main crc32 (ubi_args 0 "rootfs") (file_env [1; 2; 3])
                    used_flash in
  let extracted :=
    Deubinize.main crc32 (extract_args "rootfs" false)
                   (Some (Imagewrite.cells (snd written))) in
  (fst written, fst extracted,
   option_map (firstn 5) (snd extracted), option_map (@Zlen Z) (snd extracted))
  = (Imagewrite.EXIT_SUCCESS, Deubinize.EXIT_SUCCESS,
     Some [1; 2; 3; 255; 255], Some (2 * 22016)).
Proof.
  cbv zeta.
  assert (M := main_ubi_flash crc32 (ubi_args 0 "rootfs") (file_env [1; 2; 3])
                 used_flash small_mtd (bytes_of_string "rootfs") [1; 2; 3]
                 3 3 5).
  assert (R := ubi_round_trip_lebs crc32 (ubi_args 0 "rootfs")
                 (file_env [1; 2; 3]) used_flash small_mtd
                 (bytes_of_string "rootfs") [1; 2; 3] 3 3 5).
  feed_run M ltac:(left). feed_run R ltac:(left).
  specialize (R (extract_args "rootfs" false)).
  do 4 (feed R ltac:(by_computation)).
  feed R ltac:(left; reflexivity).
  destruct (Imagewrite.main crc32 (ubi_args 0 "rootfs") (file_env [1; 2; 3])
              used_flash) as [status dev'].
  destruct M as (St & Len & _). destruct R as (_ & Ex).
  cbn [fst snd].
  assert (W : slice (Imagewrite.start (ubi_args 0 "rootfs")
                     * Imagewrite.eb_size small_mtd)
                    ((if Imagewrite.blocks (ubi_args 0 "rootfs") =? 0
                      then 5 - Imagewrite.start (ubi_args 0 "rootfs")
                      else Imagewrite.blocks (ubi_args 0 "rootfs"))
                     * Imagewrite.eb_size small_mtd)
                    (Imagewrite.cells dev')
              = Imagewrite.cells dev').
  { apply slice_whole. rewrite Len. vm_compute. reflexivity. }
  rewrite W in Ex. rewrite Ex, St. cbn [fst snd option_map].
  rewrite Zlen_lebs_of by (vm_compute; discriminate).
  rewrite lebs_of_padded by by_computation.
  vm_compute. reflexivity.
Qed.

(** A run with the empty payload on standard input: every eraseblock of
    the volume gets its EC header and its VID header. *)
Example ubi_empty_stdin_writes_headers :
  let a :=
    Imagewrite.mk_args 0 0 0 0 0 2 true false true 1
                       (Some (bytes_of_string "rootfs")) "/dev/mtd1" None in
  let written := Imagewrite.main crc32 a (file_env []) used_flash in
  let peb2 := slice (2 * 22144) 22144 (Imagewrite.cells (snd written)) in
  (fst written, get32 UbiMedia.ec_magic peb2,
   get32 (64 + UbiMedia.vid_magic) peb2, get32 (64 + UbiMedia.vid_lnum) peb2,
   forallb (Z.eqb 255) (slice 128 22016 peb2))
  = (Imagewrite.EXIT_SUCCESS, UbiMedia.UBI_EC_HDR_MAGIC,
     UbiMedia.UBI_VID_HDR_MAGIC, 0, true).
Proof.
  cbv zeta.
  assert (M := main_ubi_pebs crc32
                 (Imagewrite.mk_args 0 0 0 0 0 2 true false true 1
                    (Some (bytes_of_string "rootfs")) "/dev/mtd1" None)
                 (file_env []) used_flash small_mtd
                 (bytes_of_string "rootfs") [] 0 0 5).
  feed_run M ltac:(right).
  destruct (Imagewrite.main crc32 _ (file_env []) used_flash)
    as [status dev'].
  destruct M as (St & _ & Peb). cbn [fst snd].
  assert (E := Peb 2 ltac:(by_computation)).
  match type of E with
  | _ = ?block =>
      change (slice (2 * 22144) 22144 (Imagewrite.cells dev') = block) in E
  end.
  rewrite E, St. vm_compute. reflexivity.
Qed.

(** * Further properties of the writer and of the extractor *)

(** ** imagewrite.c *)

(** X1. [data_read] of [n] bytes from an open descriptor. When the input
    holds [n] bytes it delivers exactly the next [n] bytes and advances the
    descriptor behind them. When the input ends before that, the call
    fails with [-1], unless the input is standard input without a
    length: then it delivers what is left and returns its number. *)
Theorem data_read_outcome (a : Imagewrite.args) (rest : list Z) (n : Z) :
  0 <= n ->
  let '(r, got, fd') := Imagewrite.data_read a (Imagewrite.fd_open rest) n in
  (n <= Zlen rest ->
   r = n /\ got = firstn (Z.to_nat n) rest /\
   fd' = Imagewrite.fd_open (skipn (Z.to_nat n) rest)) /\
  (Zlen rest < n ->
   if Imagewrite.std_in a && (Imagewrite.length a =? 0)
   then r = Zlen rest /\ got = rest
   else r = -1).
Proof.
  intros Hn. pose proof (Zlen_nonneg rest) as Hrest.
  destruct (Z.le_gt_cases n (Zlen rest)) as [Hin | Hshort].
  - rewrite data_read_ok by (try (left; exact Hin); lia).
    split; [|lia]. intros _. rewrite Z.min_l by lia. repeat split.
  - destruct (Imagewrite.std_in a && (Imagewrite.length a =? 0)) eqn:Mode.
    + rewrite data_read_ok by (try (right; exact Mode); lia).
      split; [lia|]. intros _. rewrite Z.min_r by lia.
      split; [reflexivity|]. apply firstn_all2. unfold Zlen in *. lia.
    + pose proof (data_read_fails a (Imagewrite.fd_open rest) n
                    ltac:(lia) (conj Hshort Mode)) as F.
      destruct (Imagewrite.data_read a (Imagewrite.fd_open rest) n)
        as [[r got] fd'].
      split; [lia|]. intros _. exact F.
Qed.

(** X2. [eb_gen_data] always hands back a buffer of the size of an
    eraseblock. When it fails it returns [-1] and neither the block counter
    nor [data_left] moves. When it succeeds, [data_len] lies within the
    block, every byte of the buffer from [data_len] on is [0xFF], and the
    block counter is advanced by one. *)
Theorem eb_gen_data_buffer_shape (crc : Z -> list Z -> Z)
    (a : Imagewrite.args) (mtd : Imagewrite.mtd_dev_info) (rnd : Z)
    (st : Imagewrite.wstate) :
  (if Imagewrite.ubi a
   then 64 <= Imagewrite.min_io_size mtd /\
        2 * Imagewrite.min_io_size mtd + 128 * 172 <= Imagewrite.eb_size mtd
   else 0 <= Imagewrite.eb_size mtd) ->
  Imagewrite.eb_size mtd < 2 ^ 63 ->
  0 <= Imagewrite.data_left st ->
  let '(data_len, buf, st') := Imagewrite.eb_gen_data crc a mtd rnd st in
  Zlen buf = Imagewrite.eb_size mtd /\
  (data_len < 0 ->
   data_len = -1 /\
   Imagewrite.blk_no st' = Imagewrite.blk_no st /\
   Imagewrite.data_left st' = Imagewrite.data_left st) /\
  (0 <= data_len ->
   data_len <= Imagewrite.eb_size mtd /\
   slice data_len (Imagewrite.eb_size mtd - data_len) buf
   = repeat 255 (Z.to_nat (Imagewrite.eb_size mtd - data_len)) /\
   Imagewrite.blk_no st' = ulong (Imagewrite.blk_no st + 1)).
Proof.
  intros Hgeom Hebs Hleft.
  pose proof (eb_gen_data_shape crc a mtd Hgeom Hebs rnd st Hleft) as S.
  destruct (Imagewrite.eb_gen_data crc a mtd rnd st) as [[data_len buf] st'].
  destruct S as (L & _ & [(E & B & D) | (R & P & B)]).
  - split; [exact L|]. split; [intros _; repeat split; assumption | lia].
  - split; [exact L|]. split; [lia|]. intros _. repeat split; [lia | | ];
      assumption.
Qed.

(** X4. The erase pass of [main] over the eraseblocks [s .. s + n - 1],
    on a flash that answers every state request and carries out every
    erase: afterwards every block of the window that is not bad reads
    [0xFF] throughout, every bad block and every byte outside the window
    is as before, no block was marked bad, and the requests were one state
    request per block and one erase per block that is not bad. *)
Theorem erase_pass_outcome (mtd : Imagewrite.mtd_dev_info)
    (hw : Imagewrite.faults) (n fuel : nat) (s : Z) (dev : Imagewrite.nand) :
  0 < Imagewrite.eb_size mtd ->
  (forall eb, Imagewrite.get_bad_fails hw eb = false) ->
  (forall eb, Imagewrite.erase_fails hw eb = false) ->
  0 <= s ->
  (s + Z.of_nat n) * Imagewrite.eb_size mtd <= Zlen (Imagewrite.cells dev) ->
  Zlen (Imagewrite.cells dev) + Imagewrite.eb_size mtd < 2 ^ 64 ->
  (n < fuel)%nat ->
  Imagewrite.marked_bad dev = [] ->
  let dev' :=
    Imagewrite.erase_pass mtd hw fuel (s * Imagewrite.eb_size mtd)
      ((s + Z.of_nat n) * Imagewrite.eb_size mtd) dev in
  Imagewrite.marked_bad dev' = [] /\
  Zlen (Imagewrite.cells dev') = Zlen (Imagewrite.cells dev) /\
  (forall eb, s <= eb < s + Z.of_nat n ->
     slice (eb * Imagewrite.eb_size mtd) (Imagewrite.eb_size mtd)
           (Imagewrite.cells dev')
     = if Imagewrite.bad_block hw eb
       then slice (eb * Imagewrite.eb_size mtd) (Imagewrite.eb_size mtd)
                  (Imagewrite.cells dev)
       else repeat 255 (Z.to_nat (Imagewrite.eb_size mtd))) /\
  (forall o m, 0 <= o -> 0 <= m ->
     o + m <= s * Imagewrite.eb_size mtd \/
     (s + Z.of_nat n) * Imagewrite.eb_size mtd <= o ->
     slice o m (Imagewrite.cells dev') = slice o m (Imagewrite.cells dev)) /\
  Imagewrite.calls dev'
  = Imagewrite.calls dev ++ erase_calls hw (ebs_from s n).
Proof.
  intros Hebs Hstate Herase Hs Hfit Hwrap Hfuel Hmarks. cbv zeta.
  rewrite (erase_pass_spec mtd hw Hebs Hstate Herase) by (try assumption; lia).
  cbn [Imagewrite.marked_bad Imagewrite.cells Imagewrite.calls].
  destruct (erase_good_blocks hw mtd n s (Imagewrite.cells dev) Hebs Hs Hfit)
    as (L & Hin & Hout).
  repeat split; assumption.
Qed.

(** X5. A block that [eb_write] writes without a failure to an erased
    eraseblock is there afterwards byte for byte, although the pages that
    hold nothing but [0xFF] are not programmed and nothing behind
    [data_len] is written; nothing else on the flash changes and no block
    is marked bad. *)
Theorem eb_write_programs_block (a : Imagewrite.args)
    (mtd : Imagewrite.mtd_dev_info) (hw : Imagewrite.faults)
    (eb data_len : Z) (data : list Z) (dev : Imagewrite.nand) :
  0 < Imagewrite.min_io_size mtd ->
  0 < Imagewrite.eb_size mtd ->
  Imagewrite.eb_size mtd mod Imagewrite.min_io_size mtd = 0 ->
  Imagewrite.eb_size mtd + Imagewrite.min_io_size mtd < 2 ^ 64 ->
  0 <= data_len <= Imagewrite.eb_size mtd ->
  Zlen data = Imagewrite.eb_size mtd ->
  slice data_len (Imagewrite.eb_size mtd - data_len) data
  = repeat 255 (Z.to_nat (Imagewrite.eb_size mtd - data_len)) ->
  0 <= eb ->
  (eb + 1) * Imagewrite.eb_size mtd <= Zlen (Imagewrite.cells dev) ->
  slice (eb * Imagewrite.eb_size mtd) (Imagewrite.eb_size mtd)
        (Imagewrite.cells dev)
  = repeat 255 (Z.to_nat (Imagewrite.eb_size mtd)) ->
  (forall p, Imagewrite.write_fails hw eb p = false) ->
  let '(ret, dev') :=
    Imagewrite.eb_write a mtd hw (eb * Imagewrite.eb_size mtd) data_len data
                        dev in
  ret = 0 /\
  slice (eb * Imagewrite.eb_size mtd) (Imagewrite.eb_size mtd)
        (Imagewrite.cells dev') = data /\
  (forall o m, 0 <= o -> 0 <= m ->
     o + m <= eb * Imagewrite.eb_size mtd \/
     (eb + 1) * Imagewrite.eb_size mtd <= o ->
     slice o m (Imagewrite.cells dev') = slice o m (Imagewrite.cells dev)) /\
  Imagewrite.marked_bad dev' = Imagewrite.marked_bad dev.
Proof.
  intros Hmio Hebs Hmult Hwrap Hlen Hdata Hpad Heb Hfit Herased Hgood.
  pose proof (eb_write_stores_block a mtd hw eb data_len data dev Hmio Hebs
                Hmult Hwrap Hlen Hdata Hpad Heb ltac:(lia) Herased Hgood)
    as W.
  destruct (Imagewrite.eb_write a mtd hw (eb * Imagewrite.eb_size mtd)
              data_len data dev) as [ret dev'].
  destruct W as (R & C & S & M).
  split; [exact R|]. split; [exact S|]. split; [|exact M].
  intros o m Ho Hm Hdisj. rewrite C.
  apply slice_store_disj; try assumption. rewrite Hdata. lia.
Qed.

(** X6. [eb_write] when the write of page [k] is the first that fails,
    the pages before it having been written: it returns the error, erases
    the eraseblock again, and marks it bad exactly when [data_len] is a
    multiple of the size of an eraseblock; in UBI mode, where a block ends
    within the eraseblock, the failed eraseblock is thus left unmarked.
    When the erase goes through, the eraseblock reads [0xFF] throughout
    afterwards. *)
Theorem eb_write_first_failure (a : Imagewrite.args)
    (mtd : Imagewrite.mtd_dev_info) (hw : Imagewrite.faults)
    (eb_addr data_len : Z) (data : list Z) (dev : Imagewrite.nand)
    (k : nat) :
  let mio := Imagewrite.min_io_size mtd in
  let ebs := Imagewrite.eb_size mtd in
  let eb := eb_addr / ebs in
  0 < mio -> 0 < ebs ->
  0 <= data_len -> data_len + mio < 2 ^ 64 ->
  (forall i, 0 <= i < Z.of_nat k ->
     Imagewrite.write_fails hw eb (i * mio) = false) ->
  Imagewrite.write_fails hw eb (Z.of_nat k * mio) = true ->
  Z.of_nat k * mio < data_len \/ (Imagewrite.clm a = true /\ k = O) ->
  let '(ret, dev') :=
    Imagewrite.eb_write a mtd hw eb_addr data_len data dev in
  ret = -1 /\
  dev' = write_failed a mtd hw eb_addr data_len data
           (page_addrs_from mtd 0 k) (Z.of_nat k * mio) dev /\
  Imagewrite.marked_bad dev'
  = (if data_len mod ebs =? 0 then eb :: Imagewrite.marked_bad dev
     else Imagewrite.marked_bad dev) /\
  (Imagewrite.get_bad_fails hw eb = false ->
   Imagewrite.bad_block hw eb = false ->
   existsb (Z.eqb eb) (Imagewrite.marked_bad dev) = false ->
   Imagewrite.erase_fails hw eb = false ->
   0 <= eb -> (eb + 1) * ebs <= Zlen (Imagewrite.cells dev) ->
   slice (eb * ebs) ebs (Imagewrite.cells dev')
   = repeat 255 (Z.to_nat ebs)).
Proof.
  cbv zeta. intros Hmio Hebs Hlen Hwrap Hgood Hbad Hin.
  unfold Imagewrite.eb_write.
  assert (E0 : (data_len =? 0) && negb (Imagewrite.clm a) = false).
  { destruct Hin as [L | [Hc _]].
    - destruct (Z.eqb_spec data_len 0); [nia | reflexivity].
    - rewrite Hc. apply andb_false_r. }
  rewrite E0.
  assert (Hk : (k < Z.to_nat (data_len / Imagewrite.min_io_size mtd) + 2)%nat).
  { destruct Hin as [L | [_ ->]]; [|lia].
    assert (Z.of_nat k <= data_len / Imagewrite.min_io_size mtd)
      by (apply Z.div_le_lower_bound; lia).
    lia. }
  pose proof (eb_write_loop_fails a mtd hw eb_addr data_len data Hmio
                Hwrap k 0 _ dev ltac:(lia)
                ltac:(intros i Hi; apply Hgood; lia)
                ltac:(rewrite Z.add_0_l; exact Hbad)
                ltac:(rewrite Z.add_0_l; destruct Hin as [L | [Hc ->]];
                      [left; exact L | right; split; [exact Hc | reflexivity]])
                Hk) as L.
  rewrite Z.mul_0_l, Z.eqb_refl, andb_true_r in L. rewrite L.
  rewrite Z.add_0_l.
  split; [reflexivity|]. split; [reflexivity|].
  unfold write_failed.
  set (dev1 := Imagewrite.mk_nand _ _ _).
  split.
  - destruct (data_len mod Imagewrite.eb_size mtd =? 0).
    + unfold Imagewrite.mtd_mark_bad, Imagewrite.log.
      cbn [snd Imagewrite.marked_bad]. rewrite eb_erase_marks. reflexivity.
    + rewrite eb_erase_marks. reflexivity.
  - intros Hg Hb Hm He Heb Hfit.
    assert (C : Imagewrite.cells
                  (if data_len mod Imagewrite.eb_size mtd =? 0
                   then snd (Imagewrite.mtd_mark_bad
                               (snd (Imagewrite.eb_erase mtd hw eb_addr dev1))
                               (eb_addr / Imagewrite.eb_size mtd))
                   else snd (Imagewrite.eb_erase mtd hw eb_addr dev1))
                = Imagewrite.cells
                    (snd (Imagewrite.eb_erase mtd hw eb_addr dev1))).
    { destruct (data_len mod Imagewrite.eb_size mtd =? 0); reflexivity. }
    rewrite C. rewrite eb_erase_good by assumption.
    unfold memset.
    apply slice_store_same'; [apply Zlen_repeat; lia | nia |].
    unfold dev1. cbn [Imagewrite.cells].
    assert (Lp : forall ps cs,
              Zlen (program_pages mtd (eb_addr / Imagewrite.eb_size mtd)
                                  data ps cs) = Zlen cs).
    { induction ps as [|p ps IH]; intros cs; [reflexivity|].
      rewrite program_pages_cons, IH.
      destruct (is_erased_page _); [reflexivity | apply Zlen_store]. }
    rewrite Lp. lia.
Qed.

(** X7. The write pass of [main] over [n] erased eraseblocks, on a flash
    where no page write fails: the blocks that [eb_gen_data] gives, up to
    the first call that fails, lie one behind the other from the start of
    the window; the rest of the flash is as before, no block is marked bad,
    and the variables at the end are those of the generator. *)
Theorem write_pass_stores_blocks (crc : Z -> list Z -> Z)
    (a : Imagewrite.args) (mtd : Imagewrite.mtd_dev_info)
    (hw : Imagewrite.faults) (rnd : Z) (n fuel : nat) (s : Z)
    (st : Imagewrite.wstate) (dev : Imagewrite.nand) :
  let mio := Imagewrite.min_io_size mtd in
  let ebs := Imagewrite.eb_size mtd in
  (if Imagewrite.ubi a
   then 64 <= mio /\ 2 * mio + 128 * 172 <= ebs else 0 <= ebs) ->
  0 < mio -> 0 < ebs -> ebs mod mio = 0 ->
  (forall eb p, Imagewrite.write_fails hw eb p = false) ->
  0 <= s ->
  (s + Z.of_nat n) * ebs <= Zlen (Imagewrite.cells dev) ->
  Zlen (Imagewrite.cells dev) + ebs + mio < 2 ^ 63 ->
  (n < fuel)%nat ->
  0 <= Imagewrite.data_left st ->
  slice (s * ebs) (Z.of_nat n * ebs) (Imagewrite.cells dev)
  = repeat 255 (Z.to_nat (Z.of_nat n * ebs)) ->
  let '(st', dev') :=
    Imagewrite.write_pass crc a mtd hw fuel rnd (s * ebs)
                          ((s + Z.of_nat n) * ebs) st dev in
  let blocks := List.concat (fst (gen_blocks crc a mtd rnd n st)) in
  st' = snd (gen_blocks crc a mtd rnd n st) /\
  Imagewrite.cells dev' = store (s * ebs) blocks (Imagewrite.cells dev) /\
  Imagewrite.marked_bad dev' = Imagewrite.marked_bad dev.
Proof.
  cbv zeta. intros Hgeom Hmio Hebs Hmult Hwrite Hs Hfit Hbig Hfuel Hleft Her.
  exact (write_pass_spec crc a mtd hw rnd Hgeom Hmio Hebs Hmult Hwrite n s
           fuel st dev Hs Hfit Hbig Hfuel Hleft Her).
Qed.

(** X9. The two eraseblocks of the layout volume carry the same volume
    table: the first two calls of [eb_gen_data] in UBI mode, whatever the
    input, give blocks whose 128 records agree byte for byte, the record of
    the slot [vol_id] being that of the volume. *)
Theorem layout_volume_copies_agree (crc : Z -> list Z -> Z)
    (a : Imagewrite.args) (mtd : Imagewrite.mtd_dev_info) (rnd : Z)
    (st : Imagewrite.wstate) :
  let mio := Imagewrite.min_io_size mtd in
  let ebs := Imagewrite.eb_size mtd in
  Imagewrite.ubi a = true ->
  64 <= mio -> 2 * mio + 128 * 172 <= ebs -> ebs < 2 ^ 63 ->
  Imagewrite.blk_no st = 0 ->
  let '(_, copy0, st1) := Imagewrite.eb_gen_data crc a mtd rnd st in
  let '(_, copy1, st2) := Imagewrite.eb_gen_data crc a mtd rnd st1 in
  Imagewrite.blk_no st2 = 2 /\
  Imagewrite.ifd st2 = Imagewrite.ifd st /\
  Imagewrite.data_left st2 = Imagewrite.data_left st /\
  forall k, 0 <= k < 128 ->
    slice (2 * mio + k * 172) 172 copy0
    = Imagewrite.ubi_vtbl_record_bytes crc a k /\
    slice (2 * mio + k * 172) 172 copy1
    = Imagewrite.ubi_vtbl_record_bytes crc a k.
Proof.
  cbv zeta. intros Hubi Hmio Hfit Hebs Hblk.
  assert (Hm2 : 0 <= Imagewrite.min_io_size mtd * 2 < 2 ^ 64) by lia.
  rewrite (eb_gen_data_layout crc a mtd Hubi Hm2) by lia.
  pose proof (fill_vtbl_spec crc a 128 0 (2 * Imagewrite.min_io_size mtd)
                (with_vid crc mtd (layout_vid crc (Imagewrite.blk_no st))
                          rnd st)) as F0.
  destruct (Imagewrite.fill_vtbl crc a 128 0 _ _) as [e0 b0].
  rewrite Zlen_with_vid in F0 by lia.
  destruct F0 as (_ & _ & R0 & _); [lia | lia |].
  set (st1 := Imagewrite.mk_wstate _ _ _ _).
  assert (Hblk1 : Imagewrite.blk_no st1 = 1)
    by (unfold st1; cbn [Imagewrite.blk_no]; rewrite Hblk; reflexivity).
  rewrite (eb_gen_data_layout crc a mtd Hubi Hm2) by lia.
  pose proof (fill_vtbl_spec crc a 128 0 (2 * Imagewrite.min_io_size mtd)
                (with_vid crc mtd (layout_vid crc (Imagewrite.blk_no st1))
                          rnd st1)) as F1.
  destruct (Imagewrite.fill_vtbl crc a 128 0 _ _) as [e1 b1].
  rewrite Zlen_with_vid in F1 by lia.
  destruct F1 as (_ & _ & R1 & _); [lia | lia |].
  cbn [Imagewrite.blk_no Imagewrite.ifd Imagewrite.data_left].
  rewrite Hblk1. split; [reflexivity|]. split; [reflexivity|].
  split; [reflexivity|].
  intros k Hk. rewrite R0, R1 by lia. split; reflexivity.
Qed.

(** X10. What a UBI run of [main] leaves on a flash without faults, when
    the input holds the payload and is not an empty file (an image size of
    0 is that of standard input without a length). The
    run ends with success. Every eraseblock of the window starts with a
    well-formed EC header; the first two carry the VID header of the layout
    volume with [lnum] 0 and 1 and the volume table, whose record of the
    volume gives the resolved number of LEBs; the next [vol_lebs] carry
    the VID header of the volume with [lnum] counting from 0, and as data
    the payload, a LEB each, filled up with [0xFF]; the eraseblocks behind
    them hold nothing but the EC header. Nothing outside the window
    changes, and no block is marked bad. *)
Theorem ubi_run_flash_contents (crc : Z -> list Z -> Z)
    (a : Imagewrite.args) (w : Imagewrite.env) (dev : Imagewrite.nand)
    (mtd : Imagewrite.mtd_dev_info) (name src : list Z)
    (image_size npebs : Z) :
  let mio := Imagewrite.min_io_size mtd in
  let ebs := Imagewrite.eb_size mtd in
  let leb := leb_size_of mtd in
  let s := Imagewrite.start a in
  let n := if Imagewrite.blocks a =? 0 then npebs - s
           else Imagewrite.blocks a in
  let v := Imagewrite.resolve_vol_lebs (n - 2) (Imagewrite.vol_lebs a) in
  let payload := payload_of src image_size in
  Imagewrite.ubi a = true ->
  Imagewrite.vol_name a = Some name -> strlen name <= 127 ->
  0 <= Imagewrite.vol_id a < 2 ^ 32 ->
  Imagewrite.dev_info w = Some mtd ->
  64 <= mio -> ebs mod mio = 0 -> 2 * mio + 128 * 172 <= ebs ->
  ebs < 2 ^ 31 ->
  Imagewrite.size mtd = npebs * ebs ->
  Zlen (Imagewrite.cells dev) = Imagewrite.size mtd ->
  Imagewrite.size mtd < 2 ^ 62 ->
  0 <= s -> 0 <= Imagewrite.blocks a -> s + n <= npebs ->
  is_set (Imagewrite.img_file a) && Imagewrite.std_in a = false ->
  Imagewrite.open_input a w = inr (Imagewrite.fd_open src, image_size) ->
  0 <= image_size < 2 ^ 64 ->
  (image_size = 0 -> Imagewrite.std_in a = true) ->
  (image_size <> 0 -> image_size <= Zlen src) ->
  0 <= v <= n - 2 -> v <= 2 ^ 32 ->
  Zlen payload <= v * leb ->
  fault_free (Imagewrite.hw w) ->
  Imagewrite.marked_bad dev = [] ->
  let '(status, dev') := Imagewrite.main crc a w dev in
  status = Imagewrite.EXIT_SUCCESS /\
  Imagewrite.marked_bad dev' = [] /\
  Zlen (Imagewrite.cells dev') = Zlen (Imagewrite.cells dev) /\
  (forall o m, 0 <= o -> 0 <= m ->
     o + m <= s * ebs \/ (s + n) * ebs <= o ->
     slice o m (Imagewrite.cells dev') = slice o m (Imagewrite.cells dev)) /\
  (forall i, 0 <= i < n ->
     let peb := slice ((s + i) * ebs) ebs (Imagewrite.cells dev') in
     ec_hdr_is crc mio (2 * mio) (slice 0 64 peb) /\
     (i < 2 ->
      vid_hdr_is crc UbiMedia.UBI_LAYOUT_VOLUME_TYPE
                 UbiMedia.UBI_LAYOUT_VOLUME_ID i (slice mio 64 peb) /\
      forall k, 0 <= k < 128 ->
        slice (2 * mio + k * 172) 172 peb
        = Imagewrite.ubi_vtbl_record_bytes crc
            (Imagewrite.set_vol_lebs a v) k) /\
     (2 <= i < v + 2 ->
      vid_hdr_is crc UbiMedia.UBI_VID_DYNAMIC (Imagewrite.vol_id a) (i - 2)
                 (slice mio 64 peb) /\
      slice (2 * mio) leb peb = leb_chunk leb payload (i - 2)) /\
     (v + 2 <= i ->
      slice 64 (ebs - 64) peb = repeat 255 (Z.to_nat (ebs - 64)))).
Proof.
  cbv zeta.
  intros Hubi Hname Hlen Hvid Hdev Hmio Hmult Hfit Hebs Hsize Hcells Hsmall
    Hs Hblocks Hwin Hboth Hinput Himg Hzero Hlong Hv Hv32 Hpay Hhw Hmarks.
  set (s := Imagewrite.start a) in *.
  set (n := if Imagewrite.blocks a =? 0 then npebs - s
            else Imagewrite.blocks a) in *.
  set (v := Imagewrite.resolve_vol_lebs (n - 2) (Imagewrite.vol_lebs a)) in *.
  set (plen := Zlen (payload_of src image_size)) in *.
  assert (Hleb : 22016 <= leb_size_of mtd < 2 ^ 31)
    by (unfold leb_size_of; lia).
  assert (Hplen : 0 <= plen <= v * leb_size_of mtd)
    by (unfold plen; split; [apply Zlen_nonneg | exact Hpay]).
  assert (Hvl : v * leb_size_of mtd <= 2 ^ 32 * 2 ^ 31) by nia.
  destruct (input_source_ok a w src image_size (leb_size_of mtd) Hinput Himg
              Hzero Hlong ltac:(fold plen; lia)) as (Hsrc & Epay).
  fold plen in Hsrc, Epay.
  pose proof (main_ubi_flash crc a w dev mtd name src image_size plen npebs
                Hubi Hname Hlen Hdev Hmio Hmult Hfit Hebs Hsize Hcells Hsmall
                Hs Hblocks Hwin Hboth Hinput Himg Hv Hplen Hsrc Hhw Hmarks)
    as M.
  fold s n v in M.
  destruct (Imagewrite.main crc a w dev) as [status dev'].
  destruct M as (St & Len & Img & Out & Marks).
  split; [exact St|]. split; [exact Marks|]. split; [exact Len|].
  split; [exact Out|].
  intros i Hi.
  set (a' := Imagewrite.set_vol_lebs a v) in *.
  set (total := if image_size =? 0 then ulong (-1) else image_size) in *.
  assert (Htot : total < 2 ^ 64).
  { unfold total. destruct (Z.eqb_spec image_size 0); [|lia].
    apply ulong_range. }
  assert (Hv62 : 0 <= Imagewrite.vol_lebs a' < 2 ^ 62)
    by (change (Imagewrite.vol_lebs a') with v; lia).
  assert (Hplen' : 0 <= plen <= Imagewrite.vol_lebs a' * leb_size_of mtd)
    by (change (Imagewrite.vol_lebs a') with v; exact Hplen).
  assert (Hubi' : Imagewrite.ubi a' = true) by exact Hubi.
  assert (Hsrc' : source_ok a' total src (leb_size_of mtd) plen)
    by exact Hsrc.
  assert (Lblk : forall j, 0 <= j ->
            Zlen (ubi_block crc a' mtd (Imagewrite.rand_seq w) total src
                            plen j) = Imagewrite.eb_size mtd).
  { intros j Hj. apply Zlen_ubi_block; assumption. }
  assert (Epeb : slice ((s + i) * Imagewrite.eb_size mtd)
                       (Imagewrite.eb_size mtd) (Imagewrite.cells dev')
                 = ubi_block crc a' mtd (Imagewrite.rand_seq w) total src
                             plen i).
  { replace ((s + i) * Imagewrite.eb_size mtd)
      with (s * Imagewrite.eb_size mtd + i * Imagewrite.eb_size mtd) by lia.
    rewrite <- (slice_slice (s * Imagewrite.eb_size mtd)
                  (n * Imagewrite.eb_size mtd)) by nia.
    rewrite Img. unfold ubi_image.
    rewrite slice_concat_blocks; [f_equal | lia | | lia].
    intros j Hj. apply Lblk. exact Hj. }
  rewrite Epeb.
  split; [apply ubi_block_ec; try assumption; lia|].
  split; [|split].
  - intros Hlay. split.
    + apply ubi_block_layout_vid; try assumption; lia.
    + intros k Hk. apply ubi_block_record; try assumption; lia.
  - intros Hvol. change (Imagewrite.vol_id a) with (Imagewrite.vol_id a').
    split.
    + apply ubi_block_volume_vid; try assumption;
        change (Imagewrite.vol_lebs a') with v; lia.
    + rewrite ubi_block_data by
        (try assumption; change (Imagewrite.vol_lebs a') with v; lia).
      rewrite Epay. reflexivity.
  - intros Htrail.
    apply ubi_block_rest; try assumption;
      change (Imagewrite.vol_lebs a') with v; lia.
Qed.

(** X11. What a raw run of [main] leaves on a flash without faults: the
    run ends with success and the window holds the payload from its start
    on, followed by erased flash up to its end. Nothing outside the window
    changes, and no block is marked bad. *)
Theorem raw_run_writes_payload (crc : Z -> list Z -> Z)
    (a : Imagewrite.args) (w : Imagewrite.env) (dev : Imagewrite.nand)
    (mtd : Imagewrite.mtd_dev_info) (src : list Z) (image_size npebs : Z) :
  let mio := Imagewrite.min_io_size mtd in
  let ebs := Imagewrite.eb_size mtd in
  let s := Imagewrite.start a in
  let n := if Imagewrite.blocks a =? 0 then npebs - s
           else Imagewrite.blocks a in
  let payload := payload_of src image_size in
  Imagewrite.ubi a = false ->
  Imagewrite.dev_info w = Some mtd ->
  0 < mio -> ebs mod mio = 0 -> 0 < ebs ->
  Imagewrite.size mtd = npebs * ebs ->
  Zlen (Imagewrite.cells dev) = Imagewrite.size mtd ->
  Imagewrite.size mtd < 2 ^ 61 ->
  0 <= s < npebs -> 0 <= Imagewrite.blocks a -> s + n <= npebs ->
  is_set (Imagewrite.img_file a) && Imagewrite.std_in a = false ->
  Imagewrite.open_input a w = inr (Imagewrite.fd_open src, image_size) ->
  0 <= image_size < 2 ^ 64 ->
  (image_size = 0 -> Imagewrite.std_in a = true) ->
  (image_size <> 0 -> image_size <= Zlen src) ->
  Zlen payload <= n * ebs ->
  fault_free (Imagewrite.hw w) ->
  Imagewrite.marked_bad dev = [] ->
  let '(status, dev') := Imagewrite.main crc a w dev in
  status = Imagewrite.EXIT_SUCCESS /\
  Imagewrite.marked_bad dev' = [] /\
  Zlen (Imagewrite.cells dev') = Zlen (Imagewrite.cells dev) /\
  slice (s * ebs) (n * ebs) (Imagewrite.cells dev')
  = payload ++ repeat 255 (Z.to_nat (n * ebs - Zlen payload)) /\
  (forall o m, 0 <= o -> 0 <= m ->
     o + m <= s * ebs \/ (s + n) * ebs <= o ->
     slice o m (Imagewrite.cells dev') = slice o m (Imagewrite.cells dev)).
Proof.
  cbv zeta.
  intros Hraw Hdev Hmio Hmult Hebs Hsize Hcells Hsmall Hs Hblocks Hwin Hboth
    Hinput Himg Hzero Hlong Hpay Hhw Hmarks.
  set (s := Imagewrite.start a) in *.
  set (n := if Imagewrite.blocks a =? 0 then npebs - s
            else Imagewrite.blocks a) in *.
  set (plen := Zlen (payload_of src image_size)) in *.
  assert (Hn : n * Imagewrite.eb_size mtd < 2 ^ 61) by nia.
  assert (Hplen : 0 <= plen <= n * Imagewrite.eb_size mtd)
    by (unfold plen; split; [apply Zlen_nonneg | exact Hpay]).
  destruct (input_source_ok a w src image_size (Imagewrite.eb_size mtd)
              Hinput Himg Hzero Hlong ltac:(fold plen; nia)) as (Hsrc & Epay).
  fold plen in Hsrc, Epay.
  pose proof (main_raw_flash crc a w dev mtd src image_size plen npebs Hraw
                Hdev Hmio Hmult Hebs Hsize Hcells Hsmall Hs Hblocks Hwin
                Hboth Hinput Himg Hplen Hsrc Hhw Hmarks) as M.
  fold s n in M.
  destruct (Imagewrite.main crc a w dev) as [status dev'].
  destruct M as (St & Len & Img & Out & Marks).
  rewrite Epay in Img. repeat split; assumption.
Qed.

(** X12. A raw run without input erases the window and writes nothing: on
    a flash that answers every state request and carries out every erase,
    the requests of the run are those of the erase pass and no others,
    every block of the window that is not bad reads [0xFF] afterwards, and
    the run ends with success. *)
Theorem erase_only_run (crc : Z -> list Z -> Z) (a : Imagewrite.args)
    (w : Imagewrite.env) (dev : Imagewrite.nand)
    (mtd : Imagewrite.mtd_dev_info) (npebs : Z) :
  let ebs := Imagewrite.eb_size mtd in
  let s := Imagewrite.start a in
  let n := if Imagewrite.blocks a =? 0 then npebs - s
           else Imagewrite.blocks a in
  Imagewrite.ubi a = false ->
  Imagewrite.std_in a = false ->
  Imagewrite.img_file a = None ->
  Imagewrite.length a = 0 -> Imagewrite.skip a = 0 ->
  Imagewrite.dev_info w = Some mtd ->
  0 < ebs ->
  Imagewrite.size mtd = npebs * ebs ->
  Zlen (Imagewrite.cells dev) = Imagewrite.size mtd ->
  Imagewrite.size mtd < 2 ^ 62 ->
  0 <= s < npebs -> 0 <= Imagewrite.blocks a -> s + n <= npebs ->
  (forall eb, Imagewrite.get_bad_fails (Imagewrite.hw w) eb = false) ->
  (forall eb, Imagewrite.erase_fails (Imagewrite.hw w) eb = false) ->
  Imagewrite.marked_bad dev = [] ->
  let '(status, dev') := Imagewrite.main crc a w dev in
  status = Imagewrite.EXIT_SUCCESS /\
  Imagewrite.calls dev'
  = Imagewrite.calls dev
    ++ erase_calls (Imagewrite.hw w) (ebs_from s (Z.to_nat n)) /\
  Imagewrite.marked_bad dev' = [] /\
  (forall eb, s <= eb < s + n ->
     Imagewrite.bad_block (Imagewrite.hw w) eb = false ->
     slice (eb * ebs) ebs (Imagewrite.cells dev')
     = repeat 255 (Z.to_nat ebs)) /\
  (forall o m, 0 <= o -> 0 <= m ->
     o + m <= s * ebs \/ (s + n) * ebs <= o ->
     slice o m (Imagewrite.cells dev') = slice o m (Imagewrite.cells dev)).
Proof.
  cbv zeta.
  intros Hraw Hstd Hfile Hlen0 Hskip Hdev Hebs Hsize Hcells Hsmall Hs Hblocks
    Hwin Hstate Herase Hmarks.
  set (s := Imagewrite.start a) in *.
  set (n := if Imagewrite.blocks a =? 0 then npebs - s
            else Imagewrite.blocks a) in *.
  assert (Hn : 1 <= n)
    by (unfold n; destruct (Z.eqb_spec (Imagewrite.blocks a) 0); lia).
  assert (Hcl : Zlen (Imagewrite.cells dev) = npebs * Imagewrite.eb_size mtd)
    by congruence.
  assert (Ws : Imagewrite.window_start a mtd = s * Imagewrite.eb_size mtd).
  { unfold Imagewrite.window_start. fold s. apply ulong_small. nia. }
  assert (We : Imagewrite.window_end a mtd
               = (s + n) * Imagewrite.eb_size mtd).
  { unfold Imagewrite.window_end. rewrite Ws. unfold n in *.
    destruct (Z.eqb_spec (Imagewrite.blocks a) 0) as [E | E].
    - rewrite Hsize. rewrite ulong_small by nia. f_equal. lia.
    - rewrite (ulong_small (Imagewrite.blocks a * Imagewrite.eb_size mtd))
        by nia.
      rewrite ulong_small by nia. lia. }
  assert (P : Imagewrite.prepare a w
              = inr (Imagewrite.mk_run a mtd (s * Imagewrite.eb_size mtd)
                       ((s + n) * Imagewrite.eb_size mtd) 0
                       Imagewrite.no_fd)).
  { unfold Imagewrite.prepare. rewrite Hfile, Hstd, Hraw, Hdev.
    cbn [is_set andb]. rewrite Ws, We, Hsize.
    rewrite (ulong_small (npebs * Imagewrite.eb_size mtd
                          - Imagewrite.eb_size mtd)) by nia.
    rewrite (ulong_small (npebs * Imagewrite.eb_size mtd)) by nia.
    destruct (Z.gtb_spec (s * Imagewrite.eb_size mtd)
                (npebs * Imagewrite.eb_size mtd - Imagewrite.eb_size mtd));
      [nia|].
    destruct (Z.gtb_spec ((s + n) * Imagewrite.eb_size mtd)
                (npebs * Imagewrite.eb_size mtd)); [nia|].
    unfold Imagewrite.open_input. rewrite Hstd, Hfile, Hlen0, Hskip.
    cbn [Z.eqb negb orb].
    unfold Imagewrite.check_geometry. rewrite Hraw.
    destruct (Z.gtb_spec 0 (ulong ((s + n) * Imagewrite.eb_size mtd
                                   - s * Imagewrite.eb_size mtd)))
      as [G | _]; [pose proof (ulong_range
                     ((s + n) * Imagewrite.eb_size mtd
                      - s * Imagewrite.eb_size mtd)); lia|].
    reflexivity. }
  unfold Imagewrite.main. rewrite P.
  cbn [Imagewrite.r_mtd Imagewrite.r_start Imagewrite.r_end
       Imagewrite.r_image_size Imagewrite.r_args].
  rewrite Hstd, Hraw. cbn [Z.eqb negb andb].
  assert (Hfuel : Imagewrite.window_fuel
                    (Imagewrite.mk_run a mtd (s * Imagewrite.eb_size mtd)
                       ((s + n) * Imagewrite.eb_size mtd) 0
                       Imagewrite.no_fd)
                  = (Z.to_nat n + 2)%nat).
  { unfold Imagewrite.window_fuel.
    cbn [Imagewrite.r_mtd Imagewrite.r_start Imagewrite.r_end].
    replace ((s + n) * Imagewrite.eb_size mtd - s * Imagewrite.eb_size mtd)
      with (n * Imagewrite.eb_size mtd) by lia.
    rewrite ulong_small by nia. rewrite Z.div_mul by lia. reflexivity. }
  rewrite Hfuel.
  assert (Eend : (s + n) * Imagewrite.eb_size mtd
                 = (s + Z.of_nat (Z.to_nat n)) * Imagewrite.eb_size mtd)
    by (f_equal; lia).
  assert (E : Imagewrite.erase_pass mtd (Imagewrite.hw w) (Z.to_nat n + 2)
                 (s * Imagewrite.eb_size mtd)
                 ((s + n) * Imagewrite.eb_size mtd) dev
               = Imagewrite.mk_nand
                   (erase_good (Imagewrite.hw w) mtd
                      (ebs_from s (Z.to_nat n)) (Imagewrite.cells dev)) []
                   (Imagewrite.calls dev
                    ++ erase_calls (Imagewrite.hw w)
                         (ebs_from s (Z.to_nat n)))).
  { rewrite Eend.
    apply (erase_pass_spec mtd (Imagewrite.hw w) Hebs Hstate Herase);
      try assumption; try lia; nia. }
  rewrite E.
  cbn [Imagewrite.marked_bad Imagewrite.cells Imagewrite.calls].
  destruct (erase_good_blocks (Imagewrite.hw w) mtd (Z.to_nat n) s
              (Imagewrite.cells dev) Hebs ltac:(lia) ltac:(nia))
    as (L & Hin & Hout).
  split; [reflexivity|]. split; [reflexivity|]. split; [reflexivity|].
  split.
  - intros eb Heb Hgood. rewrite Hin by lia. rewrite Hgood. reflexivity.
  - intros o m Ho Hm Hdisj. apply Hout; lia.
Qed.

(** X14. A raw image that is larger than the window is turned down before
    anything is erased: the run fails with the two messages of the
    program and the flash is untouched. *)
Theorem oversized_raw_image_rejected (crc : Z -> list Z -> Z)
    (a : Imagewrite.args) (w : Imagewrite.env) (dev : Imagewrite.nand)
    (mtd : Imagewrite.mtd_dev_info) (fd : Imagewrite.ifd_t)
    (image_size : Z) :
  let start_ := Imagewrite.window_start a mtd in
  let end_ := Imagewrite.window_end a mtd in
  Imagewrite.ubi a = false ->
  is_set (Imagewrite.img_file a) && Imagewrite.std_in a = false ->
  Imagewrite.dev_info w = Some mtd ->
  start_ <= ulong (Imagewrite.size mtd - Imagewrite.eb_size mtd) ->
  end_ <= ulong (Imagewrite.size mtd) ->
  Imagewrite.open_input a w = inr (fd, image_size) ->
  ulong (end_ - start_) < image_size ->
  Imagewrite.main crc a w dev
  = (Imagewrite.EXIT_FAILURE
       ["image file does not fit into allocated blocks"%string;
        "data only partially written due to error"%string], dev).
Proof.
  cbv zeta. intros Hraw Hboth Hdev Hstart Hend Hinput Hbig.
  apply main_prepare_fails.
  unfold Imagewrite.prepare. rewrite Hboth, Hraw, Hdev. cbn [andb].
  destruct (Z.gtb_spec (Imagewrite.window_start a mtd)
              (ulong (Imagewrite.size mtd - Imagewrite.eb_size mtd)));
    [lia|].
  destruct (Z.gtb_spec (Imagewrite.window_end a mtd)
              (ulong (Imagewrite.size mtd))); [lia|].
  rewrite Hinput. unfold Imagewrite.check_geometry. rewrite Hraw.
  destruct (Z.gtb_spec image_size
              (ulong (Imagewrite.window_end a mtd
                      - Imagewrite.window_start a mtd))); [|lia].
  reflexivity.
Qed.

(** ** ubi-utils/deubinize.c *)

(** X15. [read_headers] on an eraseblock that starts with a well-formed EC
    header whose data offset lies within the eraseblock. When a well-formed
    VID header stands at the offset the EC header names, the call succeeds,
    reports the two offsets, the volume and the logical eraseblock, and
    leaves the descriptor at the data. When erased flash stands there, the
    call succeeds as well, reports [0xffffffff] for the volume and for the
    logical eraseblock, and leaves the descriptor behind the place of the
    VID header; no CRC is checked in that case. *)
Theorem read_headers_on_wellformed_peb (crc : Z -> list Z -> Z)
    (xa : Deubinize.args) (file : list Z) (pos : Z)
    (imi : Deubinize.img_info) (vo d : Z) :
  0 <= pos -> 64 <= vo -> vo + 64 <= d < 2 ^ 32 ->
  d < u32 (Deubinize.peb_size xa) ->
  pos + vo + 64 <= Zlen file ->
  ec_hdr_is crc vo d (slice pos 64 file) ->
  (forall t vol l,
     vid_hdr_is crc t vol l (slice (pos + vo) 64 file) ->
     Deubinize.read_headers crc xa file pos imi
     = Deubinize.Ok (pos + d,
                     Deubinize.mk_img_info (Deubinize.size imi) vo d vol l))
  /\
  (slice (pos + vo) 64 file = repeat 255 64 ->
   Deubinize.read_headers crc xa file pos imi
   = Deubinize.Ok (pos + vo + 64,
                   Deubinize.mk_img_info (Deubinize.size imi) vo d
                                         0xffffffff 0xffffffff)).
Proof.
  intros Hpos Hvo Hd Hpeb Hlen Hec.
  assert (L1 : Zlen (slice pos 64 file) = 64) by (apply Zlen_slice; lia).
  assert (L2 : Zlen (slice (pos + vo) 64 file) = 64)
    by (apply Zlen_slice; lia).
  split.
  - intros t vol l Hvid.
    apply (read_headers_accepts crc xa file pos imi vo d t vol l);
      assumption.
  - intros Hblank.
    apply (read_headers_blank crc xa file pos imi vo d); try assumption. lia.
Qed.


(** X17. Asked for a volume by its index, [read_ubi_info] on an image of
    the writer finds the layout volume in the first eraseblock, reads the
    record of the slot and hands back the name the writer stored there, up
    to its terminating NUL. *)
Theorem read_ubi_info_by_index_finds_name (crc : Z -> list Z -> Z)
    (a : Imagewrite.args) (mtd : Imagewrite.mtd_dev_info) (rnd total : Z)
    (src : list Z) (plen : Z) (n : nat) (xa : Deubinize.args)
    (name : list Z) :
  let mio := Imagewrite.min_io_size mtd in
  let ebs := Imagewrite.eb_size mtd in
  let v := Imagewrite.vol_lebs a in
  let image := ubi_image crc a mtd rnd total src plen n in
  Imagewrite.ubi a = true ->
  64 <= mio -> 2 * mio + 128 * 172 <= ebs -> ebs < 2 ^ 31 ->
  0 <= v -> v * leb_size_of mtd <= 2 ^ 32 ->
  0 <= plen <= v * leb_size_of mtd ->
  source_ok a total src (leb_size_of mtd) plen ->
  0 <= Imagewrite.vol_id a < 128 ->
  v + 2 <= Z.of_nat n ->
  Imagewrite.vol_name a = Some name -> 0 < strlen name <= 127 ->
  Deubinize.peb_size xa = ebs ->
  Deubinize.vol_name xa = None ->
  Deubinize.vol_index xa = Imagewrite.vol_id a ->
  exists xa' imi,
    Deubinize.read_ubi_info crc xa image
      (Deubinize.mk_img_info (Zlen image) 0 0 0 0)
    = Deubinize.Ok (xa', imi) /\
    Deubinize.vol_name xa' = Some (firstn (strlen_nat name) name) /\
    Deubinize.vol_index xa' = Imagewrite.vol_id a /\
    Deubinize.vid_hdr_offset imi = mio /\
    Deubinize.data_offset imi = 2 * mio.
Proof.
  cbv zeta.
  intros Hubi Hmio Hfit Hebs Hv Hwrap Hplen Hsrc Hvid Hn Hwname Hname
    Hpeb Hxname Hix.
  rewrite (read_ubi_info_by_index crc a mtd rnd total src plen n Hubi Hmio
             Hfit Hebs Hv Hwrap Hplen Hsrc Hvid Hn xa name Hpeb Hwname
             Hxname Hix Hname).
  eexists. eexists. split; [reflexivity|]. repeat split.
Qed.

(** X18. Writing a volume and reading it back, for every payload but that
    of an empty input file (an image size of 0 is that of standard input
    without a length). A UBI run of the writer on
    a flash without faults, with a volume number below 128, a name that is
    not empty, and a volume of at most 4 GiB, ends with success; and the
    extractor, run on the window of the flash and asked for the volume by
    its name or by its number, ends with success and gives a file that
    holds the payload followed by [0xFF] up to the size of the volume,
    [vol_lebs] LEBs. *)
Theorem ubi_round_trip (crc : Z -> list Z -> Z)
    (a : Imagewrite.args) (w : Imagewrite.env) (dev : Imagewrite.nand)
    (mtd : Imagewrite.mtd_dev_info) (xa : Deubinize.args)
    (name src : list Z) (image_size npebs : Z) :
  let mio := Imagewrite.min_io_size mtd in
  let ebs := Imagewrite.eb_size mtd in
  let leb := leb_size_of mtd in
  let s := Imagewrite.start a in
  let n := if Imagewrite.blocks a =? 0 then npebs - s
           else Imagewrite.blocks a in
  let v := Imagewrite.resolve_vol_lebs (n - 2) (Imagewrite.vol_lebs a) in
  let payload := payload_of src image_size in
  Imagewrite.ubi a = true ->
  Imagewrite.vol_name a = Some name -> 0 < strlen name <= 127 ->
  0 <= Imagewrite.vol_id a < 128 ->
  Imagewrite.dev_info w = Some mtd ->
  64 <= mio -> ebs mod mio = 0 -> 2 * mio + 128 * 172 <= ebs ->
  ebs < 2 ^ 31 ->
  Imagewrite.size mtd = npebs * ebs ->
  Zlen (Imagewrite.cells dev) = Imagewrite.size mtd ->
  Imagewrite.size mtd < 2 ^ 62 ->
  0 <= s -> 0 <= Imagewrite.blocks a -> s + n <= npebs ->
  is_set (Imagewrite.img_file a) && Imagewrite.std_in a = false ->
  Imagewrite.open_input a w = inr (Imagewrite.fd_open src, image_size) ->
  0 <= image_size < 2 ^ 64 ->
  (image_size = 0 -> Imagewrite.std_in a = true) ->
  (image_size <> 0 -> image_size <= Zlen src) ->
  0 <= v <= n - 2 -> v * leb <= 2 ^ 32 ->
  Zlen payload <= v * leb ->
  fault_free (Imagewrite.hw w) ->
  Imagewrite.marked_bad dev = [] ->
  Deubinize.peb_size xa = ebs ->
  Deubinize.vol_name xa = Some name \/
  (Deubinize.vol_name xa = None /\
   Deubinize.vol_index xa = Imagewrite.vol_id a) ->
  let '(status, dev') := Imagewrite.main crc a w dev in
  status = Imagewrite.EXIT_SUCCESS /\
  Deubinize.main crc xa
    (Some (slice (s * ebs) (n * ebs) (Imagewrite.cells dev')))
  = (Deubinize.EXIT_SUCCESS,
     Some (payload ++ repeat 255 (Z.to_nat (v * leb - Zlen payload)))).
Proof.
  cbv zeta.
  intros Hubi Hname Hlen Hvid Hdev Hmio Hmult Hfit Hebs Hsize Hcells Hsmall
    Hs Hblocks Hwin Hboth Hinput Himg Hzero Hlong Hv Hwrap Hpay Hhw Hmarks
    Hpeb Hask.
  set (s := Imagewrite.start a) in *.
  set (n := if Imagewrite.blocks a =? 0 then npebs - s
            else Imagewrite.blocks a) in *.
  set (v := Imagewrite.resolve_vol_lebs (n - 2) (Imagewrite.vol_lebs a)) in *.
  set (plen := Zlen (payload_of src image_size)) in *.
  assert (Hleb : 22016 <= leb_size_of mtd < 2 ^ 31)
    by (unfold leb_size_of; lia).
  assert (Hplen : 0 <= plen <= v * leb_size_of mtd)
    by (unfold plen; split; [apply Zlen_nonneg | exact Hpay]).
  destruct (input_source_ok a w src image_size (leb_size_of mtd) Hinput Himg
              Hzero Hlong ltac:(fold plen; lia)) as (Hsrc & Epay).
  fold plen in Hsrc, Epay.
  pose proof (ubi_round_trip_lebs crc a w dev mtd name src image_size plen
                npebs Hubi Hname ltac:(lia) Hdev Hmio Hmult Hfit Hebs Hsize
                Hcells Hsmall Hs Hblocks Hwin Hboth Hinput Himg Hv Hplen Hsrc
                Hhw Hmarks xa ltac:(lia) Hvid Hwrap Hpeb Hask) as R.
  fold s n v in R.
  destruct (Imagewrite.main crc a w dev) as [status dev'].
  destruct R as (St & Ex). split; [exact St|].
  rewrite Ex, Epay.
  rewrite lebs_of_padded by (fold plen; lia).
  fold plen. do 4 f_equal. lia.
Qed.

(** X20. The volume table has 128 slots, and the writer takes any volume
    number. With a number of 128 or more the run ends with success all the
    same, but no record of the table carries the name, so the extractor,
    asked for the volume by its name, fails with "volume not found" and
    makes no output file: the bound of 128 on the volume number in the
    round trip cannot be dropped. *)
Theorem volume_number_beyond_table_is_lost (crc : Z -> list Z -> Z)
    (a : Imagewrite.args) (w : Imagewrite.env) (dev : Imagewrite.nand)
    (mtd : Imagewrite.mtd_dev_info) (xa : Deubinize.args)
    (name src : list Z) (image_size npebs : Z) :
  let mio := Imagewrite.min_io_size mtd in
  let ebs := Imagewrite.eb_size mtd in
  let leb := leb_size_of mtd in
  let s := Imagewrite.start a in
  let n := if Imagewrite.blocks a =? 0 then npebs - s
           else Imagewrite.blocks a in
  let v := Imagewrite.resolve_vol_lebs (n - 2) (Imagewrite.vol_lebs a) in
  let payload := payload_of src image_size in
  Imagewrite.ubi a = true ->
  Imagewrite.vol_name a = Some name -> 0 < strlen name <= 127 ->
  128 <= Imagewrite.vol_id a ->
  Imagewrite.dev_info w = Some mtd ->
  64 <= mio -> ebs mod mio = 0 -> 2 * mio + 128 * 172 <= ebs ->
  ebs < 2 ^ 31 ->
  Imagewrite.size mtd = npebs * ebs ->
  Zlen (Imagewrite.cells dev) = Imagewrite.size mtd ->
  Imagewrite.size mtd < 2 ^ 62 ->
  0 <= s -> 0 <= Imagewrite.blocks a -> s + n <= npebs ->
  is_set (Imagewrite.img_file a) && Imagewrite.std_in a = false ->
  Imagewrite.open_input a w = inr (Imagewrite.fd_open src, image_size) ->
  0 <= image_size < 2 ^ 64 ->
  (image_size = 0 -> Imagewrite.std_in a = true) ->
  (image_size <> 0 -> image_size <= Zlen src) ->
  0 <= v <= n - 2 -> v * leb <= 2 ^ 32 ->
  Zlen payload <= v * leb ->
  fault_free (Imagewrite.hw w) ->
  Imagewrite.marked_bad dev = [] ->
  Deubinize.peb_size xa = ebs ->
  Deubinize.vol_name xa = Some name ->
  let '(status, dev') := Imagewrite.main crc a w dev in
  status = Imagewrite.EXIT_SUCCESS /\
  Deubinize.main crc xa
    (Some (slice (s * ebs) (n * ebs) (Imagewrite.cells dev')))
  = (Deubinize.EXIT_FAILURE, None).
Proof.
  cbv zeta.
  intros Hubi Hname Hlen Hvid Hdev Hmio Hmult Hfit Hebs Hsize Hcells Hsmall
    Hs Hblocks Hwin Hboth Hinput Himg Hzero Hlong Hv Hwrap Hpay Hhw Hmarks
    Hpeb Hask.
  set (s := Imagewrite.start a) in *.
  set (n := if Imagewrite.blocks a =? 0 then npebs - s
            else Imagewrite.blocks a) in *.
  set (v := Imagewrite.resolve_vol_lebs (n - 2) (Imagewrite.vol_lebs a)) in *.
  set (plen := Zlen (payload_of src image_size)) in *.
  assert (Hleb : 22016 <= leb_size_of mtd < 2 ^ 31)
    by (unfold leb_size_of; lia).
  assert (Hplen : 0 <= plen <= v * leb_size_of mtd)
    by (unfold plen; split; [apply Zlen_nonneg | exact Hpay]).
  destruct (input_source_ok a w src image_size (leb_size_of mtd) Hinput Himg
              Hzero Hlong ltac:(fold plen; lia)) as (Hsrc & Epay).
  fold plen in Hsrc, Epay.
  pose proof (main_ubi_flash crc a w dev mtd name src image_size plen npebs
                Hubi Hname ltac:(lia) Hdev Hmio Hmult Hfit Hebs Hsize Hcells
                Hsmall Hs Hblocks Hwin Hboth Hinput Himg Hv Hplen Hsrc Hhw
                Hmarks) as M.
  fold s n v in M.
  destruct (Imagewrite.main crc a w dev) as [status dev'].
  destruct M as (St & _ & Img & _). split; [exact St|].
  rewrite Img.
  apply deubinize_volume_not_found with (name := name); try assumption;
    change (Imagewrite.vol_lebs (Imagewrite.set_vol_lebs a v)) with v;
    lia.
Qed.

(** ** The further properties at work *)

Lemma data_read_outcome_witness :
  let '(r, got, fd') :=
    Imagewrite.data_read (raw_args 1) (Imagewrite.fd_open [1; 2; 3]) 2 in
  (2 <= Zlen [1; 2; 3] ->
   r = 2 /\ got = firstn (Z.to_nat 2) [1; 2; 3] /\
   fd' = Imagewrite.fd_open (skipn (Z.to_nat 2) [1; 2; 3])) /\
  (Zlen [1; 2; 3] < 2 ->
   if Imagewrite.std_in (raw_args 1) && (Imagewrite.length (raw_args 1) =? 0)
   then r = Zlen [1; 2; 3] /\ got = [1; 2; 3]
   else r = -1).
Proof.
  exact (data_read_outcome (raw_args 1) [1; 2; 3] 2 ltac:(by_computation)).
Defined.

Lemma eb_gen_data_buffer_shape_witness :
  let a := ubi_args 0 "rootfs" in
  let st := Imagewrite.mk_wstate 2 12345 (Imagewrite.fd_open [1; 2; 3]) 3 in
  let '(data_len, buf, st') :=
    Imagewrite.eb_gen_data crc32 a small_mtd 12345 st in
  Zlen buf = Imagewrite.eb_size small_mtd /\
  (data_len < 0 ->
   data_len = -1 /\
   Imagewrite.blk_no st' = Imagewrite.blk_no st /\
   Imagewrite.data_left st' = Imagewrite.data_left st) /\
  (0 <= data_len ->
   data_len <= Imagewrite.eb_size small_mtd /\
   slice data_len (Imagewrite.eb_size small_mtd - data_len) buf
   = repeat 255 (Z.to_nat (Imagewrite.eb_size small_mtd - data_len)) /\
   Imagewrite.blk_no st' = ulong (Imagewrite.blk_no st + 1)).
Proof.
  exact (eb_gen_data_buffer_shape crc32 (ubi_args 0 "rootfs") small_mtd 12345
           (Imagewrite.mk_wstate 2 12345 (Imagewrite.fd_open [1; 2; 3]) 3)
           ltac:(by_computation) ltac:(by_computation)
           ltac:(by_computation)).
Defined.

Lemma erase_pass_outcome_witness :
  let mtd := tiny_mtd in
  let hw := no_faults in
  let dev := tiny_flash in
  let dev' :=
    Imagewrite.erase_pass mtd hw 3 (0 * Imagewrite.eb_size mtd)
      ((0 + Z.of_nat 2) * Imagewrite.eb_size mtd) dev in
  Imagewrite.marked_bad dev' = [] /\
  Zlen (Imagewrite.cells dev') = Zlen (Imagewrite.cells dev) /\
  (forall eb, 0 <= eb < 0 + Z.of_nat 2 ->
     slice (eb * Imagewrite.eb_size mtd) (Imagewrite.eb_size mtd)
           (Imagewrite.cells dev')
     = if Imagewrite.bad_block hw eb
       then slice (eb * Imagewrite.eb_size mtd) (Imagewrite.eb_size mtd)
                  (Imagewrite.cells dev)
       else repeat 255 (Z.to_nat (Imagewrite.eb_size mtd))) /\
  (forall o m, 0 <= o -> 0 <= m ->
     o + m <= 0 * Imagewrite.eb_size mtd \/
     (0 + Z.of_nat 2) * Imagewrite.eb_size mtd <= o ->
     slice o m (Imagewrite.cells dev') = slice o m (Imagewrite.cells dev)) /\
  Imagewrite.calls dev'
  = Imagewrite.calls dev ++ erase_calls hw (ebs_from 0 2).
Proof.
  exact (erase_pass_outcome tiny_mtd no_faults 2 3 0 tiny_flash
           ltac:(by_computation) (fun eb => eq_refl) (fun eb => eq_refl)
           ltac:(by_computation) ltac:(by_computation) ltac:(by_computation)
           ltac:(lia) eq_refl).
Defined.

Lemma eb_write_programs_block_witness :
  let a := raw_args 1 in
  let mtd := tiny_mtd in
  let dev := erased_tiny_flash in
  let data := [1; 2; 255; 255] in
  let '(ret, dev') :=
    Imagewrite.eb_write a mtd no_faults (0 * Imagewrite.eb_size mtd) 2 data
                        dev in
  ret = 0 /\
  slice (0 * Imagewrite.eb_size mtd) (Imagewrite.eb_size mtd)
        (Imagewrite.cells dev') = data /\
  (forall o m, 0 <= o -> 0 <= m ->
     o + m <= 0 * Imagewrite.eb_size mtd \/
     (0 + 1) * Imagewrite.eb_size mtd <= o ->
     slice o m (Imagewrite.cells dev') = slice o m (Imagewrite.cells dev)) /\
  Imagewrite.marked_bad dev' = Imagewrite.marked_bad dev.
Proof.
  exact (eb_write_programs_block (raw_args 1) tiny_mtd no_faults 0 2
           [1; 2; 255; 255] erased_tiny_flash
           ltac:(by_computation) ltac:(by_computation) ltac:(by_computation)
           ltac:(by_computation) ltac:(by_computation) ltac:(by_computation)
           ltac:(by_computation) ltac:(by_computation) ltac:(by_computation)
           ltac:(by_computation) (fun p => eq_refl)).
Defined.

Lemma eb_write_first_failure_witness :
  let a := raw_args 1 in
  let mtd := tiny_mtd in
  let hw := failing_writes [0] in
  let dev := tiny_flash in
  let data := [1; 2; 3; 4] in
  let mio := Imagewrite.min_io_size mtd in
  let ebs := Imagewrite.eb_size mtd in
  let eb := 0 / ebs in
  let '(ret, dev') := Imagewrite.eb_write a mtd hw 0 4 data dev in
  ret = -1 /\
  dev' = write_failed a mtd hw 0 4 data
           (page_addrs_from mtd 0 0) (Z.of_nat 0 * mio) dev /\
  Imagewrite.marked_bad dev'
  = (if 4 mod ebs =? 0 then eb :: Imagewrite.marked_bad dev
     else Imagewrite.marked_bad dev) /\
  (Imagewrite.get_bad_fails hw eb = false ->
   Imagewrite.bad_block hw eb = false ->
   existsb (Z.eqb eb) (Imagewrite.marked_bad dev) = false ->
   Imagewrite.erase_fails hw eb = false ->
   0 <= eb -> (eb + 1) * ebs <= Zlen (Imagewrite.cells dev) ->
   slice (eb * ebs) ebs (Imagewrite.cells dev')
   = repeat 255 (Z.to_nat ebs)).
Proof.
  refine (eb_write_first_failure (raw_args 1) tiny_mtd (failing_writes [0]) 0
            4 [1; 2; 3; 4] tiny_flash 0 _ _ _ _ _ _ _).
  - by_computation.
  - by_computation.
  - by_computation.
  - by_computation.
  - intros i H. exfalso. revert H. change (Z.of_nat 0) with 0. lia.
  - reflexivity.
  - left. by_computation.
Defined.

Lemma write_pass_stores_blocks_witness :
  let a := raw_args 2 in
  let mtd := tiny_mtd in
  let st := Imagewrite.mk_wstate 0 0 (Imagewrite.fd_open [1; 2; 3; 4; 5]) 5 in
  let dev := erased_tiny_flash in
  let ebs := Imagewrite.eb_size mtd in
  let '(st', dev') :=
    Imagewrite.write_pass crc32 a mtd no_faults 3 1 (0 * ebs)
                          ((0 + Z.of_nat 2) * ebs) st dev in
  let blocks := List.concat (fst (gen_blocks crc32 a mtd 1 2 st)) in
  st' = snd (gen_blocks crc32 a mtd 1 2 st) /\
  Imagewrite.cells dev' = store (0 * ebs) blocks (Imagewrite.cells dev) /\
  Imagewrite.marked_bad dev' = Imagewrite.marked_bad dev.
Proof.
  exact (write_pass_stores_blocks crc32 (raw_args 2) tiny_mtd no_faults 1 2 3
           0 (Imagewrite.mk_wstate 0 0 (Imagewrite.fd_open [1; 2; 3; 4; 5]) 5)
           erased_tiny_flash
           ltac:(by_computation) ltac:(by_computation) ltac:(by_computation)
           ltac:(by_computation) (fun eb p => eq_refl) ltac:(by_computation)
           ltac:(by_computation) ltac:(by_computation) ltac:(lia)
           ltac:(by_computation) ltac:(by_computation)).
Defined.

Lemma layout_volume_copies_agree_witness :
  let a := ubi_args 0 "rootfs" in
  let mtd := small_mtd in
  let st := Imagewrite.mk_wstate 0 0 (Imagewrite.fd_open [1; 2; 3]) 3 in
  let mio := Imagewrite.min_io_size mtd in
  let '(_, copy0, st1) := Imagewrite.eb_gen_data crc32 a mtd 12345 st in
  let '(_, copy1, st2) := Imagewrite.eb_gen_data crc32 a mtd 12345 st1 in
  Imagewrite.blk_no st2 = 2 /\
  Imagewrite.ifd st2 = Imagewrite.ifd st /\
  Imagewrite.data_left st2 = Imagewrite.data_left st /\
  forall k, 0 <= k < 128 ->
    slice (2 * mio + k * 172) 172 copy0
    = Imagewrite.ubi_vtbl_record_bytes crc32 a k /\
    slice (2 * mio + k * 172) 172 copy1
    = Imagewrite.ubi_vtbl_record_bytes crc32 a k.
Proof.
  refine (layout_volume_copies_agree crc32 (ubi_args 0 "rootfs") small_mtd
            12345
            (Imagewrite.mk_wstate 0 0 (Imagewrite.fd_open [1; 2; 3]) 3)
            _ _ _ _ _).
  - reflexivity.
  - by_computation.
  - by_computation.
  - by_computation.
  - reflexivity.
Defined.

Lemma ubi_run_flash_contents_witness :
  let a := ubi_args 0 "rootfs" in
  let w := file_env [1; 2; 3] in
  let dev := used_flash in
  let mtd := small_mtd in
  let mio := Imagewrite.min_io_size mtd in
  let ebs := Imagewrite.eb_size mtd in
  let leb := leb_size_of mtd in
  let s := Imagewrite.start a in
  let n := if Imagewrite.blocks a =? 0 then 5 - s
           else Imagewrite.blocks a in
  let v := Imagewrite.resolve_vol_lebs (n - 2) (Imagewrite.vol_lebs a) in
  let payload := payload_of [1; 2; 3] 3 in
  let '(status, dev') := Imagewrite.main crc32 a w dev in
  status = Imagewrite.EXIT_SUCCESS /\
  Imagewrite.marked_bad dev' = [] /\
  Zlen (Imagewrite.cells dev') = Zlen (Imagewrite.cells dev) /\
  (forall o m, 0 <= o -> 0 <= m ->
     o + m <= s * ebs \/ (s + n) * ebs <= o ->
     slice o m (Imagewrite.cells dev') = slice o m (Imagewrite.cells dev)) /\
  (forall i, 0 <= i < n ->
     let peb := slice ((s + i) * ebs) ebs (Imagewrite.cells dev') in
     ec_hdr_is crc32 mio (2 * mio) (slice 0 64 peb) /\
     (i < 2 ->
      vid_hdr_is crc32 UbiMedia.UBI_LAYOUT_VOLUME_TYPE
                 UbiMedia.UBI_LAYOUT_VOLUME_ID i (slice mio 64 peb) /\
      forall k, 0 <= k < 128 ->
        slice (2 * mio + k * 172) 172 peb
        = Imagewrite.ubi_vtbl_record_bytes crc32
            (Imagewrite.set_vol_lebs a v) k) /\
     (2 <= i < v + 2 ->
      vid_hdr_is crc32 UbiMedia.UBI_VID_DYNAMIC (Imagewrite.vol_id a) (i - 2)
                 (slice mio 64 peb) /\
      slice (2 * mio) leb peb = leb_chunk leb payload (i - 2)) /\
     (v + 2 <= i ->
      slice 64 (ebs - 64) peb = repeat 255 (Z.to_nat (ebs - 64)))).
Proof.
  refine (ubi_run_flash_contents crc32 (ubi_args 0 "rootfs")
            (file_env [1; 2; 3]) used_flash small_mtd
            (bytes_of_string "rootfs") [1; 2; 3] 3 5
            _ _ _ _ _ _ _ _ _ _ _ _ _ _ _ _ _ _ _ _ _ _ _ _ _).
  - reflexivity.
  - reflexivity.
  - by_computation.
  - by_computation.
  - reflexivity.
  - by_computation.
  - by_computation.
  - by_computation.
  - by_computation.
  - by_computation.
  - by_computation.
  - by_computation.
  - by_computation.
  - by_computation.
  - by_computation.
  - reflexivity.
  - reflexivity.
  - by_computation.
  - intros H. discriminate H.
  - intros _. by_computation.
  - by_computation.
  - by_computation.
  - by_computation.
  - exact no_faults_fault_free.
  - reflexivity.
Defined.

Lemma raw_run_writes_payload_witness :
  let a := raw_args 2 in
  let w := tiny_env [1; 2; 3; 4; 5] [] in
  let dev := tiny_flash in
  let mtd := tiny_mtd in
  let ebs := Imagewrite.eb_size mtd in
  let s := Imagewrite.start a in
  let n := if Imagewrite.blocks a =? 0 then 2 - s
           else Imagewrite.blocks a in
  let payload := payload_of [1; 2; 3; 4; 5] 5 in
  let '(status, dev') := Imagewrite.main crc32 a w dev in
  status = Imagewrite.EXIT_SUCCESS /\
  Imagewrite.marked_bad dev' = [] /\
  Zlen (Imagewrite.cells dev') = Zlen (Imagewrite.cells dev) /\
  slice (s * ebs) (n * ebs) (Imagewrite.cells dev')
  = payload ++ repeat 255 (Z.to_nat (n * ebs - Zlen payload)) /\
  (forall o m, 0 <= o -> 0 <= m ->
     o + m <= s * ebs \/ (s + n) * ebs <= o ->
     slice o m (Imagewrite.cells dev') = slice o m (Imagewrite.cells dev)).
Proof.
  refine (raw_run_writes_payload crc32 (raw_args 2)
            (tiny_env [1; 2; 3; 4; 5] []) tiny_flash tiny_mtd
            [1; 2; 3; 4; 5] 5 2
            _ _ _ _ _ _ _ _ _ _ _ _ _ _ _ _ _ _ _).
  - reflexivity.
  - reflexivity.
  - by_computation.
  - by_computation.
  - by_computation.
  - by_computation.
  - by_computation.
  - by_computation.
  - by_computation.
  - by_computation.
  - by_computation.
  - reflexivity.
  - reflexivity.
  - by_computation.
  - intros H. discriminate H.
  - intros _. by_computation.
  - by_computation.
  - intros eb. repeat split.
  - reflexivity.
Defined.

Lemma erase_only_run_witness :
  let a := erase_args in
  let w := tiny_env [] [] in
  let dev := tiny_flash in
  let mtd := tiny_mtd in
  let ebs := Imagewrite.eb_size mtd in
  let s := Imagewrite.start a in
  let n := if Imagewrite.blocks a =? 0 then 2 - s
           else Imagewrite.blocks a in
  let '(status, dev') := Imagewrite.main crc32 a w dev in
  status = Imagewrite.EXIT_SUCCESS /\
  Imagewrite.calls dev'
  = Imagewrite.calls dev
    ++ erase_calls (Imagewrite.hw w) (ebs_from s (Z.to_nat n)) /\
  Imagewrite.marked_bad dev' = [] /\
  (forall eb, s <= eb < s + n ->
     Imagewrite.bad_block (Imagewrite.hw w) eb = false ->
     slice (eb * ebs) ebs (Imagewrite.cells dev')
     = repeat 255 (Z.to_nat ebs)) /\
  (forall o m, 0 <= o -> 0 <= m ->
     o + m <= s * ebs \/ (s + n) * ebs <= o ->
     slice o m (Imagewrite.cells dev') = slice o m (Imagewrite.cells dev)).
Proof.
  refine (erase_only_run crc32 erase_args (tiny_env [] []) tiny_flash
            tiny_mtd 2 _ _ _ _ _ _ _ _ _ _ _ _ _ _ _ _).
  - reflexivity.
  - reflexivity.
  - reflexivity.
  - reflexivity.
  - reflexivity.
  - reflexivity.
  - by_computation.
  - by_computation.
  - by_computation.
  - by_computation.
  - by_computation.
  - by_computation.
  - by_computation.
  - intros eb. reflexivity.
  - intros eb. reflexivity.
  - reflexivity.
Defined.

Lemma oversized_raw_image_rejected_witness :
  Imagewrite.main crc32 (raw_args 1) (tiny_env [1; 2; 3; 4; 5] []) tiny_flash
  = (Imagewrite.EXIT_FAILURE
       ["image file does not fit into allocated blocks"%string;
        "data only partially written due to error"%string], tiny_flash).
Proof.
  refine (oversized_raw_image_rejected crc32 (raw_args 1)
            (tiny_env [1; 2; 3; 4; 5] []) tiny_flash tiny_mtd
            (Imagewrite.fd_open [1; 2; 3; 4; 5]) 5 _ _ _ _ _ _ _).
  - reflexivity.
  - reflexivity.
  - reflexivity.
  - by_computation.
  - by_computation.
  - reflexivity.
  - by_computation.
Defined.

Lemma read_headers_on_wellformed_peb_witness :
  let xa := extract_args "rootfs" false in
  let file := first_block in
  let imi := Deubinize.mk_img_info 22144 0 0 0 0 in
  (forall t vol l,
     vid_hdr_is crc32 t vol l (slice (0 + 64) 64 file) ->
     Deubinize.read_headers crc32 xa file 0 imi
     = Deubinize.Ok (0 + 128,
                     Deubinize.mk_img_info (Deubinize.size imi) 64 128 vol l))
  /\
  (slice (0 + 64) 64 file = repeat 255 64 ->
   Deubinize.read_headers crc32 xa file 0 imi
   = Deubinize.Ok (0 + 64 + 64,
                   Deubinize.mk_img_info (Deubinize.size imi) 64 128
                                         0xffffffff 0xffffffff)).
Proof.
  refine (read_headers_on_wellformed_peb crc32 (extract_args "rootfs" false)
            first_block 0 (Deubinize.mk_img_info 22144 0 0 0 0) 64 128
            _ _ _ _ _ _).
  - by_computation.
  - by_computation.
  - by_computation.
  - by_computation.
  - by_computation.
  - by_computation.
Defined.


Lemma read_ubi_info_by_index_finds_name_witness :
  let a := ubi_args 0 "rootfs" in
  let mtd := small_mtd in
  let xa := extract_by_index in
  let name := bytes_of_string "rootfs" in
  let mio := Imagewrite.min_io_size mtd in
  let image := ubi_image crc32 a mtd 12345 3 [1; 2; 3] 3 5 in
  exists xa' imi,
    Deubinize.read_ubi_info crc32 xa image
      (Deubinize.mk_img_info (Zlen image) 0 0 0 0)
    = Deubinize.Ok (xa', imi) /\
    Deubinize.vol_name xa' = Some (firstn (strlen_nat name) name) /\
    Deubinize.vol_index xa' = Imagewrite.vol_id a /\
    Deubinize.vid_hdr_offset imi = mio /\
    Deubinize.data_offset imi = 2 * mio.
Proof.
  refine (read_ubi_info_by_index_finds_name crc32 (ubi_args 0 "rootfs")
            small_mtd 12345 3 [1; 2; 3] 3 5 extract_by_index
            (bytes_of_string "rootfs") _ _ _ _ _ _ _ _ _ _ _ _ _ _ _).
  - reflexivity.
  - by_computation.
  - by_computation.
  - by_computation.
  - by_computation.
  - by_computation.
  - by_computation.
  - left. by_computation.
  - by_computation.
  - by_computation.
  - reflexivity.
  - by_computation.
  - reflexivity.
  - reflexivity.
  - reflexivity.
Defined.

Lemma ubi_round_trip_witness :
  let a := ubi_args 0 "rootfs" in
  let w := file_env [1; 2; 3] in
  let dev := used_flash in
  let mtd := small_mtd in
  let xa := extract_args "rootfs" false in
  let ebs := Imagewrite.eb_size mtd in
  let leb := leb_size_of mtd in
  let s := Imagewrite.start a in
  let n := if Imagewrite.blocks a =? 0 then 5 - s
           else Imagewrite.blocks a in
  let v := Imagewrite.resolve_vol_lebs (n - 2) (Imagewrite.vol_lebs a) in
  let payload := payload_of [1; 2; 3] 3 in
  let '(status, dev') := Imagewrite.main crc32 a w dev in
  status = Imagewrite.EXIT_SUCCESS /\
  Deubinize.main crc32 xa
    (Some (slice (s * ebs) (n * ebs) (Imagewrite.cells dev')))
  = (Deubinize.EXIT_SUCCESS,
     Some (payload ++ repeat 255 (Z.to_nat (v * leb - Zlen payload)))).
Proof.
  refine (ubi_round_trip crc32 (ubi_args 0 "rootfs") (file_env [1; 2; 3])
            used_flash small_mtd (extract_args "rootfs" false)
            (bytes_of_string "rootfs") [1; 2; 3] 3 5
            _ _ _ _ _ _ _ _ _ _ _ _ _ _ _ _ _ _ _ _ _ _ _ _ _ _ _).
  - reflexivity.
  - reflexivity.
  - by_computation.
  - by_computation.
  - reflexivity.
  - by_computation.
  - by_computation.
  - by_computation.
  - by_computation.
  - by_computation.
  - by_computation.
  - by_computation.
  - by_computation.
  - by_computation.
  - by_computation.
  - reflexivity.
  - reflexivity.
  - by_computation.
  - intros H. discriminate H.
  - intros _. by_computation.
  - by_computation.
  - by_computation.
  - by_computation.
  - exact no_faults_fault_free.
  - reflexivity.
  - reflexivity.
  - left. reflexivity.
Defined.

Lemma volume_number_beyond_table_is_lost_witness :
  let a := ubi_args 128 "rootfs" in
  let w := file_env [1; 2; 3] in
  let dev := used_flash in
  let mtd := small_mtd in
  let xa := extract_args "rootfs" false in
  let ebs := Imagewrite.eb_size mtd in
  let s := Imagewrite.start a in
  let n := if Imagewrite.blocks a =? 0 then 5 - s
           else Imagewrite.blocks a in
  let '(status, dev') := Imagewrite.main crc32 a w dev in
  status = Imagewrite.EXIT_SUCCESS /\
  Deubinize.main crc32 xa
    (Some (slice (s * ebs) (n * ebs) (Imagewrite.cells dev')))
  = (Deubinize.EXIT_FAILURE, None).
Proof.
  refine (volume_number_beyond_table_is_lost crc32 (ubi_args 128 "rootfs")
            (file_env [1; 2; 3]) used_flash small_mtd
            (extract_args "rootfs" false) (bytes_of_string "rootfs")
            [1; 2; 3] 3 5
            _ _ _ _ _ _ _ _ _ _ _ _ _ _ _ _ _ _ _ _ _ _ _ _ _ _ _).
  - reflexivity.
  - reflexivity.
  - by_computation.
  - by_computation.
  - reflexivity.
  - by_computation.
  - by_computation.
  - by_computation.
  - by_computation.
  - by_computation.
  - by_computation.
  - by_computation.
  - by_computation.
  - by_computation.
  - by_computation.
  - reflexivity.
  - reflexivity.
  - by_computation.
  - intros H. discriminate H.
  - intros _. by_computation.
  - by_computation.
  - by_computation.
  - by_computation.
  - exact no_faults_fault_free.
  - reflexivity.
  - reflexivity.
  - reflexivity.
Defined.
